(** * Retrieval and analytics engine of the financial data assistant

    A shallow embedding of
      - [services/embedding_service.py]      ([EmbeddingService]),
      - [services/vector_search_service.py]  ([VectorSearchService]),
      - [services/summarizer_service.py]     ([TransactionSummarizer]),
    followed by the properties of the retrieval-and-analytics core.

    Modelling conventions.
      - A transaction is a Python dict with a fixed schema; it is a record
        whose fields are options, [None] standing for an absent key, so that
        [txn.get(key, default)] is [get (key txn) default].
      - Amounts are Python numbers.  They are modelled as exact rationals
        ([Q]); [round(x, 2)] is rounding to the nearest multiple of 1/100,
        ties to even.  Rounding error of binary64 accumulation is outside
        the model for amounts.
      - Distances come out of the nearest-neighbour index as IEEE floats and
        the similarity score is evaluated in floating point: each arithmetic
        operation is the exact operation followed by the rounding [fl] of
        the format (an argument of the model, with round-to-nearest-even
        instances [binary32] and [binary64]).
      - Exceptions are values of [Result].
      - The sentence transformer and the on-disk snapshot are opaque: the
        encoder and the number formatters are arguments of the model, the
        snapshot files are inputs of [load_index]. *)

From Stdlib Require Import ZArith QArith Qround Qabs Qpower Qreduction SpecFloat.
From Stdlib Require Import List String Ascii Bool Lia Lqa Sorted Permutation.
From Stdlib Require Import DecimalString DecimalN.
Import ListNotations.

Set Implicit Arguments.

(* ===================================================================== *)
(** ** Python values and exceptions *)
(* ===================================================================== *)

Inductive PyError : Type :=
| ValueError (msg : string)
| RuntimeError (msg : string)
| FileNotFoundError (msg : string)
| AssertionError
| IndexError
| KeyError (key : string)
| ZeroDivisionError (msg : string).

Inductive Result (A : Type) : Type :=
| Ok (a : A)
| Raise (e : PyError).

Arguments Ok {A} a.
Arguments Raise {A} e.

Definition bind {A B : Type} (r : Result A) (k : A -> Result B) : Result B :=
  match r with
  | Ok a => k a
  | Raise e => Raise e
  end.

Notation "x <- r ;; k" := (bind r (fun x => k))
  (at level 61, r at next level, right associativity).

(** [d.get(key, default)] on a record field. *)
Definition get {A : Type} (field : option A) (default : A) : A :=
  match field with
  | Some v => v
  | None => default
  end.

(** Truth value of a string: only the empty string is falsy. *)
Definition truthy (s : string) : bool :=
  match s with
  | EmptyString => false
  | String _ _ => true
  end.

(** Truth value of an [Optional[str]]: [None] and [''] are falsy. *)
Definition truthy_opt (s : option string) : bool :=
  match s with
  | None => false
  | Some v => truthy v
  end.

(** [l[i]] for a Python list: negative indices count from the end, an index
    out of range raises [IndexError]. *)
Definition getitem {A : Type} (l : list A) (i : Z) : Result A :=
  let n := Z.of_nat (List.length l) in
  let j := (if i <? 0 then n + i else i)%Z in
  if (j <? 0)%Z then Raise IndexError
  else match nth_error l (Z.to_nat j) with
       | Some x => Ok x
       | None => Raise IndexError
       end.

(** [round(x)] to an integer, ties to even. *)
Definition round_half_even (q : Q) : Z :=
  let f := Qfloor q in
  match (q - inject_Z f ?= 1 # 2)%Q with
  | Lt => f
  | Gt => (f + 1)%Z
  | Eq => if Z.even f then f else (f + 1)%Z
  end.

(** [round(x, 2)]. *)
Definition round2 (x : Q) : Q :=
  Qred (inject_Z (round_half_even (x * 100)) / 100)%Q.

(* ===================================================================== *)
(** ** Floating-point rounding *)
(* ===================================================================== *)

Definition pow2 (e : Z) : Q := (2 ^ e)%Q.

(** The exponent [e] with [2^(e-1) <= x < 2^e], for [x > 0]. *)
Definition mag (x : Q) : Z :=
  let e0 := (Z.log2 (Qnum x) - Z.log2 (Zpos (Qden x)))%Z in
  if Qlt_le_dec x (pow2 e0) then e0 else (e0 + 1)%Z.

(** Round-to-nearest-even on positive numbers, for a format of precision
    [prec] bits whose smallest positive number is [2^emin]. *)
Definition round_pos (prec emin : Z) (x : Q) : Q :=
  let e := Z.max (mag x - prec) emin in
  (inject_Z (round_half_even (x / pow2 e)) * pow2 e)%Q.

Definition round_binary (prec emin : Z) (x : Q) : Q :=
  match (x ?= 0)%Q with
  | Eq => 0%Q
  | Gt => round_pos prec emin x
  | Lt => (- round_pos prec emin (- x))%Q
  end.

Definition binary32 : Q -> Q := round_binary 24 (-149).
Definition binary64 : Q -> Q := round_binary 53 (-1074).

(** Arithmetic on Python floats: every operation returns its exact result
    rounded to the format by [fl], the rounding of binary64.  An amount is
    a float; the integer [0] that starts an accumulator and an integer
    divisor are exact in the format. *)
Section FloatOperations.

Variable fl : Q -> Q.

Definition float_add (x y : Q) : Q := fl (x + y).
Definition float_sub (x y : Q) : Q := fl (x - y).
Definition float_mul (x y : Q) : Q := fl (x * y).

(** [x / y]: a zero divisor raises. *)
Definition float_div (x y : Q) : Result Q :=
  if Qeq_bool y 0 then Raise (ZeroDivisionError "float division by zero")
  else Ok (fl (x / y)).

(** [round(x, 2)] of a float: the float nearest to the decimal that [x]
    rounds to. *)
Definition float_round2 (x : Q) : Q := fl (round2 x).

End FloatOperations.

(** Largest finite binary32 number, the distance FAISS reports for a result
    slot it could not fill. *)
Definition FLT_MAX : Q := inject_Z ((2 ^ 24 - 1) * 2 ^ 104).

(** The same arithmetic through the IEEE operations of the Standard Library
    ([SpecFloat]), against which the rounding above is checked on sample
    distances. *)

(** The value of a finite IEEE number. *)
Definition SF2Q (f : spec_float) : Q :=
  match f with
  | S754_finite s m e => ((if s then -1 else 1) * inject_Z (Zpos m) * pow2 e)%Q
  | _ => 0%Q
  end.

Definition ieee_one (prec : Z) : spec_float :=
  S754_finite false (Z.to_pos (2 ^ (prec - 1))) (1 - prec).

(** [1 / (1 + d)] with the IEEE operations of the Standard Library. *)
Definition ieee_score (prec emax : Z) (d : spec_float) : spec_float :=
  SFdiv prec emax (ieee_one prec) (SFadd prec emax (ieee_one prec) d).

Definition sample_distances : list spec_float :=
  [ S754_zero false;
    S754_finite false 1 (-60);
    S754_finite false 1 (-149);
    S754_finite false 11184811 (-25);
    S754_finite false 13421773 (-27);
    S754_finite false 8388608 (-24);
    S754_finite false 12345679 (-20);
    S754_finite false 3969 0;
    S754_finite false 16777215 104 ].

(* ===================================================================== *)
(** ** Transactions *)
(* ===================================================================== *)

Record Transaction : Type := mkTransaction {
  transaction_id : option string;
  user_id : option string;
  date : option string;
  timestamp : option string;
  description : option string;
  merchant : option string;
  category : option string;
  subcategory : option string;
  amount : option Q;
  currency : option string;
  type : option string;
  payment_method : option string;
  status : option string;
  location : option string;
  notes : option string
}.

(* ===================================================================== *)
(** ** The nearest-neighbour index *)
(* ===================================================================== *)

(** [faiss.IndexFlatL2] is a library outside the repository.  Its [search]
    is modelled by its contract: for [k > 0] (the Python wrapper asserts
    it) the result has exactly [k] slots, the stored vectors closest to the
    query in ascending squared Euclidean distance first, each with its
    ordinal position as label; slots that cannot be filled because fewer
    than [k] vectors are stored carry the label [-1] and the distance
    [FLT_MAX]. *)

Definition Vector : Type := list Q.

Fixpoint l2_sqr (x y : Vector) : Q :=
  match x, y with
  | a :: x', b :: y' => ((a - b) * (a - b) + l2_sqr x' y')%Q
  | _, _ => 0%Q
  end.

Record IndexFlatL2 : Type := mkIndex { vectors : list Vector }.

Definition ntotal (index : IndexFlatL2) : nat := List.length (vectors index).

(** Labels and distances of all stored vectors, in storage order. *)
Fixpoint labelled (x : Vector) (vs : list Vector) (label : Z) : list (Z * Q) :=
  match vs with
  | [] => []
  | v :: vs' => (label, l2_sqr x v) :: labelled x vs' (label + 1)
  end.

Definition closer (a b : Z * Q) : bool := Qle_bool (snd a) (snd b).

Fixpoint insert_by_distance (a : Z * Q) (l : list (Z * Q)) : list (Z * Q) :=
  match l with
  | [] => [a]
  | b :: l' => if closer b a then b :: insert_by_distance a l' else a :: b :: l'
  end.

Definition sort_by_distance (l : list (Z * Q)) : list (Z * Q) :=
  fold_left (fun sorted a => insert_by_distance a sorted) l [].

Definition index_search (index : IndexFlatL2) (x : Vector) (k : Z)
  : Result (list (Z * Q)) :=
  if (k <=? 0)%Z then Raise AssertionError
  else
    let best := firstn (Z.to_nat k) (sort_by_distance (labelled x (vectors index) 0)) in
    Ok (best ++ repeat ((-1)%Z, FLT_MAX) (Z.to_nat k - List.length best)).

(* ===================================================================== *)
(** ** EmbeddingService *)
(* ===================================================================== *)

(** A search result: a copy of the transaction with the keys
    ['similarity_score'] and ['distance'] added. *)
Record Hit : Type := mkHit {
  txn : Transaction;
  similarity_score : Q;
  distance : Q
}.

Record EmbeddingService : Type := mkEmbeddingService {
  index : option IndexFlatL2;
  transactions : list Transaction
}.

Definition string_opt_eqb (a b : option string) : bool :=
  match a, b with
  | Some x, Some y => String.eqb x y
  | None, None => true
  | _, _ => false
  end.

Definition Qlt_bool (x y : Q) : bool := negb (Qle_bool y x).

Section Services.

(** [str(x)] of a number inside an f-string. *)
Variable str_number : Q -> string.
(** [SentenceTransformer.encode] on one text. *)
Variable encode : string -> Vector.
(** Rounding of the floating-point format the score is evaluated in. *)
Variable fl : Q -> Q.

Definition new_embedding_service : EmbeddingService :=
  {| index := None; transactions := [] |}.

Definition create_transaction_text (transaction : Transaction) : string :=
  let parts :=
    [ get (description transaction) "";
      get (category transaction) "";
      get (subcategory transaction) "";
      get (merchant transaction) "";
      "Amount: " ++ str_number (get (amount transaction) 0%Q) ++ " "
                 ++ get (currency transaction) "INR";
      "Type: " ++ get (type transaction) "";
      "Payment: " ++ get (payment_method transaction) "";
      get (notes transaction) "" ]%string in
  String.concat " | " (filter truthy parts).

Definition create_embeddings (txns : list Transaction) : list Vector :=
  map (fun t => encode (create_transaction_text t)) txns.

Definition build_index (self : EmbeddingService) (txns : list Transaction)
  : EmbeddingService :=
  {| index := Some (mkIndex (create_embeddings txns)); transactions := txns |}.

(** [load_index]: the two snapshot files are inputs, [None] for a file
    that is missing or unreadable.  The index is assigned before the
    transactions file is opened. *)
Definition load_index (self : EmbeddingService)
    (index_file : option IndexFlatL2)
    (transactions_file : option (list Transaction))
  : EmbeddingService * Result unit :=
  match index_file with
  | None => (self, Raise (FileNotFoundError "Index not found"))
  | Some idx =>
      let self1 := {| index := Some idx; transactions := transactions self |} in
      match transactions_file with
      | None => (self1, Raise (FileNotFoundError "transactions"))
      | Some txns => ({| index := Some idx; transactions := txns |}, Ok tt)
      end
  end.

(** The score attached to a result: [float(1 / (1 + distance))]. *)
Definition score (d : Q) : Q := fl (1 / fl (1 + d))%Q.

(** The loop over [zip(indices[0], distances[0])]. *)
Fixpoint collect (txns : list Transaction) (found : list (Z * Q))
    (results : list Hit) : Result (list Hit) :=
  match found with
  | [] => Ok results
  | (idx, d) :: rest =>
      if (idx <? Z.of_nat (List.length txns))%Z then
        result <- getitem txns idx ;;
        collect txns rest
          (results ++ [ {| txn := result; similarity_score := score d;
                           distance := d |} ])
      else collect txns rest results
  end.

Definition embedding_search (self : EmbeddingService) (query : string)
    (top_k : Z) : Result (list Hit) :=
  match index self with
  | None =>
      Raise (ValueError "Index not built. Call build_index() or load_index() first.")
  | Some idx =>
      let query_embedding := encode query in
      found <- index_search idx query_embedding top_k ;;
      collect (transactions self) found []
  end.

(* ------------------------------------------------------------------- *)
(** *** VectorSearchService *)

Record VectorSearchService : Type := mkVectorSearchService {
  embedding_service : EmbeddingService;
  is_ready : bool
}.

Definition new_search_service : VectorSearchService :=
  {| embedding_service := new_embedding_service; is_ready := false |}.

Definition initialize (self : VectorSearchService)
    (index_file : option IndexFlatL2)
    (transactions_file : option (list Transaction))
  : VectorSearchService * bool :=
  match load_index (embedding_service self) index_file transactions_file with
  | (es, Ok _) => ({| embedding_service := es; is_ready := true |}, true)
  | (es, Raise _) => ({| embedding_service := es; is_ready := false |}, false)
  end.

(** The filters of one loop iteration: [true] when a [continue] is
    taken. *)
Definition skipped (uid cat : option string) (min_amount max_amount : option Q)
    (result : Hit) : bool :=
  if truthy_opt uid && negb (string_opt_eqb (user_id (txn result)) uid) then true
  else if truthy_opt cat && negb (string_opt_eqb (category (txn result)) cat) then true
  else
    let amt := get (amount (txn result)) 0%Q in
    if match min_amount with Some lo => Qlt_bool amt lo | None => false end then true
    else match max_amount with Some hi => Qlt_bool hi amt | None => false end.

Fixpoint filter_loop (top_k : Z) (uid cat : option string)
    (min_amount max_amount : option Q)
    (results filtered_results : list Hit) : list Hit :=
  match results with
  | [] => filtered_results
  | result :: rest =>
      if skipped uid cat min_amount max_amount result then
        filter_loop top_k uid cat min_amount max_amount rest filtered_results
      else
        let filtered_results' := filtered_results ++ [result] in
        if (Z.of_nat (List.length filtered_results') >=? top_k)%Z
        then filtered_results'
        else filter_loop top_k uid cat min_amount max_amount rest filtered_results'
  end.

Definition search (self : VectorSearchService) (query : string) (top_k : Z)
    (uid cat : option string) (min_amount max_amount : option Q)
  : Result (list Hit) :=
  if negb (is_ready self) then
    Raise (RuntimeError "Search service not initialized. Call initialize() first.")
  else
    results <- embedding_search (embedding_service self) query (top_k * 2) ;;
    Ok (filter_loop top_k uid cat min_amount max_amount results []).

End Services.


(* ===================================================================== *)
(** ** TransactionSummarizer *)
(* ===================================================================== *)

(** An insertion-ordered dict with string keys, as an association list in
    insertion order.  [update default f key d] is [d[key] = f(d[key])] on a
    [defaultdict] whose factory returns [default]. *)
Fixpoint update {V : Type} (default : V) (f : V -> V) (key : string)
    (d : list (string * V)) : list (string * V) :=
  match d with
  | [] => [(key, f default)]
  | (k, v) :: d' =>
      if String.eqb k key then (k, f v) :: d'
      else (k, v) :: update default f key d'
  end.

Module CategoryStats.
Record t : Type := mk { count : nat; total : Q; transactions : list Transaction }.
Definition empty : t := mk 0 0 [].
End CategoryStats.

Module UserStats.
Record t : Type := mk { count : nat; debit : Q; credit : Q }.
Definition empty : t := mk 0 0 0.
End UserStats.

Module MonthlyStats.
Record t : Type := mk { debit : Q; credit : Q; count : nat }.
Definition empty : t := mk 0 0 0.
End MonthlyStats.

(** The accumulators of the loop over the transactions. *)
Record Rollup : Type := mkRollup {
  category_stats : list (string * CategoryStats.t);
  user_stats : list (string * UserStats.t);
  payment_method_stats : list (string * nat);
  monthly_stats : list (string * MonthlyStats.t);
  total_debit : Q;
  total_credit : Q
}.

Module Overview.
Record t : Type := mk {
  total_transactions : nat;
  total_debit : Q;
  total_credit : Q;
  net_balance : Q;
  average_transaction : Q
}.
End Overview.

Module CategorySummary.
Record t : Type := mk { count : nat; total_amount : Q; average_amount : Q }.
End CategorySummary.

Module TopCategory.
Record t : Type := mk { category : string; total_amount : Q; transaction_count : nat }.
End TopCategory.

Module UserSummary.
Record t : Type := mk {
  transaction_count : nat;
  total_debit : Q;
  total_credit : Q;
  net_balance : Q
}.
End UserSummary.

Module Insights.
Record t : Type := mk {
  top_spending_category : string;
  top_spending_amount : Q;
  savings_rate : Q
}.
End Insights.

(** The returned dict: a key that is absent is [None]. *)
Record Summary : Type := mkSummary {
  message : option string;
  overview : option Overview.t;
  by_category : option (list (string * CategorySummary.t));
  top_categories : option (list TopCategory.t);
  by_user : option (list (string * UserSummary.t));
  by_payment_method : option (list (string * nat));
  insights : option Insights.t
}.

Definition is_some {A : Type} (o : option A) : bool :=
  match o with
  | Some _ => true
  | None => false
  end.

(** [key in summary]. *)
Definition has_key (summary : Summary) (key : string) : bool :=
  if String.eqb key "message" then is_some (message summary)
  else if String.eqb key "overview" then is_some (overview summary)
  else if String.eqb key "by_category" then is_some (by_category summary)
  else if String.eqb key "top_categories" then is_some (top_categories summary)
  else if String.eqb key "by_user" then is_some (by_user summary)
  else if String.eqb key "by_payment_method" then is_some (by_payment_method summary)
  else if String.eqb key "insights" then is_some (insights summary)
  else false.

(** [summary[key]]. *)
Definition item {A : Type} (field : option A) (key : string) : Result A :=
  match field with
  | Some v => Ok v
  | None => Raise (KeyError key)
  end.

(** [sorted(items, key=total, reverse=True)]: stable, so categories of equal
    total keep their dict order. *)
Fixpoint insert_by_total (a : string * CategoryStats.t)
    (l : list (string * CategoryStats.t)) : list (string * CategoryStats.t) :=
  match l with
  | [] => [a]
  | b :: l' =>
      if Qle_bool (CategoryStats.total (snd a)) (CategoryStats.total (snd b))
      then b :: insert_by_total a l'
      else a :: b :: l'
  end.

Definition sorted_by_total (items : list (string * CategoryStats.t))
  : list (string * CategoryStats.t) :=
  fold_left (fun sorted a => insert_by_total a sorted) items [].

(** [max(candidates, key=lambda x: x[1], default=default)]: the first of the
    largest. *)
Fixpoint max_from (best : string * Q) (l : list (string * Q)) : string * Q :=
  match l with
  | [] => best
  | x :: l' => if Qlt_bool (snd best) (snd x) then max_from x l' else max_from best l'
  end.

Definition max_by_total (candidates : list (string * Q)) (default : string * Q)
  : string * Q :=
  match candidates with
  | [] => default
  | x :: l => max_from x l
  end.

Definition is_space (c : ascii) : bool :=
  let n := nat_of_ascii c in
  (n =? 32)%nat || ((9 <=? n)%nat && (n <=? 13)%nat).

Fixpoint lstrip (s : string) : string :=
  match s with
  | String c s' => if is_space c then lstrip s' else s
  | EmptyString => EmptyString
  end.

Fixpoint rstrip (s : string) : string :=
  match s with
  | EmptyString => EmptyString
  | String c s' =>
      match rstrip s' with
      | EmptyString => if is_space c then EmptyString else String c EmptyString
      | r => String c r
      end
  end.

Definition strip (s : string) : string := rstrip (lstrip s).

Fixpoint repeat_string (s : string) (n : nat) : string :=
  match n with
  | O => EmptyString
  | S n' => (s ++ repeat_string s n')%string
  end.

Definition nl : string := String (ascii_of_nat 10) EmptyString.

Section Summarizer.

Local Open Scope string_scope.

(** [datetime.fromisoformat(s).strftime('%Y-%m')], [None] when parsing
    raises. *)
Variable month_key : string -> option string.
(** Rounding to binary64, the format of the amounts and of every sum,
    difference, product and quotient computed from them. *)
Variable fl : Q -> Q.
(** [f'{x:,.2f}'], [str(n)] of an int and [str(x)] of a number. *)
Variable fmt_money : Q -> string.
Variable str_int : nat -> string.
Variable str_number : Q -> string.

Definition initial : Rollup :=
  {| category_stats := []; user_stats := []; payment_method_stats := [];
     monthly_stats := []; total_debit := 0; total_credit := 0 |}.

(** One iteration of the loop [for txn in transactions]. *)
Definition process (st : Rollup) (txn : Transaction) : Rollup :=
  let amount := get (amount txn) 0%Q in
  let category := get (category txn) "Unknown" in
  let user_id := get (user_id txn) "Unknown" in
  let txn_type := get (type txn) "debit" in
  let payment_method := get (payment_method txn) "Unknown" in
  let is_debit := String.eqb txn_type "debit" in
  {| category_stats :=
       update CategoryStats.empty
         (fun s => CategoryStats.mk (CategoryStats.count s + 1)
                     (float_add fl (CategoryStats.total s) amount)
                     (CategoryStats.transactions s ++ [txn]))
         category (category_stats st);
     user_stats :=
       update UserStats.empty
         (fun s =>
            if is_debit
            then UserStats.mk (UserStats.count s + 1)
                   (float_add fl (UserStats.debit s) amount) (UserStats.credit s)
            else UserStats.mk (UserStats.count s + 1) (UserStats.debit s)
                   (float_add fl (UserStats.credit s) amount))
         user_id (user_stats st);
     payment_method_stats :=
       update 0%nat (fun n => (n + 1)%nat) payment_method (payment_method_stats st);
     monthly_stats :=
       match month_key (get (timestamp txn) "") with
       | Some key =>
           update MonthlyStats.empty
             (fun s =>
                if is_debit
                then MonthlyStats.mk (float_add fl (MonthlyStats.debit s) amount)
                       (MonthlyStats.credit s) (MonthlyStats.count s + 1)
                else MonthlyStats.mk (MonthlyStats.debit s)
                       (float_add fl (MonthlyStats.credit s) amount)
                       (MonthlyStats.count s + 1))
             key (monthly_stats st)
       | None => monthly_stats st
       end;
     total_debit :=
       if is_debit then float_add fl (total_debit st) amount else total_debit st;
     total_credit :=
       if is_debit then total_credit st else float_add fl (total_credit st) amount |}.

Definition rollup (transactions : list Transaction) : Rollup :=
  fold_left process transactions initial.

Definition spending_candidates (stats : list (string * CategoryStats.t))
  : list (string * Q) :=
  map (fun cs => (fst cs, CategoryStats.total (snd cs)))
    (filter (fun cs => negb (String.eqb (fst cs) "Income")) stats).

(** [round((total_credit - total_debit) / total_credit * 100, 2) if
    total_credit > 0 else 0]. *)
Definition compute_savings_rate (total_credit total_debit : Q) : Result Q :=
  if Qlt_bool 0 total_credit then
    ratio <- float_div fl (float_sub fl total_credit total_debit) total_credit ;;
    Ok (float_round2 fl (float_mul fl ratio 100))
  else Ok 0.

(** The dict comprehension of [by_category]. *)
Fixpoint category_summaries (stats : list (string * CategoryStats.t))
  : Result (list (string * CategorySummary.t)) :=
  match stats with
  | [] => Ok []
  | (cat, s) :: rest =>
      average <-
        float_div fl (CategoryStats.total s)
          (inject_Z (Z.of_nat (CategoryStats.count s))) ;;
      entries <- category_summaries rest ;;
      Ok ((cat,
           {| CategorySummary.count := CategoryStats.count s;
              CategorySummary.total_amount := float_round2 fl (CategoryStats.total s);
              CategorySummary.average_amount := float_round2 fl average |})
          :: entries)
  end.

Definition summarize_transactions (transactions : list Transaction)
  : Result Summary :=
  match transactions with
  | [] =>
      Ok {| message := Some "No transactions to summarize"; overview := None;
            by_category := None; top_categories := None; by_user := None;
            by_payment_method := None; insights := None |}
  | _ :: _ =>
      let total_count := List.length transactions in
      let st := rollup transactions in
      let total_debit := total_debit st in
      let total_credit := total_credit st in
      let top_categories := firstn 5 (sorted_by_total (category_stats st)) in
      let top_spending_category :=
        max_by_total (spending_candidates (category_stats st)) ("None", 0) in
      average_transaction <-
        float_div fl (float_add fl total_debit total_credit)
          (inject_Z (Z.of_nat total_count)) ;;
      by_category <- category_summaries (category_stats st) ;;
      savings_rate <- compute_savings_rate total_credit total_debit ;;
      Ok {| message := None;
            overview := Some
              {| Overview.total_transactions := total_count;
                 Overview.total_debit := float_round2 fl total_debit;
                 Overview.total_credit := float_round2 fl total_credit;
                 Overview.net_balance :=
                   float_round2 fl (float_sub fl total_credit total_debit);
                 Overview.average_transaction :=
                   float_round2 fl average_transaction |};
            by_category := Some by_category;
            top_categories := Some
              (map (fun cs =>
                      {| TopCategory.category := fst cs;
                         TopCategory.total_amount :=
                           float_round2 fl (CategoryStats.total (snd cs));
                         TopCategory.transaction_count := CategoryStats.count (snd cs) |})
                 top_categories);
            by_user := Some
              (map (fun us =>
                      (fst us,
                       {| UserSummary.transaction_count := UserStats.count (snd us);
                          UserSummary.total_debit :=
                            float_round2 fl (UserStats.debit (snd us));
                          UserSummary.total_credit :=
                            float_round2 fl (UserStats.credit (snd us));
                          UserSummary.net_balance :=
                            float_round2 fl
                              (float_sub fl (UserStats.credit (snd us))
                                 (UserStats.debit (snd us))) |}))
                 (user_stats st));
            by_payment_method := Some (payment_method_stats st);
            insights := Some
              {| Insights.top_spending_category := fst top_spending_category;
                 Insights.top_spending_amount :=
                   float_round2 fl (snd top_spending_category);
                 Insights.savings_rate := savings_rate |} |}
  end.

(** The lines appended by [for i, cat in enumerate(top[:3], 1)]. *)
Fixpoint category_lines (i : nat) (cats : list TopCategory.t) : string :=
  match cats with
  | [] => EmptyString
  | cat :: rest =>
      ("  " ++ str_int i ++ ". " ++ TopCategory.category cat ++ ": ₹"
       ++ fmt_money (TopCategory.total_amount cat) ++ " ("
       ++ str_int (TopCategory.transaction_count cat) ++ " transactions)" ++ nl
       ++ category_lines (S i) rest)%string
  end.

Definition generate_text_summary (transactions : list Transaction) : Result string :=
  summary <- summarize_transactions transactions ;;
  if has_key summary "message" then item (message summary) "message"
  else
    ov <- item (overview summary) "overview" ;;
    ins <- item (insights summary) "insights" ;;
    top <- item (top_categories summary) "top_categories" ;;
    let text :=
      (nl ++ "📊 Financial Summary" ++ nl
       ++ repeat_string "=" 50 ++ nl
       ++ nl
       ++ "Overview:" ++ nl
       ++ "  • Total Transactions: " ++ str_int (Overview.total_transactions ov) ++ nl
       ++ "  • Total Spent: ₹" ++ fmt_money (Overview.total_debit ov) ++ nl
       ++ "  • Total Earned: ₹" ++ fmt_money (Overview.total_credit ov) ++ nl
       ++ "  • Net Balance: ₹" ++ fmt_money (Overview.net_balance ov) ++ nl
       ++ "  • Average Transaction: ₹" ++ fmt_money (Overview.average_transaction ov) ++ nl
       ++ nl
       ++ "Top Spending Categories:" ++ nl)%string in
    let text := (text ++ category_lines 1 (firstn 3 top))%string in
    let text :=
      (text ++ nl
       ++ "Key Insights:" ++ nl
       ++ "  • Highest spending category: " ++ Insights.top_spending_category ins
       ++ " (₹" ++ fmt_money (Insights.top_spending_amount ins) ++ ")" ++ nl
       ++ "  • Savings rate: " ++ str_number (Insights.savings_rate ins) ++ "%" ++ nl
       ++ nl)%string in
    Ok (strip text).

End Summarizer.

(* ===================================================================== *)
(** ** Vocabulary of the properties *)
(* ===================================================================== *)

Definition amount_of (t : Transaction) : Q := get (amount t) 0%Q.

Definition satisfies_filters (uid cat : option string) (min_amount max_amount : option Q)
    (r : Hit) : Prop :=
  (truthy_opt uid = true -> user_id (txn r) = uid) /\
  (truthy_opt cat = true -> category (txn r) = cat) /\
  (forall lo, min_amount = Some lo -> (lo <= amount_of (txn r))%Q) /\
  (forall hi, max_amount = Some hi -> (amount_of (txn r) <= hi)%Q).

Definition kept (uid cat : option string) (min_amount max_amount : option Q)
    (r : Hit) : bool :=
  negb (skipped uid cat min_amount max_amount r).

(** The result built for one slot of the index answer: the transaction at
    the label, counted from the end when the label is negative. *)
Definition hit_at (fl : Q -> Q) (txns : list Transaction) (t0 : Transaction)
    (p : Z * Q) : Hit :=
  {| txn := nth (Z.to_nat (fst p mod Z.of_nat (List.length txns))) txns t0;
     similarity_score := score fl (snd p);
     distance := snd p |}.

Definition category_of (t : Transaction) : string := get (category t) "Unknown"%string.

Definition seen (c : string) (l : list string) : bool := existsb (String.eqb c) l.

(** The distinct elements of [l], in order of first occurrence. *)
Definition first_seen (l : list string) : list string :=
  fold_left (fun acc c => if seen c acc then acc else acc ++ [c]) l [].

Definition user_of (t : Transaction) : string := get (user_id t) "Unknown"%string.

Definition in_category (c : string) (t : Transaction) : bool :=
  String.eqb (category_of t) c.

Definition of_user (u : string) (t : Transaction) : bool := String.eqb (user_of t) u.

(** The test [txn_type == 'debit'] of the summarizer, whose default type is
    ['debit']; what fails it is counted as a credit. *)
Definition is_debit (t : Transaction) : bool :=
  String.eqb (get (type t) "debit"%string) "debit".

Definition is_credit (t : Transaction) : bool := negb (is_debit t).

Definition every (t : Transaction) : bool := true.

(** The running total [acc += amount] over the transactions selected by
    [keep], in input order, every addition rounded by [fl]. *)
Definition float_sum (fl : Q -> Q) (keep : Transaction -> bool)
    (txns : list Transaction) : Q :=
  fold_left (fun acc t => if keep t then float_add fl acc (amount_of t) else acc)
    txns 0%Q.

(** The same total without rounding. *)
Definition exact_sum (keep : Transaction -> bool) (txns : list Transaction) : Q :=
  fold_left (fun acc t => if keep t then (acc + amount_of t)%Q else acc) txns 0%Q.

(** What rounding has changed in the running total. *)
Definition rounding_error (fl : Q -> Q) (keep : Transaction -> bool)
    (txns : list Transaction) : Q :=
  Qabs (float_sum fl keep txns - exact_sum keep txns).

(** Total of the category [c] as the loop accumulates it. *)
Definition category_total (fl : Q -> Q) (c : string) (txns : list Transaction) : Q :=
  float_sum fl (in_category c) txns.

Definition sum_nat {A : Type} (g : A -> nat) (l : list A) : nat :=
  fold_right (fun e acc => (g e + acc)%nat) 0%nat l.

Definition sum_Q {A : Type} (g : A -> Q) (l : list A) : Q :=
  fold_right (fun e acc => (g e + acc)%Q) 0%Q l.

Definition sum_total_amount (bc : list (string * CategorySummary.t)) : Q :=
  sum_Q (fun e => CategorySummary.total_amount (snd e)) bc.

(** Number of the selections [ks] that take the transaction [t]. *)
Definition hits (ks : list (Transaction -> bool)) (t : Transaction) : nat :=
  List.length (filter (fun k => k t) ks).


Definition category_totals (st : Rollup) : list (string * Q) :=
  map (fun cs => (fst cs, CategoryStats.total (snd cs))) (category_stats st).

(** A two-decimal amount in hundredths: [round(x, 2)] is the float nearest
    to [hundredths x / 100]. *)
Definition hundredths (x : Q) : Z := round_half_even (x * 100).

(** The values [g e] of a list in hundredths, each rounded. *)
Definition cents_of {A : Type} (g : A -> Q) (l : list A) : Z :=
  fold_right (fun e acc => (hundredths (g e) + acc)%Z) 0%Z l.

(** One entry of [by_category], of [top_categories] and of [by_user]. *)
Definition summary_of (fl : Q -> Q) (cs : string * CategoryStats.t)
  : string * CategorySummary.t :=
  (fst cs,
   {| CategorySummary.count := CategoryStats.count (snd cs);
      CategorySummary.total_amount := float_round2 fl (CategoryStats.total (snd cs));
      CategorySummary.average_amount :=
        float_round2 fl
          (fl (CategoryStats.total (snd cs)
               / inject_Z (Z.of_nat (CategoryStats.count (snd cs))))) |}).

Definition top_entry_of (fl : Q -> Q) (cs : string * CategoryStats.t) : TopCategory.t :=
  {| TopCategory.category := fst cs;
     TopCategory.total_amount := float_round2 fl (CategoryStats.total (snd cs));
     TopCategory.transaction_count := CategoryStats.count (snd cs) |}.

Definition user_summary_of (fl : Q -> Q) (us : string * UserStats.t)
  : string * UserSummary.t :=
  (fst us,
   {| UserSummary.transaction_count := UserStats.count (snd us);
      UserSummary.total_debit := float_round2 fl (UserStats.debit (snd us));
      UserSummary.total_credit := float_round2 fl (UserStats.credit (snd us));
      UserSummary.net_balance :=
        float_round2 fl
          (float_sub fl (UserStats.credit (snd us)) (UserStats.debit (snd us))) |}).

(** The savings rate as the code computes it from the two grand totals:
    the difference, the quotient and the product each rounded by [fl], then
    [round(., 2)]. *)
Definition savings_ratio (fl : Q -> Q) (credit debit : Q) : Q :=
  float_mul fl (fl (float_sub fl credit debit / credit)) 100.

Definition savings_rate_of (fl : Q -> Q) (credit debit : Q) : Q :=
  if Qlt_bool 0 credit then float_round2 fl (savings_ratio fl credit debit) else 0%Q.

(** *** Accuracy of the rounding

    [error_bounded fl eps eta]: a rounding with relative error [eps] and
    absolute error [eta]; for binary64 [eps = 2^-53] and [eta = 2^-1075]. *)
Definition error_bounded (fl : Q -> Q) (eps eta : Q) : Prop :=
  (0 <= eps)%Q /\ (0 <= eta)%Q /\
  forall x, (Qabs (fl x - x) <= eps * Qabs x + eta)%Q.

Definition monotone (fl : Q -> Q) : Prop := forall x y, (x <= y)%Q -> (fl x <= fl y)%Q.


(** One addition of the amount [a] to running totals: the sum [A] of the
    absolute amounts so far, and a bound [E] on the rounding error the
    running totals can have gathered, all totals together. *)
Definition drift_step (eps eta : Q) (s : Q * Q) (a : Q) : Q * Q :=
  let A := (fst s + Qabs a)%Q in
  (A, ((1 + eps) * snd s + (eps * A + eta))%Q).

Definition drift_state (eps eta : Q) (amounts : list Q) : Q * Q :=
  fold_left (drift_step eps eta) amounts (0%Q, 0%Q).

Definition abs_total (eps eta : Q) (amounts : list Q) : Q :=
  fst (drift_state eps eta amounts).

Definition drift (eps eta : Q) (amounts : list Q) : Q :=
  snd (drift_state eps eta amounts).

(** *** Sample data of the closed examples *)

Section Samples.

Local Open Scope string_scope.

(** Sample data used by the closed examples. *)
Definition sample_txn (desc cat ty pay : string) (amt : Q) : Transaction :=
  {| transaction_id := Some "TXN000001"; user_id := Some "USER001";
     date := Some "2024-01-15"; timestamp := Some "2024-01-15T10:30:00";
     description := Some desc; merchant := None; category := Some cat;
     subcategory := None; amount := Some amt; currency := Some "INR";
     type := Some ty; payment_method := Some pay; status := Some "completed";
     location := None; notes := Some EmptyString |}.

(** A toy encoder: the query ["q"] lies at distance [2^-60] from every other
    text. *)
Definition toy_encode (s : string) : Vector :=
  if String.eqb s "q" then [1 # 2 ^ 30]%Q else [0%Q].

Definition toy_str (x : Q) : string := "250.0".

Definition lunch : Transaction := sample_txn "Lunch" "Food" "debit" "UPI" 250.
Definition flight : Transaction := sample_txn "Flight" "Travel" "debit" "Credit Card" 9000.
Definition salary : Transaction := sample_txn "Salary" "Income" "credit" "Net Banking" 50000.

Definition one_indexed : EmbeddingService :=
  build_index toy_str toy_encode new_embedding_service [lunch].

Definition two_indexed : EmbeddingService :=
  build_index toy_str toy_encode new_embedding_service [lunch; flight].

Definition two_ready : VectorSearchService :=
  {| embedding_service := two_indexed; is_ready := true |}.

Definition toy_month (s : string) : option string := Some (substring 0 7 s).

(** The three transactions of the worked scenario: two Food debits and one
    Income credit. *)
Definition three_txns : list Transaction :=
  [ sample_txn "Groceries" "Food" "debit" "UPI" 100;
    sample_txn "Dinner" "Food" "debit" "UPI" 200;
    sample_txn "Salary" "Income" "credit" "Net Banking" 1000 ].

(** A debit of [2^53] followed by two debits of 1: binary64 has no number
    between [2^53] and [2^53 + 2]. *)
Definition large_then_small : list Transaction :=
  [ sample_txn "Press" "Equipment" "debit" "Net Banking" (inject_Z (2 ^ 53));
    sample_txn "Toll" "Travel" "debit" "UPI" 1;
    sample_txn "Toll" "Travel" "debit" "UPI" 1 ].


(** The floats [0.6] in one category, [0.5] and [0.1] in another. *)
Definition tied_categories : list Transaction :=
  [ sample_txn "Taxi" "Travel" "debit" "UPI" (binary64 (3 # 5));
    sample_txn "Tea" "Food" "debit" "UPI" (1 # 2);
    sample_txn "Gum" "Food" "debit" "UPI" (binary64 (1 # 10)) ].

End Samples.

(* ===================================================================== *)
(** ** The remaining operations of the services *)
(* ===================================================================== *)

(** *** Builtins *)

(** Stable insertion sort: [before b a] tells that [b], already placed,
    stays in front of the later element [a]. *)
Fixpoint insert_with {A : Type} (before : A -> A -> bool) (a : A) (l : list A)
  : list A :=
  match l with
  | [] => [a]
  | b :: l' => if before b a then b :: insert_with before a l' else a :: b :: l'
  end.

Definition sort_with {A : Type} (before : A -> A -> bool) (l : list A) : list A :=
  fold_left (fun sorted a => insert_with before a sorted) l [].

(** [sorted(xs)] on strings. *)
Definition sorted_strings (l : list string) : list string :=
  sort_with String.leb l.

(** An index of a slice brought into [0 .. n]. *)
Definition clamp (n i : Z) : Z :=
  if (i <? 0)%Z then Z.max 0 (n + i) else Z.min i n.

(** [l[start:stop]], [None] for a bound that is left out. *)
Definition slice {A : Type} (l : list A) (start stop : option Z) : list A :=
  let n := Z.of_nat (List.length l) in
  let lo := match start with Some i => clamp n i | None => 0%Z end in
  let hi := match stop with Some j => clamp n j | None => n end in
  firstn (Z.to_nat (hi - lo)) (skipn (Z.to_nat lo) l).

(** [str(e)] of an exception. *)
Definition str_of_error (e : PyError) : string :=
  match e with
  | ValueError msg => msg
  | RuntimeError msg => msg
  | FileNotFoundError msg => msg
  | AssertionError => EmptyString
  | IndexError => "list index out of range"
  | KeyError key => ("'" ++ key ++ "'")%string
  | ZeroDivisionError msg => msg
  end.

(** *** VectorSearchService, continued *)

Module Stats.
Record t : Type := mk {
  total_transactions : nat;
  total_users : nat;
  users : list string;
  categories : list (string * nat);
  total_amount : Q;
  total_debit : Q;
  total_credit : Q;
  net_balance : Q
}.
End Stats.

(** The dict returned by [get_transaction_stats]: the statistics, or the
    single key ['error']. *)
Inductive StatsDict : Type :=
| StatsError (error : string)
| StatsReport (stats : Stats.t).

(** The accumulators of the loop of [get_transaction_stats]. *)
Record StatsLoop : Type := mkStatsLoop {
  loop_categories : list (string * nat);
  loop_total_amount : Q;
  debit_amount : Q;
  credit_amount : Q
}.

Section MoreServices.

Local Open Scope string_scope.

(** Rounding to binary64, as in the summarizer. *)
Variable fl : Q -> Q.

(** The generator [t['user_id'] for t in transactions]: a missing key
    raises. *)
Fixpoint user_ids (txns : list Transaction) : Result (list string) :=
  match txns with
  | [] => Ok []
  | t :: rest =>
      match user_id t with
      | None => Raise (KeyError "user_id")
      | Some u => us <- user_ids rest ;; Ok (u :: us)
      end
  end.

Definition stats_step (st : StatsLoop) (t : Transaction) : StatsLoop :=
  let cat := get (category t) "Unknown" in
  let amount := get (amount t) 0%Q in
  {| loop_categories := update 0%nat (fun n => (n + 1)%nat) cat (loop_categories st);
     loop_total_amount := float_add fl (loop_total_amount st) amount;
     debit_amount :=
       if string_opt_eqb (type t) (Some "debit")
       then float_add fl (debit_amount st) amount
       else debit_amount st;
     credit_amount :=
       if string_opt_eqb (type t) (Some "debit") then credit_amount st
       else if string_opt_eqb (type t) (Some "credit")
            then float_add fl (credit_amount st) amount
       else credit_amount st |}.

Definition stats_initial : StatsLoop :=
  {| loop_categories := []; loop_total_amount := 0; debit_amount := 0;
     credit_amount := 0 |}.

(** [get_transaction_stats].  The set of users is kept as the list of its
    elements without repetition; only its size and its sorted list are
    used. *)
Definition get_transaction_stats (self : VectorSearchService) : Result StatsDict :=
  if negb (is_ready self) then Ok (StatsError "Service not initialized")
  else
    let transactions := transactions (embedding_service self) in
    let total := List.length transactions in
    ids <- user_ids transactions ;;
    let users := first_seen ids in
    let st := fold_left stats_step transactions stats_initial in
    Ok (StatsReport
          {| Stats.total_transactions := total;
             Stats.total_users := List.length users;
             Stats.users := sorted_strings users;
             Stats.categories := loop_categories st;
             Stats.total_amount := float_round2 fl (loop_total_amount st);
             Stats.total_debit := float_round2 fl (debit_amount st);
             Stats.total_credit := float_round2 fl (credit_amount st);
             Stats.net_balance :=
               float_round2 fl (float_sub fl (credit_amount st) (debit_amount st)) |}).

(** The sort key [x.get('timestamp', '')]. *)
Definition timestamp_key (x : Transaction) : string := get (timestamp x) "".

(** [txns.sort(key=..., reverse=True)]: newest first, transactions of equal
    timestamp in their former order. *)
Definition newest_first (txns : list Transaction) : list Transaction :=
  sort_with (fun b a => String.leb (timestamp_key a) (timestamp_key b)) txns.

Definition get_user_transactions (self : VectorSearchService) (uid : string)
    (limit : Z) : Result (list Transaction) :=
  if negb (is_ready self) then Raise (RuntimeError "Search service not initialized")
  else
    let user_txns :=
      filter (fun t => string_opt_eqb (user_id t) (Some uid))
        (transactions (embedding_service self)) in
    let user_txns := newest_first user_txns in
    Ok (slice user_txns None (Some limit)).

Definition get_category_transactions (self : VectorSearchService) (cat : string)
    (limit : Z) : Result (list Transaction) :=
  if negb (is_ready self) then Raise (RuntimeError "Search service not initialized")
  else
    let cat_txns :=
      filter (fun t => string_opt_eqb (category t) (Some cat))
        (transactions (embedding_service self)) in
    let cat_txns := newest_first cat_txns in
    Ok (slice cat_txns None (Some limit)).

End MoreServices.

(** Number of transactions of category [c]. *)
Definition category_count (c : string) (txns : list Transaction) : nat :=
  List.length (filter (fun t => String.eqb (category_of t) c) txns).

Definition sum_counts (d : list (string * nat)) : nat :=
  fold_right (fun e acc => (snd e + acc)%nat) 0%nat d.

(** The type of the transaction is one of the two the statistics count. *)
Definition debit_or_credit (t : Transaction) : Prop :=
  type t = Some "debit"%string \/ type t = Some "credit"%string.

(** *** Vocabulary of the report properties *)

(** The entry of [top_categories] that an entry of [by_category] would
    make. *)
Definition top_entry_of_summary (e : string * CategorySummary.t) : TopCategory.t :=
  {| TopCategory.category := fst e;
     TopCategory.total_amount := CategorySummary.total_amount (snd e);
     TopCategory.transaction_count := CategorySummary.count (snd e) |}.

(** The order of [sorted(..., key=total, reverse=True)]: [b] stays in front
    of the later [a] when its total is not smaller. *)
Definition larger_total (b a : string * CategoryStats.t) : bool :=
  Qle_bool (CategoryStats.total (snd a)) (CategoryStats.total (snd b)).

(* ===================================================================== *)
(** ** LLMSummarizer *)
(* ===================================================================== *)

Module LLMSummarizer.

Record t : Type := mk { api_key : string }.

Section Methods.

Local Open Scope string_scope.

(** [str(x)] of a number and of an int inside an f-string. *)
Variable str_number : Q -> string.
Variable str_int : nat -> string.
(** [self.model.generate_content(prompt).text]: the text answered by the
    remote model, or the exception of the call. *)
Variable generate_content : string -> Result string.

(** [__init__]: [api_key or os.getenv("GOOGLE_API_KEY")], refused when
    falsy. *)
Definition init (api_key env_key : option string) : Result t :=
  let key := if truthy_opt api_key then api_key else env_key in
  match key with
  | Some (String _ _ as k) => Ok {| api_key := k |}
  | _ =>
      Raise (ValueError
               "Google API key not found. Set GOOGLE_API_KEY environment variable.")
  end.

(** One line of [txn_lines]. *)
Definition txn_line (t : Transaction) : string :=
  "- " ++ get (description t) "Unknown" ++ " | "
  ++ "Category: " ++ get (category t) "N/A" ++ " | "
  ++ "Amount: ‚Çπ"
  ++ match amount t with Some a => str_number a | None => "0" end ++ " | "
  ++ "Type: " ++ get (type t) "N/A" ++ " | "
  ++ "Date: " ++ get (date t) "N/A".

Definition summary_prompt (txns_to_summarize : list Transaction)
    (focus : option string) : string :=
  let txn_text := String.concat nl (map txn_line txns_to_summarize) in
  let focus_instruction :=
    match focus with
    | Some (String _ _ as f) => " Focus particularly on " ++ f ++ "."
    | _ => ""
    end in
  "You are a financial advisor analyzing transaction data. " ++ nl
  ++ "Provide a clear, concise summary of the following financial transactions."
  ++ focus_instruction ++ nl
  ++ nl
  ++ "Include:" ++ nl
  ++ "1. Overall spending patterns" ++ nl
  ++ "2. Top spending categories" ++ nl
  ++ "3. Notable transactions or trends" ++ nl
  ++ "4. Financial health insights" ++ nl
  ++ "5. Actionable recommendations" ++ nl
  ++ nl
  ++ "Transactions (" ++ str_int (List.length txns_to_summarize) ++ " shown):" ++ nl
  ++ txn_text ++ nl
  ++ nl
  ++ "Provide a professional, helpful summary in 200-300 words.".

Definition summarize_transactions (self : t) (transactions : list Transaction)
    (max_transactions : Z) (focus : option string) : string :=
  match transactions with
  | [] => "No transactions found to summarize."
  | _ :: _ =>
      let txns_to_summarize := slice transactions None (Some max_transactions) in
      let prompt := summary_prompt txns_to_summarize focus in
      match generate_content prompt with
      | Ok text => strip text
      | Raise e => "Error generating summary: " ++ str_of_error e
      end
  end.

Definition get_spending_insights (self : t) (transactions : list Transaction)
  : string :=
  summarize_transactions self transactions 50
    (Some "spending patterns and budget optimization").

Definition get_category_analysis (self : t) (transactions : list Transaction)
    (cat : string) : string :=
  let category_txns :=
    filter (fun t => string_opt_eqb (category t) (Some cat)) transactions in
  match category_txns with
  | [] => "No transactions found in category: " ++ cat
  | _ :: _ =>
      summarize_transactions self category_txns 50
        (Some (cat ++ " expenses and optimization opportunities"))
  end.

(** [str(x)] of a value read with [t.get(key)]: ['None'] for a missing
    key. *)
Definition str_or_none {A : Type} (str : A -> string) (field : option A) : string :=
  match field with
  | Some v => str v
  | None => "None"
  end.

(** One line of [txn_summary]. *)
Definition context_line (t : Transaction) : string :=
  str_or_none (fun s => s) (description t) ++ " - ‚Çπ"
  ++ str_or_none str_number (amount t)
  ++ " (" ++ str_or_none (fun s => s) (category t) ++ ") on "
  ++ str_or_none (fun s => s) (date t).

Definition question_prompt (transactions : list Transaction) (question : string)
  : string :=
  let context :=
    String.concat nl (map context_line (slice transactions None (Some 30%Z))) in
  "You are a financial advisor with access to transaction data." ++ nl
  ++ nl
  ++ "Transaction Data (sample):" ++ nl
  ++ context ++ nl
  ++ nl
  ++ "User Question: " ++ question ++ nl
  ++ nl
  ++ "Provide a clear, accurate answer based on the transaction data. If the data doesn't contain enough information to answer fully, say so and provide what insights you can.".

Definition answer_question (self : t) (transactions : list Transaction)
    (question : string) : string :=
  match transactions with
  | [] => "No transaction data available to answer the question."
  | _ :: _ =>
      match generate_content (question_prompt transactions question) with
      | Ok text => strip text
      | Raise e => "Error answering question: " ++ str_of_error e
      end
  end.

End Methods.

End LLMSummarizer.

(* ===================================================================== *)
(** ** The routes of the API *)
(* ===================================================================== *)

(** What a route hands to the framework: the returned body, or the
    [HTTPException] it raises. *)
Inductive Response (A : Type) : Type :=
| Success (body : A)
| HTTPException (status_code : Z) (detail : string).

Arguments Success {A} body.
Arguments HTTPException {A} status_code detail.

(** [try: ... except Exception as e: raise HTTPException(status_code=500,
    detail=str(e))] around a computation. *)
Definition or_500 {A : Type} (r : Result A) : Response A :=
  match r with
  | Ok body => Success body
  | Raise e => HTTPException 500 (str_of_error e)
  end.

(** The stateless [TransactionSummarizer] object. *)
Inductive TransactionSummarizer : Type := mkTransactionSummarizer.

Module TransactionsBody.
Record t : Type := mk {
  total : nat;
  count : nat;
  offset : Z;
  limit : Z;
  has_more : bool;
  transactions : list Transaction
}.
End TransactionsBody.

Module SearchBody.
Record t : Type := mk { query : string; total_results : nat; results : list Hit }.
End SearchBody.

Module SummaryBody.
Record t : Type := mk {
  summary : Summary;
  text_summary : string;
  transaction_count : nat
}.
End SummaryBody.

Module AISummaryBody.
Record t : Type := mk { summary : string; transaction_count : nat; model : string }.
End AISummaryBody.

Module AnswerBody.
Record t : Type := mk { question : string; answer : string; context_size : nat }.
End AnswerBody.

Module Health.
Record t : Type := mk {
  status : string;
  message : string;
  version : string;
  search : bool;
  llm : bool
}.
End Health.

Section Routes.

Local Open Scope string_scope.

Variable encode : string -> Vector.
(** Rounding to binary32, the format of the distances, and to binary64, the
    format of the amounts. *)
Variable fl : Q -> Q.
Variable fl64 : Q -> Q.
Variable month_key : string -> option string.
Variable fmt_money : Q -> string.
Variable str_int : nat -> string.
Variable str_number : Q -> string.
Variable generate_content : string -> Result string.

(** *** routes/transactions.py

    The module global [search_service] is the first argument of each
    route; the bounds of [Query(...)] are checked by the framework before
    the body runs. *)

Definition get_transactions (search_service : option VectorSearchService)
    (user_id category : option string) (limit offset : Z)
  : Response TransactionsBody.t :=
  match search_service with
  | None => HTTPException 503 "Service not ready"
  | Some svc =>
      if negb (is_ready svc) then HTTPException 503 "Service not ready"
      else
        or_500
          (all_transactions <-
             match user_id with
             | Some (String _ _ as u) => get_user_transactions svc u 1000
             | _ =>
                 match category with
                 | Some (String _ _ as c) => get_category_transactions svc c 1000
                 | _ => Ok (transactions (embedding_service svc))
                 end
             end ;;
           let total_count := List.length all_transactions in
           let paginated_transactions :=
             slice all_transactions (Some offset) (Some (offset + limit)%Z) in
           Ok {| TransactionsBody.total := total_count;
                 TransactionsBody.count := List.length paginated_transactions;
                 TransactionsBody.offset := offset;
                 TransactionsBody.limit := limit;
                 TransactionsBody.has_more :=
                   (offset + limit <? Z.of_nat total_count)%Z;
                 TransactionsBody.transactions := paginated_transactions |})
  end.

Definition get_categories (search_service : option VectorSearchService)
  : Response (list string) :=
  match search_service with
  | None => HTTPException 503 "Service not ready"
  | Some svc =>
      if negb (is_ready svc) then HTTPException 503 "Service not ready"
      else
        let transactions := transactions (embedding_service svc) in
        or_500
          (Ok (sorted_strings
                 (first_seen (map (fun t => get (category t) "Unknown") transactions))))
  end.

Definition get_users (search_service : option VectorSearchService)
  : Response (list string) :=
  match search_service with
  | None => HTTPException 503 "Service not ready"
  | Some svc =>
      if negb (is_ready svc) then HTTPException 503 "Service not ready"
      else
        let transactions := transactions (embedding_service svc) in
        or_500
          (Ok (sorted_strings
                 (first_seen (map (fun t => get (user_id t) "Unknown") transactions))))
  end.

Definition get_statistics (search_service : option VectorSearchService)
  : Response StatsDict :=
  match search_service with
  | None => HTTPException 503 "Service not ready"
  | Some svc =>
      if negb (is_ready svc) then HTTPException 503 "Service not ready"
      else or_500 (get_transaction_stats fl64 svc)
  end.

(** *** routes/search.py *)

Definition search_transactions (search_service : option VectorSearchService)
    (query : string) (top_k : Z) (user_id category : option string)
    (min_amount max_amount : option Q) : Response SearchBody.t :=
  let detail :=
    "Search service not ready. Please run setup.py to initialize the system." in
  match search_service with
  | None => HTTPException 503 detail
  | Some svc =>
      if negb (is_ready svc) then HTTPException 503 detail
      else
        or_500
          (results <-
             search encode fl svc query top_k user_id category min_amount
               max_amount ;;
           Ok {| SearchBody.query := query;
                 SearchBody.total_results := List.length results;
                 SearchBody.results := results |})
  end.

(** *** routes/summary.py *)

(** The transactions a summary request selects. *)
Definition requested (svc : VectorSearchService) (user_id category : option string)
    (limit : Z) : Result (list Transaction) :=
  match user_id with
  | Some (String _ _ as u) => get_user_transactions svc u limit
  | _ =>
      match category with
      | Some (String _ _ as c) => get_category_transactions svc c limit
      | _ => Ok (slice (transactions (embedding_service svc)) None (Some limit))
      end
  end.

Definition get_summary (search_service : option VectorSearchService)
    (rule_summarizer : option TransactionSummarizer)
    (limit : Z) (user_id category : option string) : Response SummaryBody.t :=
  match search_service with
  | None => HTTPException 503 "Service not ready"
  | Some svc =>
      if negb (is_ready svc) then HTTPException 503 "Service not ready"
      else
        match requested svc user_id category limit with
        | Raise e => HTTPException 500 (str_of_error e)
        | Ok transactions =>
            match rule_summarizer with
            | None =>
                HTTPException 500
                  "'NoneType' object has no attribute 'summarize_transactions'"
            | Some _ =>
                or_500
                  (summary <- summarize_transactions month_key fl64 transactions ;;
                   text_summary <-
                     generate_text_summary month_key fl64 fmt_money str_int str_number
                       transactions ;;
                   Ok {| SummaryBody.summary := summary;
                         SummaryBody.text_summary := text_summary;
                         SummaryBody.transaction_count :=
                           List.length transactions |})
            end
        end
  end.

Definition ai_summarize (search_service : option VectorSearchService)
    (llm_summarizer : option LLMSummarizer.t)
    (limit : Z) (user_id category : option string) : Response AISummaryBody.t :=
  match llm_summarizer with
  | None =>
      HTTPException 503 "LLM service not available. Please set GOOGLE_API_KEY."
  | Some llm =>
      match search_service with
      | None => HTTPException 503 "Service not ready"
      | Some svc =>
          if negb (is_ready svc) then HTTPException 503 "Service not ready"
          else
            or_500
              (transactions <- requested svc user_id category limit ;;
               let summary :=
                 LLMSummarizer.summarize_transactions str_number str_int
                   generate_content llm transactions 50 None in
               Ok {| AISummaryBody.summary := summary;
                     AISummaryBody.transaction_count := List.length transactions;
                     AISummaryBody.model := "models/gemini-1.5-flash" |})
      end
  end.

Definition ask_question (search_service : option VectorSearchService)
    (llm_summarizer : option LLMSummarizer.t)
    (question : string) (context_limit : Z) : Response AnswerBody.t :=
  match llm_summarizer with
  | None =>
      HTTPException 503 "LLM service not available. Please set GOOGLE_API_KEY."
  | Some llm =>
      match search_service with
      | None => HTTPException 503 "Service not ready"
      | Some svc =>
          if negb (is_ready svc) then HTTPException 503 "Service not ready"
          else
            let transactions :=
              slice (transactions (embedding_service svc)) None (Some context_limit) in
            let answer :=
              LLMSummarizer.answer_question str_number generate_content llm
                transactions question in
            or_500
              (Ok {| AnswerBody.question := question;
                     AnswerBody.answer := answer;
                     AnswerBody.context_size := List.length transactions |})
      end
  end.

End Routes.

(** *** app.py *)

(** The module globals of the application and of its three route
    modules. *)
Record App : Type := mkApp {
  app_search_service : VectorSearchService;
  app_rule_summarizer : TransactionSummarizer;
  app_llm_summarizer : option LLMSummarizer.t;
  search_route : option VectorSearchService;
  transactions_route : option VectorSearchService;
  summary_route :
    option VectorSearchService * option TransactionSummarizer
    * option LLMSummarizer.t
}.

(** The globals once the module is imported: the key of the environment
    decides whether the LLM summarizer exists. *)
Definition new_app (env_key : option string) : App :=
  {| app_search_service := new_search_service;
     app_rule_summarizer := mkTransactionSummarizer;
     app_llm_summarizer :=
       match LLMSummarizer.init None env_key with
       | Ok llm => Some llm
       | Raise _ => None
       end;
     search_route := None;
     transactions_route := None;
     summary_route := (None, None, None) |}.

(** [startup_event]: [initialize] reports a failure by its result, so the
    services are injected in either case. *)
Definition startup_event (app : App) (index_file : option IndexFlatL2)
    (transactions_file : option (list Transaction)) : App :=
  let (svc, _) := initialize (app_search_service app) index_file transactions_file in
  {| app_search_service := svc;
     app_rule_summarizer := app_rule_summarizer app;
     app_llm_summarizer := app_llm_summarizer app;
     search_route := Some svc;
     transactions_route := Some svc;
     summary_route :=
       (Some svc, Some (app_rule_summarizer app), app_llm_summarizer app) |}.

Definition root (app : App) : Health.t :=
  {| Health.status := "healthy";
     Health.message := "AI Financial Data Assistant API is running";
     Health.version := "1.0.0";
     Health.search := is_ready (app_search_service app);
     Health.llm := is_some (app_llm_summarizer app) |}.

(* ===================================================================== *)
(** ** FinancialDataGenerator *)
(* ===================================================================== *)

(** [str(n)] of a natural number. *)
Definition decimal (n : N) : string := NilEmpty.string_of_uint (N.to_uint n).

(** [s.zfill(width)] on a string of digits. *)
Definition zfill (width : nat) (s : string) : string :=
  (repeat_string "0" (width - String.length s) ++ s)%string.

(** [f'{z:0{width}d}']: the sign counts in the width. *)
Definition format_0d (width : nat) (z : Z) : string :=
  if (z <? 0)%Z then ("-" ++ zfill (width - 1) (decimal (Z.abs_N z)))%string
  else zfill width (decimal (Z.to_N z)).

(** [d[key]] on a dict kept as an association list. *)
Fixpoint lookup {V : Type} (key : string) (d : list (string * V)) : Result V :=
  match d with
  | [] => Raise (KeyError key)
  | (k, v) :: d' => if String.eqb k key then Ok v else lookup key d'
  end.

(** The sort key [x['timestamp']] of every element, evaluated before the
    list is reordered. *)
Fixpoint timestamps (txns : list Transaction) : Result (list string) :=
  match txns with
  | [] => Ok []
  | t :: rest =>
      match timestamp t with
      | None => Raise (KeyError "timestamp")
      | Some ts => tss <- timestamps rest ;; Ok (ts :: tss)
      end
  end.

Module FinancialDataGenerator.

Record t : Type := mk {
  num_users : Z;
  transactions_per_user_range : Z * Z
}.

Section Methods.

Local Open Scope string_scope.

(** The state behind [random], [Faker] and the clock, and the draws made
    from it: [random.random()], [random._randbelow(n)], [fake.company()],
    [fake.city()], [fake.sentence()], and [datetime.now() - timedelta(days)]
    as its [strftime('%Y-%m-%d')] and its [isoformat()]. *)
Variable World : Type.
Variable random : World -> Q * World.
Variable randbelow : Z -> World -> Z * World.
Variable company : World -> string * World.
Variable city : World -> string * World.
Variable sentence : World -> string * World.
Variable days_before_now : Z -> World -> (string * string) * World.
(** The message of the [ValueError] of [randrange] on an empty range. *)
Variable empty_range : Z -> Z -> string.

(** A computation that draws from the world and may raise. *)
Definition Gen (A : Type) : Type := World -> Result (A * World).

Definition ret {A : Type} (a : A) : Gen A := fun w => Ok (a, w).

Definition gbind {A B : Type} (m : Gen A) (k : A -> Gen B) : Gen B :=
  fun w =>
    match m w with
    | Ok (a, w') => k a w'
    | Raise e => Raise e
    end.

Definition draw {A : Type} (f : World -> A * World) : Gen A := fun w => Ok (f w).

Definition lift {A : Type} (r : Result A) : Gen A :=
  fun w =>
    match r with
    | Ok a => Ok (a, w)
    | Raise e => Raise e
    end.

Notation "x <~ m ;; k" := (gbind m (fun x => k))
  (at level 61, m at next level, right associativity).

(** [random.choice(seq)]: [seq[self._randbelow(len(seq))]]. *)
Definition choice {A : Type} (seq : list A) : Gen A :=
  i <~ draw (randbelow (Z.of_nat (List.length seq))) ;;
  lift (getitem seq i).

(** [random.uniform(a, b)]: [a + (b - a) * self.random()]. *)
Definition uniform (a b : Q) : Gen Q :=
  r <~ draw random ;;
  ret (a + (b - a) * r)%Q.

(** [random.randint(a, b)]: [randrange(a, b + 1)]. *)
Definition randint (a b : Z) : Gen Z :=
  let width := (b + 1 - a)%Z in
  if (0 <? width)%Z then
    i <~ draw (randbelow width) ;;
    ret (a + i)%Z
  else fun _ => Raise (ValueError (empty_range a b)).

Definition categories : list (string * list string) :=
  [ ("Food & Dining",
     [ "Restaurant"; "Cafe"; "Fast Food"; "Grocery Store"; "Food Delivery";
       "Coffee Shop"; "Bakery"; "Bar"; "Fine Dining" ]);
    ("Shopping",
     [ "Clothing Store"; "Electronics"; "Online Shopping"; "Department Store";
       "Bookstore"; "Pharmacy"; "Furniture"; "Sporting Goods" ]);
    ("Transportation",
     [ "Gas Station"; "Uber"; "Taxi"; "Public Transit"; "Parking";
       "Car Maintenance"; "Toll"; "Car Rental" ]);
    ("Entertainment",
     [ "Movie Theater"; "Concert"; "Streaming Service"; "Gaming";
       "Sports Event"; "Museum"; "Theme Park"; "Music Subscription" ]);
    ("Bills & Utilities",
     [ "Electricity Bill"; "Water Bill"; "Internet Bill"; "Phone Bill";
       "Gas Bill"; "Insurance"; "Rent"; "Mortgage" ]);
    ("Healthcare",
     [ "Doctor Visit"; "Pharmacy"; "Dental"; "Hospital"; "Lab Tests";
       "Health Insurance"; "Gym Membership"; "Wellness" ]);
    ("Travel",
     [ "Hotel"; "Flight"; "Vacation Package"; "Travel Insurance";
       "Luggage"; "Tourist Attraction"; "Resort" ]);
    ("Education",
     [ "Tuition"; "Books"; "Online Course"; "Workshop"; "Certification";
       "School Supplies"; "Training" ]);
    ("Income",
     [ "Salary"; "Freelance Payment"; "Bonus"; "Investment Return";
       "Refund"; "Gift"; "Cashback" ]) ].

Definition generate_transaction (self : t) (user_id : string) (transaction_id : Z)
  : Gen Transaction :=
  category <~ choice (map fst categories) ;;
  subcategories <~ lift (lookup category categories) ;;
  subcategory <~ choice subcategories ;;
  priced <~
    (if String.eqb category "Income" then
       x <~ uniform 1000 50000 ;; ret (round2 x, "credit")
     else if String.eqb category "Bills & Utilities" then
       x <~ uniform 500 5000 ;; ret (round2 x, "debit")
     else if String.eqb category "Travel" then
       x <~ uniform 2000 30000 ;; ret (round2 x, "debit")
     else if String.eqb category "Education" then
       x <~ uniform 1000 20000 ;; ret (round2 x, "debit")
     else
       x <~ uniform 50 5000 ;; ret (round2 x, "debit")) ;;
  let amount := fst priced in
  let transaction_type := snd priced in
  days_ago <~ randint 0 365 ;;
  transaction_date <~ draw (days_before_now days_ago) ;;
  merchant <~
    (if String.eqb category "Income" then draw company
     else c <~ draw company ;; ret (subcategory ++ " - " ++ c)) ;;
  let description := subcategory ++ " at " ++ merchant in
  payment_method <~
    choice [ "Credit Card"; "Debit Card"; "UPI"; "Net Banking"; "Cash"; "Wallet" ] ;;
  status <~ choice [ "completed"; "completed"; "completed"; "pending" ] ;;
  location <~ draw city ;;
  r <~ draw random ;;
  notes <~ (if Qlt_bool (7 # 10) r then draw sentence else ret "") ;;
  ret {| transaction_id := Some ("TXN" ++ format_0d 6 transaction_id);
         user_id := Some user_id;
         date := Some (fst transaction_date);
         timestamp := Some (snd transaction_date);
         description := Some description;
         merchant := Some merchant;
         category := Some category;
         subcategory := Some subcategory;
         amount := Some amount;
         currency := Some "INR";
         type := Some transaction_type;
         payment_method := Some payment_method;
         status := Some status;
         location := Some location;
         notes := Some notes |}.

(** The loop [for i in range(num_transactions)], [n] rounds from [i]
    on. *)
Fixpoint generate_loop (self : t) (user_id : string) (start_id : Z) (i : Z)
    (n : nat) (transactions : list Transaction) : Gen (list Transaction) :=
  match n with
  | O => ret transactions
  | S n' =>
      transaction <~ generate_transaction self user_id (start_id + i) ;;
      generate_loop self user_id start_id (i + 1) n' (transactions ++ [transaction])
  end.

Definition generate_user_transactions (self : t) (user_id : string)
    (num_transactions : Z) (start_id : Z) : Gen (list Transaction) :=
  transactions <~
    generate_loop self user_id start_id 0 (Z.to_nat num_transactions) [] ;;
  _ <~ lift (timestamps transactions) ;;
  ret (newest_first transactions).

(** The loop [for user_num in range(1, self.num_users + 1)], [n] rounds
    from [user_num] on. *)
Fixpoint users_loop (self : t) (user_num : Z) (n : nat)
    (all_transactions : list Transaction) (transaction_id_counter : Z)
  : Gen (list Transaction) :=
  match n with
  | O => ret all_transactions
  | S n' =>
      let user_id := "USER" ++ format_0d 3 user_num in
      num_transactions <~
        randint (fst (transactions_per_user_range self))
          (snd (transactions_per_user_range self)) ;;
      user_transactions <~
        generate_user_transactions self user_id num_transactions
          transaction_id_counter ;;
      users_loop self (user_num + 1) n' (all_transactions ++ user_transactions)
        (transaction_id_counter + num_transactions)
  end.

Definition generate_all_transactions (self : t) : Gen (list Transaction) :=
  users_loop self 1 (Z.to_nat (num_users self)) [] 1.

End Methods.

End FinancialDataGenerator.

(** *** Vocabulary of the generator properties *)

(** The bounds of [random.uniform] for a category. *)
Definition price_range (category : string) : Q * Q :=
  if String.eqb category "Income" then (1000, 50000)%Q
  else if String.eqb category "Bills & Utilities" then (500, 5000)%Q
  else if String.eqb category "Travel" then (2000, 30000)%Q
  else if String.eqb category "Education" then (1000, 20000)%Q
  else (50, 5000)%Q.

(** What [generate_transaction] promises for the user [uid] and the
    number [id]. *)
Definition generated_for (uid : string) (id : Z) (t : Transaction) : Prop :=
  transaction_id t = Some ("TXN" ++ format_0d 6 id)%string /\
  user_id t = Some uid /\
  timestamp t <> None /\
  exists c subs sub a,
    category t = Some c /\ In (c, subs) FinancialDataGenerator.categories /\
    subcategory t = Some sub /\ In sub subs /\
    amount t = Some a /\
    type t = Some (if String.eqb c "Income" then "credit" else "debit")%string /\
    (fst (price_range c) <= a <= snd (price_range c))%Q.

(** The numbers [k], [k + 1], ... of [n] consecutive transactions. *)
Fixpoint ids_from (k : Z) (n : nat) : list Z :=
  match n with
  | O => []
  | S n' => k :: ids_from (k + 1) n'
  end.

(** The [transaction_id] of the transaction number [k]. *)
Definition txn_id (k : Z) : option string := Some ("TXN" ++ format_0d 6 k)%string.

(** The number written in a string of digits. *)
Definition parse_decimal (s : string) : option N :=
  option_map N.of_uint (NilEmpty.uint_of_string s).

(** *** Sample data of the closed examples, continued *)

Section MoreSamples.

Local Open Scope string_scope.

(** The transaction [t] booked for [uid] at [ts]. *)
Definition stamped (uid ts : string) (t : Transaction) : Transaction :=
  {| transaction_id := transaction_id t; user_id := Some uid;
     date := Some (substring 0 10 ts); timestamp := Some ts;
     description := description t; merchant := merchant t;
     category := category t; subcategory := subcategory t; amount := amount t;
     currency := currency t; type := type t; payment_method := payment_method t;
     status := status t; location := location t; notes := notes t |}.

Definition january_lunch : Transaction := stamped "USER001" "2024-01-15T10:30:00" lunch.
Definition march_flight : Transaction := stamped "USER001" "2024-03-02T08:00:00" flight.
Definition february_salary : Transaction :=
  stamped "USER002" "2024-02-01T09:00:00" salary.

(** A transaction whose [user_id] key is missing. *)
Definition anonymous : Transaction :=
  {| transaction_id := Some "TXN000009"; user_id := None;
     date := Some "2024-01-20"; timestamp := Some "2024-01-20T12:00:00";
     description := Some "Coffee"; merchant := None; category := Some "Food";
     subcategory := None; amount := Some 80%Q; currency := Some "INR";
     type := Some "debit"; payment_method := Some "Cash";
     status := Some "completed"; location := None; notes := None |}.

Definition three_store : list Transaction :=
  [january_lunch; march_flight; february_salary].

Definition three_ready : VectorSearchService :=
  {| embedding_service := build_index toy_str toy_encode new_embedding_service three_store;
     is_ready := true |}.

Definition anonymous_ready : VectorSearchService :=
  {| embedding_service :=
       build_index toy_str toy_encode new_embedding_service [january_lunch; anonymous];
     is_ready := true |}.

Definition empty_ready : VectorSearchService :=
  {| embedding_service := {| index := Some (mkIndex []); transactions := [] |};
     is_ready := true |}.

Definition toy_int (n : nat) : string := "3".

(** A model that answers every prompt with the same padded sentence. *)
Definition toy_model (prompt : string) : Result string :=
  Ok "  Spending is moderate.  ".

Definition toy_llm : LLMSummarizer.t := {| LLMSummarizer.api_key := "key" |}.

End MoreSamples.

(** *** A sample world for the generator *)

Section SampleWorld.

Local Open Scope string_scope.

(** The world is a counter of the draws made; every draw is derived from
    it. *)
Definition toy_random (w : Z) : Q * Z := (inject_Z (w mod 4) * (1 # 4), (w + 1)%Z).
Definition toy_randbelow (n w : Z) : Z * Z := ((w mod n)%Z, (w + 1)%Z).
Definition toy_company (w : Z) : string * Z := ("Acme Ltd", (w + 1)%Z).
Definition toy_city (w : Z) : string * Z := ("Pune", (w + 1)%Z).
Definition toy_sentence (w : Z) : string * Z := ("Paid in full.", (w + 1)%Z).
Definition toy_days_before_now (days_ago w : Z) : (string * string) * Z :=
  let day := format_0d 2 (28 - days_ago mod 28) in
  (("2024-01-" ++ day, "2024-01-" ++ day ++ "T09:00:00"), w).
Definition toy_empty_range (a b : Z) : string := "empty range for randrange()".

Definition toy_generator : FinancialDataGenerator.t :=
  {| FinancialDataGenerator.num_users := 2;
     FinancialDataGenerator.transactions_per_user_range := (2, 3)%Z |}.

End SampleWorld.


(* ===================================================================== *)
(** * Properties *)
(* ===================================================================== *)

(** ** Rounding *)

Ltac hide_pow2 :=
  repeat match goal with
  | |- context [pow2 ?e] =>
      let q := fresh "q" in set (q := pow2 e) in *; clearbody q
  | H : context [pow2 ?e] |- _ =>
      let q := fresh "q" in set (q := pow2 e) in *; clearbody q
  end.
Ltac qlra := hide_pow2; lra.

Section RoundingFacts.

Local Open Scope Q_scope.

Lemma pow2_pos (e : Z) : 0 < pow2 e.
Proof. unfold pow2. apply Qpower_0_lt. reflexivity. Qed.

Lemma pow2_le (a b : Z) : (a <= b)%Z -> pow2 a <= pow2 b.
Proof. intro H. unfold pow2. apply Qpower_le_compat_l; [exact H | discriminate]. Qed.

Lemma pow2_add (a b : Z) : pow2 (a + b) == pow2 a * pow2 b.
Proof. unfold pow2. apply Qpower_plus. discriminate. Qed.

Lemma pow2_inject (k : Z) : (0 <= k)%Z -> pow2 k == inject_Z (2 ^ k).
Proof. intro H. exact (Qeq_sym _ _ (Zpower_Qpower 2 k H)). Qed.

Lemma pow2_nonzero (e : Z) : ~ pow2 e == 0.
Proof. assert (H := pow2_pos e). qlra. Qed.

Lemma pow2_div (x : Q) (a b : Z) : x / pow2 a == x / pow2 b * pow2 (b - a).
Proof.
  assert (Ha := pow2_nonzero a). assert (Hc := pow2_nonzero (b - a)).
  assert (E : pow2 b == pow2 (b - a) * pow2 a).
  { rewrite <- pow2_add. replace (b - a + a)%Z with b by ring. reflexivity. }
  rewrite E. field. auto.
Qed.

(** Rounding to an integer is monotone and fixes the integers. *)
Lemma round_half_even_bounds (q : Q) :
  (Qfloor q <= round_half_even q <= Qfloor q + 1)%Z.
Proof.
  unfold round_half_even.
  destruct (q - inject_Z (Qfloor q) ?= 1 # 2); try destruct (Z.even (Qfloor q)); lia.
Qed.

Lemma round_half_even_Z (z : Z) : round_half_even (inject_Z z) = z.
Proof.
  unfold round_half_even. rewrite Qfloor_Z.
  destruct (Qcompare_spec (inject_Z z - inject_Z z) (1 # 2)); [lra | reflexivity | lra].
Qed.

Lemma round_half_even_le (p q : Q) : p <= q -> (round_half_even p <= round_half_even q)%Z.
Proof.
  intro H.
  assert (Hf := Qfloor_resp_le _ _ H).
  assert (Bp := round_half_even_bounds p). assert (Bq := round_half_even_bounds q).
  destruct (Z.eq_dec (Qfloor p) (Qfloor q)) as [E | NE]; [| lia].
  unfold round_half_even in *. rewrite E in *.
  destruct (Qcompare_spec (p - inject_Z (Qfloor q)) (1 # 2));
    destruct (Qcompare_spec (q - inject_Z (Qfloor q)) (1 # 2));
    destruct (Z.even (Qfloor q)); try lia; lra.
Qed.

Lemma round_half_even_error (q : Q) :
  Qabs (inject_Z (round_half_even q) - q) <= 1 # 2.
Proof.
  assert (L := Qfloor_le q). assert (U := Qlt_floor q).
  rewrite inject_Z_plus in U.
  apply Qabs_Qle_condition.
  unfold round_half_even.
  destruct (Qcompare_spec (q - inject_Z (Qfloor q)) (1 # 2));
    try destruct (Z.even (Qfloor q)); try rewrite inject_Z_plus;
    change (inject_Z 1) with 1 in *; split; lra.
Qed.

Lemma round_half_even_proper (p q : Q) : p == q -> round_half_even p = round_half_even q.
Proof.
  intro E. apply Z.le_antisymm; apply round_half_even_le; rewrite E; apply Qle_refl.
Qed.

Lemma pow2_sub (a b : Z) : pow2 (a - b) * pow2 b == pow2 a.
Proof. rewrite <- pow2_add. replace (a - b + b)%Z with a by ring. reflexivity. Qed.

(** Comparing a fraction with a power of two, in integers. *)
Lemma frac_lt_pow2 (n : Z) (d : positive) (a b : Z) :
  (0 <= a)%Z -> (0 <= b)%Z -> (n * 2 ^ b < 2 ^ a * Zpos d)%Z -> n # d < pow2 (a - b).
Proof.
  intros Ha Hb H.
  assert (Pb := pow2_pos b).
  apply (Qmult_lt_r _ _ (pow2 b) Pb).
  rewrite pow2_sub, (pow2_inject Ha), (pow2_inject Hb).
  unfold Qlt, Qmult, inject_Z; simpl. nia.
Qed.

Lemma frac_ge_pow2 (n : Z) (d : positive) (a b : Z) :
  (0 <= a)%Z -> (0 <= b)%Z -> (2 ^ a * Zpos d <= n * 2 ^ b)%Z -> pow2 (a - b) <= n # d.
Proof.
  intros Ha Hb H.
  assert (Pb := pow2_pos b).
  apply (Qmult_le_r _ _ (pow2 b) Pb).
  rewrite pow2_sub, (pow2_inject Ha), (pow2_inject Hb).
  unfold Qle, Qmult, inject_Z; simpl. nia.
Qed.

Lemma mag_spec (x : Q) : 0 < x -> pow2 (mag x - 1) <= x /\ x < pow2 (mag x).
Proof.
  intro Hx. destruct x as [n d].
  assert (Hn : (0 < n)%Z) by (unfold Qlt in Hx; simpl in Hx; lia).
  assert (Hd : (0 < Zpos d)%Z) by lia.
  destruct (Z.log2_spec n Hn) as [Ln Un].
  destruct (Z.log2_spec (Zpos d) Hd) as [Ld Ud].
  assert (Nn := Z.log2_nonneg n). assert (Nd := Z.log2_nonneg (Zpos d)).
  rewrite Z.pow_succ_r in Un, Ud by assumption.
  assert (P1 : (0 < 2 ^ Z.log2 n)%Z) by (apply Z.pow_pos_nonneg; lia).
  assert (P2 : (0 < 2 ^ Z.log2 (Zpos d))%Z) by (apply Z.pow_pos_nonneg; lia).
  unfold mag; cbn [Qnum Qden].
  set (ln := Z.log2 n) in *. set (ld := Z.log2 (Zpos d)) in *.
  destruct (Qlt_le_dec (n # d) (pow2 (ln - ld))) as [Hlt | Hge]; split; try assumption.
  - replace (ln - ld - 1)%Z with (ln - (ld + 1))%Z by ring.
    apply frac_ge_pow2; try lia.
    rewrite Z.pow_add_r by lia. change (2 ^ 1)%Z with 2%Z. nia.
  - replace (ln - ld + 1 - 1)%Z with (ln - ld)%Z by ring. assumption.
  - replace (ln - ld + 1)%Z with (ln + 1 - ld)%Z by ring.
    apply frac_lt_pow2; try lia.
    rewrite Z.pow_add_r by lia. change (2 ^ 1)%Z with 2%Z. nia.
Qed.

Lemma mag_le (x y : Q) : 0 < x -> x <= y -> (mag x <= mag y)%Z.
Proof.
  intros Hx Hxy.
  assert (Hy : 0 < y) by lra.
  destruct (mag_spec Hx) as [Lx _]. destruct (mag_spec Hy) as [_ Uy].
  destruct (Z_le_gt_dec (mag x) (mag y)) as [|G]; [assumption | exfalso].
  assert (P : pow2 (mag y) <= pow2 (mag x - 1)) by (apply pow2_le; lia).
  qlra.
Qed.

(** A power of two on the grid of exponent [e] bounds the rounded value
    whenever it bounds the argument. *)
Lemma pow2_on_grid (e g : Z) : (e <= g)%Z -> pow2 g / pow2 e == inject_Z (2 ^ (g - e)).
Proof.
  intro H. rewrite <- (pow2_inject (k := g - e)) by lia.
  rewrite <- (pow2_sub g e). field. apply pow2_nonzero.
Qed.

Lemma round_grid_ge (e g : Z) (x : Q) :
  (e <= g)%Z -> pow2 g <= x ->
  pow2 g <= inject_Z (round_half_even (x / pow2 e)) * pow2 e.
Proof.
  intros H Hx. assert (Pe := pow2_pos e).
  assert (D : pow2 g / pow2 e <= x / pow2 e).
  { apply Qmult_le_compat_r; [assumption | apply Qlt_le_weak, Qinv_lt_0_compat, Pe]. }
  apply round_half_even_le in D.
  rewrite (round_half_even_proper (pow2_on_grid H)), round_half_even_Z in D.
  rewrite Zle_Qle, <- (pow2_on_grid H) in D.
  apply (Qmult_le_compat_r _ _ (pow2 e)) in D; [| lra].
  assert (E : pow2 g / pow2 e * pow2 e == pow2 g) by (field; apply pow2_nonzero).
  rewrite E in D. exact D.
Qed.

Lemma round_grid_le (e g : Z) (x : Q) :
  (e <= g)%Z -> x <= pow2 g ->
  inject_Z (round_half_even (x / pow2 e)) * pow2 e <= pow2 g.
Proof.
  intros H Hx. assert (Pe := pow2_pos e).
  assert (D : x / pow2 e <= pow2 g / pow2 e).
  { apply Qmult_le_compat_r; [assumption | apply Qlt_le_weak, Qinv_lt_0_compat, Pe]. }
  apply round_half_even_le in D.
  rewrite (round_half_even_proper (pow2_on_grid H)), round_half_even_Z in D.
  rewrite Zle_Qle, <- (pow2_on_grid H) in D.
  apply (Qmult_le_compat_r _ _ (pow2 e)) in D; [| lra].
  assert (E : pow2 g / pow2 e * pow2 e == pow2 g) by (field; apply pow2_nonzero).
  rewrite E in D. exact D.
Qed.

Lemma round_pos_nonneg (prec emin : Z) (x : Q) : 0 <= x -> 0 <= round_pos prec emin x.
Proof.
  intro Hx. unfold round_pos.
  set (e := Z.max (mag x - prec) emin). assert (Pe := pow2_pos e).
  assert (D : 0 <= x / pow2 e).
  { apply Qle_shift_div_l; [assumption | lra]. }
  apply round_half_even_le in D. change 0 with (inject_Z 0) in D at 1.
  rewrite round_half_even_Z, Zle_Qle in D.
  apply Qmult_le_0_compat; [exact D | lra].
Qed.

Lemma round_pos_le (prec emin : Z) (x y : Q) :
  (1 <= prec)%Z -> 0 < x -> x <= y -> round_pos prec emin x <= round_pos prec emin y.
Proof.
  intros Hp Hx Hxy. assert (Hy : 0 < y) by lra.
  assert (M := mag_le Hx Hxy).
  destruct (mag_spec Hx) as [_ Ux]. destruct (mag_spec Hy) as [Ly _].
  unfold round_pos.
  set (ex := Z.max (mag x - prec) emin). set (ey := Z.max (mag y - prec) emin).
  destruct (Z.eq_dec ex ey) as [E | NE].
  - rewrite <- E. assert (Pe := pow2_pos ex).
    apply Qmult_le_compat_r; [| lra].
    rewrite <- Zle_Qle. apply round_half_even_le.
    apply Qmult_le_compat_r; [assumption | apply Qlt_le_weak, Qinv_lt_0_compat, Pe].
  - assert (Hlt : (ex < ey)%Z) by (unfold ex, ey in *; lia).
    assert (Ey : ey = (mag y - prec)%Z) by (unfold ex, ey in *; lia).
    assert (Hm : (mag x <= mag y - 1)%Z) by (unfold ex, ey in *; lia).
    assert (B : x <= pow2 (mag y - 1)).
    { assert (P : pow2 (mag x) <= pow2 (mag y - 1)) by (apply pow2_le; lia). qlra. }
    apply Qle_trans with (pow2 (mag y - 1)).
    + apply round_grid_le; [lia | exact B].
    + apply round_grid_ge; [lia | exact Ly].
Qed.

Lemma round_binary_le (prec emin : Z) (x y : Q) :
  (1 <= prec)%Z -> 0 <= x -> x <= y -> round_binary prec emin x <= round_binary prec emin y.
Proof.
  intros Hp Hx Hxy. unfold round_binary.
  destruct (Qcompare_spec x 0) as [Ex | Lx | Gx]; [| lra |];
    destruct (Qcompare_spec y 0) as [Ey | Ly | Gy]; try lra.
  - apply round_pos_nonneg. lra.
  - apply round_pos_le; assumption.
Qed.

Lemma binary32_one : binary32 1 == 1.
Proof. vm_compute. reflexivity. Qed.



Lemma binary32_zero : binary32 0 == 0.
Proof. reflexivity. Qed.

Lemma binary64_zero : binary64 0 == 0.
Proof. reflexivity. Qed.

(** Rounding is monotone on the whole line. *)
Lemma round_binary_monotone (prec emin : Z) (x y : Q) :
  (1 <= prec)%Z -> x <= y -> round_binary prec emin x <= round_binary prec emin y.
Proof.
  intros Hp Hxy. destruct (Qlt_le_dec x 0) as [Nx | Px].
  - destruct (Qlt_le_dec y 0) as [Ny | Py].
    + unfold round_binary.
      destruct (Qcompare_spec x 0) as [| _ |]; [lra | | lra].
      destruct (Qcompare_spec y 0) as [| _ |]; [lra | | lra].
      apply Qopp_le_compat. apply round_pos_le; [exact Hp | lra | lra].
    + apply Qle_trans with 0.
      * unfold round_binary. destruct (Qcompare_spec x 0) as [| _ |]; [lra | | lra].
        assert (N := @round_pos_nonneg prec emin (- x) ltac:(lra)). lra.
      * change 0 with (round_binary prec emin 0) at 1.
        apply round_binary_le; [exact Hp | lra | exact Py].
  - apply round_binary_le; assumption.
Qed.

(** The rounding error: half a unit in the last place, which is at most
    [2^-prec] of the number, or half the smallest positive number of the
    format. *)
Lemma round_pos_error (prec emin : Z) (x : Q) :
  0 < x ->
  Qabs (round_pos prec emin x - x) <= pow2 (- prec) * x + pow2 (emin - 1).
Proof.
  intro Hx. unfold round_pos.
  set (e := Z.max (mag x - prec) emin).
  assert (Pe := pow2_pos e).
  assert (R := round_half_even_error (x / pow2 e)).
  assert (H : Qabs (inject_Z (round_half_even (x / pow2 e)) * pow2 e - x)
              <= (1 # 2) * pow2 e).
  { apply Qabs_Qle_condition in R. apply Qabs_Qle_condition.
    assert (E : x == x / pow2 e * pow2 e) by (field; apply pow2_nonzero).
    set (r := inject_Z (round_half_even (x / pow2 e))) in *.
    set (q := x / pow2 e) in *. clearbody r q.
    destruct R as [R1 R2]. split.
    - rewrite E at 1.
      assert (K : (r - q + (1 # 2)) * pow2 e >= 0) by (apply Qmult_le_0_compat; lra).
      set (u := pow2 e) in *. clearbody u. nra.
    - rewrite E at 1.
      assert (K : ((1 # 2) - (r - q)) * pow2 e >= 0) by (apply Qmult_le_0_compat; lra).
      set (u := pow2 e) in *. clearbody u. nra. }
  eapply Qle_trans; [exact H |].
  assert (Half : forall k, (1 # 2) * pow2 k == pow2 (k - 1)).
  { intro k. rewrite <- (pow2_sub k 1). change (pow2 1) with 2. field. }
  rewrite Half.
  destruct (mag_spec Hx) as [L _].
  assert (P1 := pow2_pos (- prec)). assert (P2 := pow2_pos (emin - 1)).
  destruct (Z.max_spec (mag x - prec) emin) as [[_ E] | [_ E]]; fold e in E; rewrite E.
  - assert (G : 0 <= pow2 (- prec) * x) by (apply Qmult_le_0_compat; lra). lra.
  - replace (mag x - prec - 1)%Z with (- prec + (mag x - 1))%Z by ring.
    rewrite pow2_add.
    assert (G : pow2 (- prec) * pow2 (mag x - 1) <= pow2 (- prec) * x).
    { apply Qmult_le_l; [exact P1 | exact L]. }
    lra.
Qed.

Lemma round_binary_error (prec emin : Z) (x : Q) :
  Qabs (round_binary prec emin x - x) <= pow2 (- prec) * Qabs x + pow2 (emin - 1).
Proof.
  assert (P1 := pow2_pos (- prec)). assert (P2 := pow2_pos (emin - 1)).
  unfold round_binary. destruct (Qcompare_spec x 0) as [E | N | P].
  - rewrite E. setoid_replace (0 - 0) with 0 by ring. simpl. lra.
  - assert (R := @round_pos_error prec emin (- x) ltac:(lra)).
    rewrite (Qabs_neg x) by lra.
    apply Qabs_Qle_condition in R. apply Qabs_Qle_condition.
    set (r := round_pos prec emin (- x)) in *. clearbody r. split; lra.
  - assert (R := @round_pos_error prec emin x P).
    rewrite (Qabs_pos x) by lra. exact R.
Qed.

Lemma binary64_error (x : Q) :
  Qabs (binary64 x - x) <= pow2 (-53) * Qabs x + pow2 (-1075).
Proof. exact (round_binary_error 53 (-1074) x). Qed.

Lemma binary64_monotone (x y : Q) : x <= y -> binary64 x <= binary64 y.
Proof. apply round_binary_monotone. lia. Qed.







Lemma binary64_proper (x y : Q) : x == y -> binary64 x == binary64 y.
Proof. intro E. apply Qle_antisym; apply binary64_monotone; rewrite E; apply Qle_refl. Qed.



Lemma round2_spec (x : Q) : round2 x == inject_Z (round_half_even (x * 100)) * (1 # 100).
Proof. unfold round2. rewrite Qred_correct. reflexivity. Qed.


Lemma round2_zero : round2 0 = 0%Q.
Proof. reflexivity. Qed.

Lemma round2_error (x : Q) : Qabs (round2 x - x) <= 1 # 200.
Proof.
  rewrite round2_spec. assert (R := round_half_even_error (x * 100)).
  apply Qabs_Qle_condition in R. apply Qabs_Qle_condition.
  set (r := inject_Z (round_half_even (x * 100))) in *. clearbody r. split; lra.
Qed.

Lemma round2_le (x y : Q) : x <= y -> round2 x <= round2 y.
Proof.
  intro H. rewrite !round2_spec.
  assert (L : (round_half_even (x * 100) <= round_half_even (y * 100))%Z)
    by (apply round_half_even_le; lra).
  rewrite Zle_Qle in L.
  set (a := inject_Z (round_half_even (x * 100))) in *.
  set (b := inject_Z (round_half_even (y * 100))) in *.
  clearbody a b. lra.
Qed.



End RoundingFacts.

(** ** Lists *)

Lemma In_firstn (A : Type) (n : nat) (l : list A) (x : A) : In x (firstn n l) -> In x l.
Proof.
  revert l. induction n as [| n IH]; intros [| a l]; simpl; try tauto.
  intros [H | H]; [left; exact H | right; apply IH, H].
Qed.

Lemma StronglySorted_firstn (A : Type) (R : A -> A -> Prop) (n : nat) (l : list A) :
  StronglySorted R l -> StronglySorted R (firstn n l).
Proof.
  intro H. revert n. induction H as [| a l Hs IH Ha]; intros [| n]; simpl; try constructor.
  - apply IH.
  - rewrite Forall_forall in *. intros x Hx. apply Ha. eapply In_firstn. exact Hx.
Qed.

Lemma StronglySorted_filter (A : Type) (R : A -> A -> Prop) (f : A -> bool) (l : list A) :
  StronglySorted R l -> StronglySorted R (filter f l).
Proof.
  induction 1 as [| a l Hs IH Ha]; simpl; [constructor |].
  destruct (f a); [| exact IH].
  constructor; [exact IH |].
  rewrite Forall_forall in *. intros x Hx. apply filter_In in Hx. apply Ha, Hx.
Qed.

(** ** Filters of the search service *)

Lemma string_opt_eqb_eq (a b : option string) : string_opt_eqb a b = true -> a = b.
Proof.
  destruct a, b; simpl; intro H; try discriminate; try reflexivity.
  apply String.eqb_eq in H. congruence.
Qed.

Lemma Qlt_bool_false (x y : Q) : Qlt_bool x y = false -> (y <= x)%Q.
Proof.
  unfold Qlt_bool. intro H. apply negb_false_iff in H. apply Qle_bool_iff. exact H.
Qed.

Lemma Qlt_bool_true (x y : Q) : Qlt_bool x y = true <-> (x < y)%Q.
Proof.
  unfold Qlt_bool. rewrite negb_true_iff. split; intro H.
  - apply Qnot_le_lt. intro K. apply Qle_bool_iff in K. congruence.
  - destruct (Qle_bool y x) eqn:E; [| reflexivity].
    apply Qle_bool_iff in E. exfalso. exact (Qlt_not_le _ _ H E).
Qed.

Lemma amount_bounds (lo hi : option Q) (amt : Q) :
  (if match lo with Some m => Qlt_bool amt m | None => false end then true
   else match hi with Some m => Qlt_bool m amt | None => false end) = false ->
  (forall m, lo = Some m -> (m <= amt)%Q) /\ (forall m, hi = Some m -> (amt <= m)%Q).
Proof.
  intro H. split; intros m E; subst; apply Qlt_bool_false.
  - destruct (Qlt_bool amt m); [discriminate | reflexivity].
  - destruct lo as [m' |]; [destruct (Qlt_bool amt m'); [discriminate |] |]; exact H.
Qed.

Lemma kept_satisfies uid cat lo hi r :
  kept uid cat lo hi r = true -> satisfies_filters uid cat lo hi r.
Proof.
  unfold kept, skipped, satisfies_filters, amount_of. rewrite negb_true_iff.
  intro H.
  destruct (truthy_opt uid) eqn:Eu; cbn [andb] in H.
  - destruct (string_opt_eqb (user_id (txn r)) uid) eqn:E1; cbn [negb] in H;
      [apply string_opt_eqb_eq in E1 | discriminate].
    destruct (truthy_opt cat) eqn:Ec; cbn [andb] in H.
    + destruct (string_opt_eqb (category (txn r)) cat) eqn:E2; cbn [negb] in H;
        [apply string_opt_eqb_eq in E2 | discriminate].
      split; [auto |]. split; [auto |]. apply amount_bounds, H.
    + split; [auto |]. split; [discriminate |]. apply amount_bounds, H.
  - split; [discriminate |].
    destruct (truthy_opt cat) eqn:Ec; cbn [andb] in H.
    + destruct (string_opt_eqb (category (txn r)) cat) eqn:E2; cbn [negb] in H;
        [apply string_opt_eqb_eq in E2 | discriminate].
      split; [auto |]. apply amount_bounds, H.
    + split; [discriminate |]. apply amount_bounds, H.
Qed.

Lemma filter_loop_firstn top_k uid cat lo hi results acc :
  (Z.of_nat (List.length acc) < top_k)%Z ->
  filter_loop top_k uid cat lo hi results acc
  = firstn (Z.to_nat top_k) (acc ++ filter (kept uid cat lo hi) results).
Proof.
  revert acc. induction results as [| r rest IH]; intros acc Hacc; simpl.
  - rewrite app_nil_r. symmetry. apply firstn_all2. lia.
  - unfold kept at 1. destruct (skipped uid cat lo hi r); simpl.
    + apply IH. exact Hacc.
    + rewrite length_app. simpl.
      destruct (Z.geb_spec (Z.of_nat (List.length acc + 1)) top_k) as [G | L].
      * assert (E : Z.to_nat top_k = List.length (acc ++ [r])).
        { rewrite length_app. simpl. lia. }
        change (r :: filter (kept uid cat lo hi) rest)
          with ([r] ++ filter (kept uid cat lo hi) rest).
        rewrite app_assoc, E, firstn_app, firstn_all, Nat.sub_diag. simpl.
        rewrite app_nil_r. reflexivity.
      * rewrite IH by (rewrite length_app; simpl; lia).
        rewrite <- app_assoc. reflexivity.
Qed.

(** ** The index and the embedding service *)

Section IndexFacts.

Variable str_number : Q -> string.
Variable encode : string -> Vector.
Variable fl : Q -> Q.

Lemma insert_by_distance_length a l :
  List.length (insert_by_distance a l) = S (List.length l).
Proof.
  induction l as [| b l IH]; simpl; [reflexivity |].
  destruct (closer b a); simpl; [rewrite IH |]; reflexivity.
Qed.

Lemma insert_by_distance_Forall (P : Z * Q -> Prop) a l :
  P a -> Forall P l -> Forall P (insert_by_distance a l).
Proof.
  intros Ha Hl. induction Hl as [| b l Hb Hl IH]; simpl.
  - constructor; [exact Ha | constructor].
  - destruct (closer b a); constructor; auto.
Qed.

Lemma sort_by_distance_facts (P : Z * Q -> Prop) l :
  List.length (sort_by_distance l) = List.length l /\
  (Forall P l -> Forall P (sort_by_distance l)).
Proof.
  unfold sort_by_distance.
  assert (G : forall acc,
             List.length (fold_left (fun s a => insert_by_distance a s) l acc)
             = (List.length acc + List.length l)%nat /\
             (Forall P acc -> Forall P l ->
              Forall P (fold_left (fun s a => insert_by_distance a s) l acc))).
  { induction l as [| a l IH]; intro acc; simpl.
    - split; [lia | auto].
    - destruct (IH (insert_by_distance a acc)) as [L F]. split.
      + rewrite L, insert_by_distance_length. lia.
      + intros Hacc Hl. inversion Hl; subst.
        apply F; [apply insert_by_distance_Forall |]; assumption. }
  destruct (G []) as [L F]. split; [exact L | intro H; apply F; [constructor | exact H]].
Qed.

Lemma labelled_facts x vs start :
  List.length (labelled x vs start) = List.length vs /\
  Forall (fun p => (start <= fst p < start + Z.of_nat (List.length vs))%Z)
    (labelled x vs start).
Proof.
  revert start. induction vs as [| v vs IH]; intro start; simpl.
  - split; [reflexivity | constructor].
  - destruct (IH (start + 1)%Z) as [L F]. split; [rewrite L; reflexivity |].
    constructor; [simpl; lia |].
    eapply Forall_impl; [| exact F]. simpl. intros p Hp. lia.
Qed.

(** What [index_search] returns for [k > 0]: exactly [k] slots, each with
    the position of a stored vector or the label [-1]. *)
Lemma index_search_slots idx x k :
  (0 < k)%Z ->
  exists found, index_search idx x k = Ok found /\
    List.length found = Z.to_nat k /\
    Forall (fun p => (-1 <= fst p < Z.of_nat (ntotal idx))%Z) found.
Proof.
  intro Hk. unfold index_search.
  destruct (Z.leb_spec k 0) as [| _]; [lia |].
  eexists. split; [reflexivity |].
  destruct (labelled_facts x (vectors idx) 0) as [L F].
  destruct (sort_by_distance_facts
              (fun p => (0 <= fst p < 0 + Z.of_nat (List.length (vectors idx)))%Z)
              (labelled x (vectors idx) 0)) as [Ls Fs].
  specialize (Fs F). split.
  - rewrite length_app, repeat_length, length_firstn. lia.
  - apply Forall_app. split.
    + apply Forall_forall. intros p Hp. apply In_firstn in Hp.
      rewrite Forall_forall in Fs. specialize (Fs p Hp). unfold ntotal. lia.
    + apply Forall_forall. intros p Hp. apply repeat_spec in Hp. subst p.
      simpl. unfold ntotal. lia.
Qed.

Lemma collect_slots txns t0 found acc :
  Forall (fun p => (-1 <= fst p < Z.of_nat (List.length txns))%Z) found ->
  txns <> [] ->
  collect fl txns found acc = Ok (acc ++ map (hit_at fl txns t0) found).
Proof.
  intros Hf Hne. revert acc.
  assert (Hn : (0 < Z.of_nat (List.length txns))%Z).
  { destruct txns; [congruence | simpl; lia]. }
  induction Hf as [| [idx d] rest Hp Hf IH]; intro acc; simpl.
  - rewrite app_nil_r. reflexivity.
  - simpl in Hp. destruct (Z.ltb_spec idx (Z.of_nat (List.length txns))) as [_ |]; [| lia].
    assert (G : getitem txns idx
                = Ok (nth (Z.to_nat (idx mod Z.of_nat (List.length txns))) txns t0)).
    { unfold getitem. destruct (Z.ltb_spec idx 0) as [Neg | Pos].
      - assert (idx = (-1)%Z) by lia. subst idx.
        replace (-1 mod Z.of_nat (List.length txns))%Z
          with (Z.of_nat (List.length txns) + -1)%Z.
        + destruct (Z.ltb_spec (Z.of_nat (List.length txns) + -1) 0); [lia |].
          rewrite (nth_error_nth' txns t0) by lia. reflexivity.
        + apply Z.mod_unique with (q := (-1)%Z); lia.
      - destruct (Z.ltb_spec idx 0); [lia |].
        rewrite Z.mod_small by lia.
        rewrite (nth_error_nth' txns t0) by lia. reflexivity. }
    rewrite G. simpl. rewrite IH, <- app_assoc. reflexivity.
Qed.

Lemma collect_scores txns found acc res :
  Forall (fun h => similarity_score h = score fl (distance h)) acc ->
  collect fl txns found acc = Ok res ->
  Forall (fun h => similarity_score h = score fl (distance h)) res.
Proof.
  revert acc. induction found as [| [idx d] rest IH]; intros acc Hacc; simpl.
  - intro H. inversion H; subst. exact Hacc.
  - destruct (idx <? Z.of_nat (List.length txns))%Z; [| apply IH; exact Hacc].
    destruct (getitem txns idx); simpl; [| discriminate].
    apply IH. apply Forall_app. split; [exact Hacc |].
    constructor; [reflexivity | constructor].
Qed.

Lemma collect_raises txns found acc e :
  collect fl txns found acc = Raise e -> e = IndexError.
Proof.
  revert acc. induction found as [| [idx d] rest IH]; intros acc; simpl; [discriminate |].
  destruct (idx <? Z.of_nat (List.length txns))%Z; [| apply IH].
  unfold getitem.
  destruct ((if (idx <? 0)%Z then (Z.of_nat (List.length txns) + idx)%Z else idx) <? 0)%Z;
    simpl; [congruence |].
  destruct (nth_error txns _); simpl; [apply IH | congruence].
Qed.

Lemma embedding_search_raises self query k e :
  embedding_search encode fl self query k = Raise e ->
  match index self with
  | None => exists msg, e = ValueError msg
  | Some _ => e = AssertionError \/ e = IndexError
  end.
Proof.
  unfold embedding_search. destruct (index self) as [idx |].
  - unfold index_search. destruct (k <=? 0)%Z; simpl.
    + intro H. left. congruence.
    + intro H. right. eapply collect_raises. exact H.
  - intro H. eexists. inversion H. reflexivity.
Qed.

Lemma embedding_search_ok_positive self query k res :
  embedding_search encode fl self query k = Ok res -> (0 < k)%Z.
Proof.
  unfold embedding_search. destruct (index self) as [idx |]; [| discriminate].
  unfold index_search. destruct (Z.leb_spec k 0); simpl; [discriminate | lia].
Qed.

End IndexFacts.

(** ** Filtered search *)

Section SearchFacts.

Variable encode : string -> Vector.
Variable fl : Q -> Q.

Lemma filter_loop_falsy_uid top_k cat lo hi results acc :
  filter_loop top_k (Some EmptyString) cat lo hi results acc
  = filter_loop top_k None cat lo hi results acc.
Proof.
  revert acc. induction results as [| r rest IH]; intro acc; simpl; [reflexivity |].
  change (skipped (Some EmptyString) cat lo hi r) with (skipped None cat lo hi r).
  destruct (skipped None cat lo hi r); [apply IH |].
  destruct (_ >=? _)%Z; [reflexivity | apply IH].
Qed.

Lemma skipped_falsy_cat uid lo hi r :
  skipped uid (Some EmptyString) lo hi r = skipped uid None lo hi r.
Proof.
  unfold skipped. destruct (truthy_opt uid && _); reflexivity.
Qed.

Lemma filter_loop_falsy_cat top_k uid lo hi results acc :
  filter_loop top_k uid (Some EmptyString) lo hi results acc
  = filter_loop top_k uid None lo hi results acc.
Proof.
  revert acc. induction results as [| r rest IH]; intro acc; simpl; [reflexivity |].
  rewrite skipped_falsy_cat.
  destruct (skipped uid None lo hi r); [apply IH |].
  destruct (_ >=? _)%Z; [reflexivity | apply IH].
Qed.

Lemma filter_all_below (uid cat : option string) (lo : Q) (hi : option Q)
    (cands : list Hit) :
  (forall r, In r cands -> (amount_of (txn r) < lo)%Q) ->
  filter (kept uid cat (Some lo) hi) cands = [].
Proof.
  induction cands as [| r rest IH]; intro Hall; simpl; [reflexivity |].
  assert (Hr : (amount_of (txn r) < lo)%Q) by (apply Hall; left; reflexivity).
  apply Qlt_bool_true in Hr. unfold amount_of in Hr.
  unfold kept at 1, skipped. rewrite Hr.
  destruct (truthy_opt uid && _); simpl;
    [| destruct (truthy_opt cat && _); simpl];
    apply IH; intros; apply Hall; right; assumption.
Qed.

(** [search] returns a list exactly when the service is ready and the
    embedding service answered. *)
Lemma search_returns self query top_k uid cat lo hi res :
  search encode fl self query top_k uid cat lo hi = Ok res ->
  is_ready self = true /\
  exists cands,
    embedding_search encode fl (embedding_service self) query (top_k * 2) = Ok cands.
Proof.
  unfold search. destruct (is_ready self); simpl; [| discriminate].
  destruct (embedding_search encode fl (embedding_service self) query (top_k * 2));
    simpl; [| discriminate].
  intros _. split; [reflexivity | eexists; reflexivity].
Qed.

End SearchFacts.

(** C1.  When the service is ready and the embedding index answers the
    oversampled request ([2 * top_k] candidates), the filtered search raises
    nothing and returns the first [top_k] candidates that pass the filters,
    in candidate order: at most [top_k] results, each satisfying every
    active filter (user and category equal, amount within the bounds that
    are set), any ordering of the candidates preserved, and the empty list
    when [min_amount] lies above every candidate amount.  A string filter is
    active when it is truthy, an amount bound when it is not [None]. *)
Theorem search_filtered (encode : string -> Vector) (fl : Q -> Q)
    (self : VectorSearchService) (query : string) (top_k : Z)
    (uid cat : option string) (min_amount max_amount : option Q) (cands : list Hit) :
  is_ready self = true ->
  embedding_search encode fl (embedding_service self) query (top_k * 2) = Ok cands ->
  let res := firstn (Z.to_nat top_k) (filter (kept uid cat min_amount max_amount) cands) in
  search encode fl self query top_k uid cat min_amount max_amount = Ok res /\
  (Z.of_nat (List.length res) <= top_k)%Z /\
  Forall (satisfies_filters uid cat min_amount max_amount) res /\
  (forall R : Hit -> Hit -> Prop, StronglySorted R cands -> StronglySorted R res) /\
  (forall lo, min_amount = Some lo ->
     (forall r, In r cands -> (amount_of (txn r) < lo)%Q) -> res = []).
Proof.
  intros Hready Hcands res.
  assert (Hk : (0 < top_k)%Z).
  { apply embedding_search_ok_positive in Hcands. lia. }
  repeat split.
  - unfold search. rewrite Hready, Hcands. simpl.
    rewrite filter_loop_firstn by (simpl; lia). reflexivity.
  - unfold res. assert (L := firstn_le_length (Z.to_nat top_k)
                               (filter (kept uid cat min_amount max_amount) cands)). lia.
  - apply Forall_forall. intros r Hr. unfold res in Hr.
    apply In_firstn, filter_In in Hr. apply kept_satisfies, Hr.
  - intros R HR. apply StronglySorted_firstn, StronglySorted_filter, HR.
  - intros lo Hlo Hall. unfold res. subst min_amount.
    rewrite filter_all_below by exact Hall. apply firstn_nil.
Qed.

Lemma search_filtered_witness :
  exists s,
    search toy_encode binary32 two_ready "q" 1 (Some "USER001"%string) None
      (Some 1000%Q) None
    = Ok [ {| txn := flight; similarity_score := s; distance := (1 # 2 ^ 60)%Q |} ].
Proof.
  eexists.
  destruct (@search_filtered toy_encode binary32 two_ready "q" 1
              (Some "USER001"%string) None (Some 1000%Q) None _ eq_refl eq_refl)
    as [H _].
  rewrite H. vm_compute. reflexivity.
Defined.

(** C10.  An empty string passed as [user_id] or as [category] filter gives
    the same outcome as [None]: the filter is applied only when its value is
    truthy. *)
Theorem search_empty_string_filter (encode : string -> Vector) (fl : Q -> Q)
    (self : VectorSearchService) (query : string)
    (top_k : Z) (uid cat : option string) (min_amount max_amount : option Q) :
  search encode fl self query top_k (Some EmptyString) cat min_amount max_amount
  = search encode fl self query top_k None cat min_amount max_amount /\
  search encode fl self query top_k uid (Some EmptyString) min_amount max_amount
  = search encode fl self query top_k uid None min_amount max_amount.
Proof.
  unfold search. destruct (negb (is_ready self)); [split; reflexivity |].
  destruct (embedding_search encode fl (embedding_service self) query (top_k * 2));
    simpl; [| split; reflexivity].
  rewrite filter_loop_falsy_uid, filter_loop_falsy_cat. split; reflexivity.
Qed.

(** C7.  [EmbeddingService.search] raises the index-not-built [ValueError]
    exactly when [index] is [None], which is the state of a fresh service
    and never the state after [build_index] or a successful [load_index];
    [VectorSearchService.search] raises the not-initialized [RuntimeError]
    exactly when [is_ready] is false, which is the state of a fresh service
    and of a service whose [initialize] failed, [initialize] setting
    [is_ready] exactly when loading succeeded. *)
Theorem not_ready_errors (str_number : Q -> string) (encode : string -> Vector)
    (fl : Q -> Q) :
  (forall es query top_k,
     (exists msg, embedding_search encode fl es query top_k = Raise (ValueError msg))
     <-> index es = None) /\
  (forall self query top_k uid cat min_amount max_amount,
     (exists msg, search encode fl self query top_k uid cat min_amount max_amount
                  = Raise (RuntimeError msg))
     <-> is_ready self = false) /\
  index new_embedding_service = None /\
  is_ready new_search_service = false /\
  (forall es txns, index (build_index str_number encode es txns) <> None) /\
  (forall es index_file transactions_file,
     snd (load_index es index_file transactions_file) = Ok tt ->
     index (fst (load_index es index_file transactions_file)) <> None) /\
  (forall self index_file transactions_file,
     is_ready (fst (initialize self index_file transactions_file)) = true
     <-> snd (load_index (embedding_service self) index_file transactions_file) = Ok tt).
Proof.
  repeat split.
  - intros [msg H]. apply embedding_search_raises in H.
    destruct (index es); [destruct H; discriminate | reflexivity].
  - intro H. unfold embedding_search. rewrite H. eexists. reflexivity.
  - intros [msg H]. unfold search in H.
    destruct (is_ready self); [simpl in H | reflexivity].
    destruct (embedding_search encode fl (embedding_service self) query (top_k * 2)) eqn:E;
      simpl in H; [discriminate |].
    apply embedding_search_raises in E. inversion H; subst.
    destruct (index (embedding_service self)); [destruct E; discriminate |].
    destruct E; discriminate.
  - intro H. unfold search. rewrite H. simpl. eexists. reflexivity.
  - discriminate.
  - intros H. unfold load_index in *.
    destruct index_file; [destruct transactions_file |]; simpl in *; discriminate.
  - unfold initialize, load_index.
    destruct index_file; [destruct transactions_file |]; simpl; intro H;
      solve [reflexivity | discriminate].
  - unfold initialize, load_index.
    destruct index_file; [destruct transactions_file |]; simpl; intro H;
      solve [reflexivity | discriminate].
Qed.

(** C2.  Evaluation at the failing input: an index built from two
    transactions, asked for three results, returns three, the third being a
    second copy of the last transaction at distance [FLT_MAX].  The label
    [-1] of the unfilled slot passes the guard [idx < len(transactions)] and
    indexes the list from its end. *)
Lemma embedding_search_beyond_ntotal :
  List.length (transactions two_indexed) = 2%nat /\
  exists s1 s2 s3,
    embedding_search toy_encode binary32 two_indexed "q" 3
    = Ok [ {| txn := lunch; similarity_score := s1; distance := (1 # 2 ^ 60)%Q |};
           {| txn := flight; similarity_score := s2; distance := (1 # 2 ^ 60)%Q |};
           {| txn := flight; similarity_score := s3; distance := FLT_MAX |} ].
Proof.
  split; [reflexivity |]. do 3 eexists. vm_compute. reflexivity.
Qed.

(** On a built index every request for [k > 0] results is answered with [k]
    results, also when only [n < k] transactions are indexed. *)
Lemma embedding_search_built (str_number : Q -> string) (encode : string -> Vector)
    (fl : Q -> Q) (self : EmbeddingService) (txns : list Transaction)
    (query : string) (k : Z) (t0 : Transaction) :
  txns <> [] -> (0 < k)%Z ->
  exists found,
    index_search (mkIndex (create_embeddings str_number encode txns)) (encode query) k
    = Ok found /\
    List.length found = Z.to_nat k /\
    embedding_search encode fl (build_index str_number encode self txns) query k
    = Ok (map (hit_at fl txns t0) found).
Proof.
  intros Hne Hk.
  destruct (index_search_slots (mkIndex (create_embeddings str_number encode txns))
              (encode query) Hk) as [found [E [L F]]].
  exists found. repeat split; try assumption.
  unfold embedding_search, build_index. cbn [index transactions].
  rewrite E. simpl.
  rewrite (@collect_slots fl txns t0 found []); [reflexivity | | exact Hne].
  eapply Forall_impl; [| exact F]. simpl. intros p Hp.
  unfold ntotal, create_embeddings in Hp. cbn [vectors] in Hp.
  rewrite length_map in Hp. exact Hp.
Qed.

(** ** The similarity score *)

Section ScoreFacts.

Local Open Scope Q_scope.

Variable fl : Q -> Q.
Hypothesis fl_monotone : forall x y, 0 <= x -> x <= y -> fl x <= fl y.
Hypothesis fl_one : fl 1 == 1.
Hypothesis fl_zero : fl 0 == 0.

Lemma divisor_ge_one (d : Q) : 0 <= d -> 1 <= fl (1 + d).
Proof.
  intro Hd. assert (H : fl 1 <= fl (1 + d)) by (apply fl_monotone; lra). lra.
Qed.

Lemma inverse_bounds (y y' : Q) :
  1 <= y -> y <= y' -> 0 <= 1 / y' /\ 1 / y' <= 1 / y /\ 1 / y <= 1.
Proof.
  intros Hy Hyy'.
  assert (E : 1 / y * y == 1) by (field; lra).
  assert (P : 0 <= 1 / y) by (apply Qle_shift_div_l; lra).
  assert (P' : 0 <= 1 / y') by (apply Qle_shift_div_l; lra).
  repeat split; [exact P' | | apply Qle_shift_div_r; lra].
  apply Qle_shift_div_r; [lra |].
  set (z := 1 / y) in *. clearbody z. nra.
Qed.

Lemma score_range (d : Q) : 0 <= d -> 0 <= score fl d <= 1.
Proof.
  intro Hd. assert (Hy := divisor_ge_one Hd).
  destruct (inverse_bounds Hy (Qle_refl _)) as [P [_ U]].
  unfold score.
  assert (L0 : fl 0 <= fl (1 / fl (1 + d))) by (apply fl_monotone; [lra | exact P]).
  assert (L1 : fl (1 / fl (1 + d)) <= fl 1) by (apply fl_monotone; assumption).
  split; lra.
Qed.

Lemma score_at_zero (d : Q) : d == 0 -> score fl d == 1.
Proof.
  intro Hd.
  assert (Y1 : fl (1 + d) <= fl 1) by (apply fl_monotone; lra).
  assert (Y2 : fl 1 <= fl (1 + d)) by (apply fl_monotone; lra).
  assert (Y : fl (1 + d) == 1) by lra.
  assert (I : 1 / fl (1 + d) == 1) by (rewrite Y; reflexivity).
  unfold score.
  assert (S1 : fl (1 / fl (1 + d)) <= fl 1) by (apply fl_monotone; lra).
  assert (S2 : fl 1 <= fl (1 / fl (1 + d))) by (apply fl_monotone; lra).
  lra.
Qed.

Lemma score_decreasing (d d' : Q) : 0 <= d -> d <= d' -> score fl d' <= score fl d.
Proof.
  intros Hd Hdd'.
  assert (Hy := divisor_ge_one Hd).
  assert (Hyy' : fl (1 + d) <= fl (1 + d')) by (apply fl_monotone; lra).
  destruct (inverse_bounds Hy Hyy') as [P [L _]].
  unfold score. apply fl_monotone; assumption.
Qed.

End ScoreFacts.

(** On the sample distances (zero, tiny, subnormal, ties, large and
    [FLT_MAX]) the score of the model is the one the IEEE operations give,
    in binary32 and in binary64. *)
Lemma score_agrees_with_ieee :
  Forall (fun d =>
            SF2Q (ieee_score 24 128 d) == score binary32 (SF2Q d) /\
            SF2Q (ieee_score 53 1024 d) == score binary64 (SF2Q d))%Q
    sample_distances.
Proof.
  unfold sample_distances.
  repeat (constructor; [split; vm_compute; reflexivity |]). constructor.
Qed.

(** C8, as the code has it.  The score attached to a result is
    [fl (1 / fl (1 + d))], where [fl] rounds to the floating-point format
    the expression is evaluated in.  For every rounding that is monotone on
    the non-negative numbers and leaves 0 and 1 unchanged (as
    round-to-nearest does), and every distance [d >= 0]: the divisor is at
    least 1, so nothing divides by zero; the score lies in [0, 1]; it is 1
    when [d] is 0; and it does not increase when the distance grows. *)
Theorem similarity_score_rounded (encode : string -> Vector) (fl : Q -> Q)
    (self : EmbeddingService) (query : string) (top_k : Z) (res : list Hit) :
  (forall x y, 0 <= x -> x <= y -> fl x <= fl y)%Q ->
  (fl 1 == 1)%Q -> (fl 0 == 0)%Q ->
  embedding_search encode fl self query top_k = Ok res ->
  Forall (fun h =>
            similarity_score h = fl (1 / fl (1 + distance h))%Q /\
            (0 <= distance h ->
             1 <= fl (1 + distance h) /\
             0 <= similarity_score h <= 1 /\
             (distance h == 0 -> similarity_score h == 1))%Q) res /\
  (forall h h', In h res -> In h' res ->
     (0 <= distance h -> distance h <= distance h' ->
      similarity_score h' <= similarity_score h)%Q).
Proof.
  intros Hmono Hone Hzero Hres.
  assert (S : Forall (fun h => similarity_score h = score fl (distance h)) res).
  { unfold embedding_search in Hres. destruct (index self); [| discriminate].
    destruct (index_search _ _ _); simpl in Hres; [| discriminate].
    eapply collect_scores; [| exact Hres]. constructor. }
  rewrite Forall_forall in S. split.
  - apply Forall_forall. intros h Hh. rewrite (S h Hh). split; [reflexivity |].
    intro Hd. repeat split.
    + apply divisor_ge_one; assumption.
    + apply score_range; assumption.
    + apply score_range; assumption.
    + apply score_at_zero; assumption.
  - intros h h' Hh Hh' Hd Hle. rewrite (S h Hh), (S h' Hh').
    apply score_decreasing; assumption.
Qed.

Lemma similarity_score_rounded_witness :
  exists res,
    embedding_search toy_encode binary32 one_indexed "q" 1 = Ok res /\
    Forall (fun h => (0 <= distance h -> 0 <= similarity_score h <= 1)%Q) res.
Proof.
  eexists. split; [reflexivity |].
  destruct (@similarity_score_rounded toy_encode binary32 one_indexed "q" 1 _
              (fun x y => @round_binary_le 24 (-149) x y ltac:(lia))
              binary32_one binary32_zero eq_refl) as [H _].
  eapply Forall_impl; [| exact H]. simpl. intros h [_ K] Hd. apply K, Hd.
Defined.

(** C8, as stated, fails: a result at the positive distance [2^-60] has the
    score 1, in binary32 and in binary64 alike, the same score as a result
    at distance 0.  So the score is not 1 only at distance 0, and it does
    not decrease strictly. *)
Lemma similarity_score_not_strict :
  exists h,
    embedding_search toy_encode binary32 one_indexed "q" 1 = Ok [h] /\
    (0 < distance h)%Q /\ (similarity_score h == 1)%Q /\
    (score binary32 0 == 1)%Q /\ (score binary64 (distance h) == 1)%Q.
Proof.
  eexists. split; [reflexivity |]. vm_compute. repeat split; reflexivity.
Qed.

(** ** The text of a transaction *)

Section TextFacts.

Local Open Scope string_scope.

(** C9, as the code has it.  The text is the kept segments joined by
    [" | "]: description, category, subcategory and merchant, each present
    exactly when it is non-empty; then the three labelled segments for
    amount and currency, type and payment method, which are always present,
    also when the field behind them is empty; then the notes, present
    exactly when non-empty. *)
Theorem create_transaction_text_segments (str_number : Q -> string) (t : Transaction) :
  create_transaction_text str_number t
  = String.concat " | "
      (filter truthy [get (description t) ""; get (category t) "";
                      get (subcategory t) ""; get (merchant t) ""]
       ++ ["Amount: " ++ str_number (get (amount t) 0%Q) ++ " " ++ get (currency t) "INR";
           "Type: " ++ get (type t) "";
           "Payment: " ++ get (payment_method t) ""]
       ++ filter truthy [get (notes t) ""]).
Proof.
  unfold create_transaction_text. f_equal.
  repeat (rewrite ?filter_app; cbn [filter truthy append app]).
  destruct (truthy (get (description t) "")), (truthy (get (category t) "")),
    (truthy (get (subcategory t) "")), (truthy (get (merchant t) "")),
    (truthy (get (notes t) "")); reflexivity.
Qed.

(** C9, as stated, fails: with an empty type and an empty payment method
    the segments ["Type: "] and ["Payment: "] are in the text. *)
Lemma create_transaction_text_empty_field :
  let t := sample_txn "Lunch" "" "" "" 250 in
  type t = Some "" /\ payment_method t = Some "" /\ category t = Some "" /\
  create_transaction_text toy_str t = "Lunch | Amount: 250.0 INR | Type:  | Payment: ".
Proof. repeat split. Qed.

End TextFacts.

(** ** Insertion-ordered dictionaries *)

Section DictFacts.

Lemma seen_In (c : string) (l : list string) : seen c l = true <-> In c l.
Proof.
  unfold seen. rewrite existsb_exists. split.
  - intros [x [Hx E]]. apply String.eqb_eq in E. subst. exact Hx.
  - intro H. exists c. split; [exact H | apply String.eqb_refl].
Qed.

Lemma first_seen_snoc (l : list string) (c : string) :
  first_seen (l ++ [c])
  = if seen c (first_seen l) then first_seen l else first_seen l ++ [c].
Proof. unfold first_seen. rewrite fold_left_app. reflexivity. Qed.

Lemma first_seen_In (l : list string) (c : string) : In c (first_seen l) <-> In c l.
Proof.
  induction l as [| x l IH] using rev_ind; [reflexivity |].
  rewrite first_seen_snoc, in_app_iff. simpl.
  destruct (seen x (first_seen l)) eqn:E.
  - apply seen_In in E. rewrite IH in *. intuition (subst; auto).
  - rewrite in_app_iff, IH. simpl. tauto.
Qed.

Lemma first_seen_NoDup (l : list string) : NoDup (first_seen l).
Proof.
  induction l as [| x l IH] using rev_ind; [constructor |].
  rewrite first_seen_snoc. destruct (seen x (first_seen l)) eqn:E; [exact IH |].
  apply NoDup_app; [exact IH | repeat constructor; simpl; tauto |].
  intros a Ha [Hx | []]. subst a. apply seen_In in Ha. congruence.
Qed.

Lemma map_update (V W : Type) (g : V -> W) (d0 : V) (f : V -> V) (f' : W -> W)
    (key : string) (d : list (string * V)) :
  (forall v, g (f v) = f' (g v)) ->
  map (fun kv => (fst kv, g (snd kv))) (update d0 f key d)
  = update (g d0) f' key (map (fun kv => (fst kv, g (snd kv))) d).
Proof.
  intro H. induction d as [| [k v] d IH]; simpl.
  - rewrite H. reflexivity.
  - destruct (String.eqb k key); simpl; [rewrite H | rewrite IH]; reflexivity.
Qed.

Lemma update_not_nil (V : Type) (d0 : V) (f : V -> V) (key : string) (d : list (string * V)) :
  update d0 f key d <> [].
Proof. destruct d as [| [k v] d]; simpl; [| destruct (String.eqb k key)]; discriminate. Qed.


Lemma update_keyed_with (V : Type) (F : string -> V) (f : V -> V) (d0 : V)
    (key : string) (keys : list string) :
  NoDup keys -> (~ In key keys -> F key = d0) ->
  update d0 f key (map (fun c => (c, F c)) keys)
  = map (fun c => (c, if String.eqb c key then f (F c) else F c))
      (if seen key keys then keys else keys ++ [key]).
Proof.
  intros Hnd H0. induction Hnd as [| c ks Hc Hnd IH]; simpl.
  - rewrite String.eqb_refl, H0 by tauto. reflexivity.
  - unfold seen in *. simpl. rewrite (String.eqb_sym key c).
    destruct (String.eqb c key) eqn:E; simpl.
    + rewrite E. f_equal. apply String.eqb_eq in E. subst c.
      apply map_ext_in. intros c' Hc'.
      destruct (String.eqb c' key) eqn:E'; [| reflexivity].
      apply String.eqb_eq in E'. subst. contradiction.
    + rewrite IH.
      * destruct (existsb (String.eqb key) ks); simpl; rewrite E; reflexivity.
      * intro Hk. apply H0. intros [K | K]; [| contradiction].
        subst. rewrite String.eqb_refl in E. discriminate.
Qed.

(** What every updated value satisfies, and the default once updated, holds
    throughout the dict. *)
Lemma update_Forall (V : Type) (P : V -> Prop) (d0 : V) (f : V -> V) (key : string)
    (d : list (string * V)) :
  (forall v, P (f v)) ->
  Forall (fun kv => P (snd kv)) d ->
  Forall (fun kv => P (snd kv)) (update d0 f key d).
Proof.
  intros Hf H. induction H as [| [k v] d Hv H IH]; simpl.
  - constructor; [apply Hf | constructor].
  - destruct (String.eqb k key); constructor; simpl; auto.
Qed.

End DictFacts.

(** ** Running totals and their rounding *)

Section AccumulationFacts.

Local Open Scope Q_scope.

Variable fl : Q -> Q.

Lemma float_sum_snoc (keep : Transaction -> bool) (txns : list Transaction)
    (t : Transaction) :
  float_sum fl keep (txns ++ [t])
  = if keep t then fl (float_sum fl keep txns + amount_of t) else float_sum fl keep txns.
Proof. unfold float_sum. rewrite fold_left_app. reflexivity. Qed.

Lemma exact_sum_snoc (keep : Transaction -> bool) (txns : list Transaction)
    (t : Transaction) :
  exact_sum keep (txns ++ [t])
  = if keep t then exact_sum keep txns + amount_of t else exact_sum keep txns.
Proof. unfold exact_sum. rewrite fold_left_app. reflexivity. Qed.

Lemma float_sum_unhit (keep : Transaction -> bool) (txns : list Transaction) :
  (forall t, In t txns -> keep t = false) -> float_sum fl keep txns = 0.
Proof.
  induction txns as [| t txns IH] using rev_ind; intro H; [reflexivity |].
  rewrite float_sum_snoc, H by (apply in_app_iff; right; left; reflexivity).
  apply IH. intros t' Ht'. apply H, in_app_iff. left. exact Ht'.
Qed.


Lemma monotone_proper (x y : Q) : monotone fl -> x == y -> fl x == fl y.
Proof.
  intros Hm E. apply Qle_antisym; apply Hm; rewrite E; apply Qle_refl.
Qed.


Lemma drift_state_snoc (eps eta : Q) (l : list Q) (a : Q) :
  drift_state eps eta (l ++ [a]) = drift_step eps eta (drift_state eps eta l) a.
Proof. unfold drift_state. rewrite fold_left_app. reflexivity. Qed.

Lemma abs_total_snoc (eps eta : Q) (l : list Q) (a : Q) :
  abs_total eps eta (l ++ [a]) = abs_total eps eta l + Qabs a.
Proof. unfold abs_total. rewrite drift_state_snoc. reflexivity. Qed.

Lemma drift_snoc (eps eta : Q) (l : list Q) (a : Q) :
  drift eps eta (l ++ [a])
  = (1 + eps) * drift eps eta l + (eps * abs_total eps eta (l ++ [a]) + eta).
Proof. unfold drift, abs_total. rewrite drift_state_snoc. reflexivity. Qed.

Lemma abs_total_nonneg (eps eta : Q) (l : list Q) : 0 <= abs_total eps eta l.
Proof.
  induction l as [| a l IH] using rev_ind; [apply Qle_refl |].
  rewrite abs_total_snoc. assert (A := Qabs_nonneg a). lra.
Qed.

Lemma drift_nonneg (eps eta : Q) (l : list Q) :
  0 <= eps -> 0 <= eta -> 0 <= drift eps eta l.
Proof.
  intros He Ht. induction l as [| a l IH] using rev_ind; [apply Qle_refl |].
  rewrite drift_snoc.
  assert (A := abs_total_nonneg eps eta (l ++ [a])).
  assert (P1 := Qmult_le_0_compat _ _ He IH).
  assert (P2 := Qmult_le_0_compat _ _ He A).
  set (d := drift eps eta l) in *. set (s := abs_total eps eta (l ++ [a])) in *.
  clearbody d s. lra.
Qed.

Lemma exact_sum_abs (eps eta : Q) (keep : Transaction -> bool) (txns : list Transaction) :
  Qabs (exact_sum keep txns) <= abs_total eps eta (map amount_of txns).
Proof.
  induction txns as [| t txns IH] using rev_ind; [apply Qle_refl |].
  rewrite map_app. cbn [map]. rewrite abs_total_snoc, exact_sum_snoc.
  assert (A := Qabs_nonneg (amount_of t)).
  destruct (keep t).
  - eapply Qle_trans; [apply Qabs_triangle |]. lra.
  - lra.
Qed.

(** One rounded addition: the error of the total grows by the factor
    [1 + eps] and by the error of the addition. *)
Lemma float_step_error (eps eta F X a A : Q) :
  error_bounded fl eps eta -> Qabs (X + a) <= A ->
  Qabs (fl (F + a) - (X + a)) <= (1 + eps) * Qabs (F - X) + (eps * A + eta).
Proof.
  intros [He [Ht Hb]] HA.
  assert (B := Hb (F + a)).
  assert (T1 : Qabs (F + a) <= Qabs (F - X) + Qabs (X + a)).
  { eapply Qle_trans; [| apply Qabs_triangle].
    assert (E : F + a == F - X + (X + a)) by ring. rewrite <- E. apply Qle_refl. }
  assert (T2 : Qabs (fl (F + a) - (X + a)) <= Qabs (fl (F + a) - (F + a)) + Qabs (F - X)).
  { eapply Qle_trans; [| apply Qabs_triangle].
    assert (E : fl (F + a) - (X + a) == fl (F + a) - (F + a) + (F - X)) by ring.
    rewrite <- E. apply Qle_refl. }
  assert (M : eps * Qabs (F + a) <= eps * (Qabs (F - X) + A)).
  { rewrite !(Qmult_comm eps). apply Qmult_le_compat_r; [lra | exact He]. }
  set (u := Qabs (F - X)) in *. set (w := Qabs (F + a)) in *.
  set (r := Qabs (fl (F + a) - (X + a))) in *.
  set (r' := Qabs (fl (F + a) - (F + a))) in *.
  set (eu := eps * u). assert (Eu : eps * (u + A) == eu + eps * A) by (unfold eu; ring).
  rewrite Eu in M.
  assert (G : (1 + eps) * u == u + eu) by (unfold eu; ring). rewrite G.
  set (ew := eps * w) in *. set (eA := eps * A) in *.
  clearbody u w r r' eu ew eA. lra.
Qed.

Lemma hits_cons (k : Transaction -> bool) (ks : list (Transaction -> bool))
    (t : Transaction) :
  hits (k :: ks) t = ((if k t then 1 else 0) + hits ks t)%nat.
Proof. unfold hits. simpl. destruct (k t); reflexivity. Qed.

Lemma sum_Q_cons (A : Type) (g : A -> Q) (x : A) (l : list A) :
  sum_Q g (x :: l) = g x + sum_Q g l.
Proof. reflexivity. Qed.

Lemma sum_Q_ext (A : Type) (g h : A -> Q) (l : list A) :
  (forall x, In x l -> g x == h x) -> sum_Q g l == sum_Q h l.
Proof.
  induction l as [| x l IH]; intro H; simpl; [reflexivity |].
  rewrite (H x) by (left; reflexivity). rewrite IH; [reflexivity |].
  intros y Hy. apply H. right. exact Hy.
Qed.

Lemma sum_Q_zero (A : Type) (g : A -> Q) (l : list A) :
  (forall x, In x l -> g x == 0) -> sum_Q g l == 0.
Proof.
  induction l as [| x l IH]; intro H; simpl; [reflexivity |].
  rewrite (H x) by (left; reflexivity). rewrite IH; [reflexivity |].
  intros y Hy. apply H. right. exact Hy.
Qed.

Lemma sum_Q_nonneg (A : Type) (g : A -> Q) (l : list A) :
  (forall x, 0 <= g x) -> 0 <= sum_Q g l.
Proof.
  intro H. induction l as [| x l IH]; simpl; [apply Qle_refl |].
  assert (Hx := H x). lra.
Qed.

Lemma sum_Q_map (A B : Type) (f : A -> B) (g : B -> Q) (l : list A) :
  sum_Q g (map f l) = sum_Q (fun x => g (f x)) l.
Proof. induction l as [| x l IH]; simpl; [| rewrite IH]; reflexivity. Qed.

Lemma sum_Q_abs_diff (A : Type) (g h : A -> Q) (l : list A) :
  Qabs (sum_Q g l - sum_Q h l) <= sum_Q (fun x => Qabs (g x - h x)) l.
Proof.
  induction l as [| x l IH]; [apply Qle_refl |].
  rewrite !sum_Q_cons.
  assert (E : g x + sum_Q g l - (h x + sum_Q h l) == g x - h x + (sum_Q g l - sum_Q h l))
    by ring.
  rewrite E. eapply Qle_trans; [apply Qabs_triangle |]. lra.
Qed.

Lemma rounding_error_snoc (k : Transaction -> bool) (txns : list Transaction)
    (t : Transaction) :
  rounding_error fl k (txns ++ [t])
  = if k t
    then Qabs (fl (float_sum fl k txns + amount_of t) - (exact_sum k txns + amount_of t))
    else rounding_error fl k txns.
Proof.
  unfold rounding_error. rewrite float_sum_snoc, exact_sum_snoc.
  destruct (k t); reflexivity.
Qed.

Lemma sum_error_unhit (ks : list (Transaction -> bool)) (txns : list Transaction)
    (t : Transaction) :
  hits ks t = 0%nat ->
  sum_Q (fun k => rounding_error fl k (txns ++ [t])) ks
  = sum_Q (fun k => rounding_error fl k txns) ks.
Proof.
  induction ks as [| k ks IH]; intro H; [reflexivity |].
  rewrite hits_cons in H. simpl. rewrite rounding_error_snoc.
  destruct (k t); [discriminate |]. rewrite IH by exact H. reflexivity.
Qed.

(** One iteration that adds to at most one of the totals [ks]. *)
Lemma sum_error_step (eps eta A : Q) (ks : list (Transaction -> bool))
    (txns : list Transaction) (t : Transaction) :
  error_bounded fl eps eta ->
  (forall k, Qabs (exact_sum k (txns ++ [t])) <= A) ->
  (hits ks t <= 1)%nat ->
  sum_Q (fun k => rounding_error fl k (txns ++ [t])) ks
  <= (1 + eps) * sum_Q (fun k => rounding_error fl k txns) ks + (eps * A + eta).
Proof.
  intros Hb HA. assert (Hb' := Hb). destruct Hb' as [He [Ht _]].
  assert (A0 : 0 <= A).
  { eapply Qle_trans; [apply Qabs_nonneg | apply (HA (fun _ => true))]. }
  assert (EA := Qmult_le_0_compat _ _ He A0).
  induction ks as [| k ks IH]; intro H.
  - simpl. set (eA := eps * A) in *. clearbody eA. lra.
  - rewrite hits_cons in H. simpl.
    assert (N : 0 <= sum_Q (fun k0 => rounding_error fl k0 txns) ks).
    { apply sum_Q_nonneg. intro x. apply Qabs_nonneg. }
    assert (Nk : 0 <= rounding_error fl k txns) by apply Qabs_nonneg.
    assert (P1 := Qmult_le_0_compat _ _ He N).
    assert (P2 := Qmult_le_0_compat _ _ He Nk).
    rewrite rounding_error_snoc.
    destruct (k t) eqn:E.
    + rewrite sum_error_unhit by lia.
      assert (S := @float_step_error eps eta (float_sum fl k txns) (exact_sum k txns)
                     (amount_of t) A Hb).
      assert (HAk := HA k). rewrite exact_sum_snoc, E in HAk. specialize (S HAk).
      fold (rounding_error fl k txns) in S.
      set (s := sum_Q (fun k0 => rounding_error fl k0 txns) ks) in *.
      set (r := rounding_error fl k txns) in *.
      set (n := Qabs _) in *.
      assert (G1 : (1 + eps) * r == r + eps * r) by ring. rewrite G1 in S.
      assert (G2 : (1 + eps) * (r + s) == r + s + eps * r + eps * s) by ring. rewrite G2.
      set (er := eps * r) in *. set (es := eps * s) in *. set (eA := eps * A) in *.
      clearbody s r n er es eA. lra.
    + specialize (IH ltac:(lia)).
      set (s := sum_Q (fun k0 => rounding_error fl k0 txns) ks) in *.
      set (s' := sum_Q (fun k0 => rounding_error fl k0 (txns ++ [t])) ks) in *.
      set (r := rounding_error fl k txns) in *.
      assert (G1 : (1 + eps) * s == s + eps * s) by ring. rewrite G1 in IH.
      assert (G2 : (1 + eps) * (r + s) == r + s + eps * r + eps * s) by ring. rewrite G2.
      set (er := eps * r) in *. set (es := eps * s) in *. set (eA := eps * A) in *.
      clearbody s s' r er es eA. lra.
Qed.

(** Totals that share the transactions among themselves have gathered, all
    together, an error of at most [drift]. *)
Lemma partition_drift (eps eta : Q) (ks : list (Transaction -> bool))
    (txns : list Transaction) :
  error_bounded fl eps eta ->
  (forall t, In t txns -> (hits ks t <= 1)%nat) ->
  sum_Q (fun k => rounding_error fl k txns) ks <= drift eps eta (map amount_of txns).
Proof.
  intros Hb. assert (Hb' := Hb). destruct Hb' as [He [Ht _]].
  induction txns as [| t txns IH] using rev_ind; intro H.
  - rewrite sum_Q_zero; [apply Qle_refl | intros; reflexivity].
  - rewrite map_app. cbn [map]. rewrite drift_snoc.
    assert (S := @sum_error_step eps eta
                   (abs_total eps eta (map amount_of txns ++ [amount_of t])) ks txns t Hb).
    assert (HA : forall k, Qabs (exact_sum k (txns ++ [t]))
                           <= abs_total eps eta (map amount_of txns ++ [amount_of t])).
    { intro k. assert (X := exact_sum_abs eps eta k (txns ++ [t])).
      rewrite map_app in X. exact X. }
    specialize (S HA (H t ltac:(apply in_app_iff; right; left; reflexivity))).
    assert (I : sum_Q (fun k => rounding_error fl k txns) ks
                <= drift eps eta (map amount_of txns)).
    { apply IH. intros t' Ht'. apply H, in_app_iff. left. exact Ht'. }
    assert (M : (1 + eps) * sum_Q (fun k => rounding_error fl k txns) ks
                <= (1 + eps) * drift eps eta (map amount_of txns)).
    { rewrite !(Qmult_comm (1 + eps)). apply Qmult_le_compat_r; [exact I | lra]. }
    eapply Qle_trans; [exact S |].
    set (x := (1 + eps) * sum_Q _ ks) in *. set (y := (1 + eps) * drift _ _ _) in *.
    set (z := eps * _ + eta). clearbody x y z. lra.
Qed.

Lemma exact_sums_step (ks : list (Transaction -> bool)) (txns : list Transaction)
    (t : Transaction) :
  sum_Q (fun k => exact_sum k (txns ++ [t])) ks
  == sum_Q (fun k => exact_sum k txns) ks
     + inject_Z (Z.of_nat (hits ks t)) * amount_of t.
Proof.
  induction ks as [| k ks IH]; simpl.
  - unfold hits. simpl. ring.
  - rewrite hits_cons, IH, exact_sum_snoc.
    destruct (k t).
    + rewrite Nat2Z.inj_add, inject_Z_plus. change (inject_Z (Z.of_nat 1)) with 1. ring.
    + rewrite Nat2Z.inj_add, inject_Z_plus. change (inject_Z (Z.of_nat 0)) with 0. ring.
Qed.

(** Two families of totals that take every transaction equally often have
    the same exact sum. *)
Lemma exact_partition (ks ks' : list (Transaction -> bool)) (txns : list Transaction) :
  (forall t, In t txns -> hits ks t = hits ks' t) ->
  sum_Q (fun k => exact_sum k txns) ks == sum_Q (fun k => exact_sum k txns) ks'.
Proof.
  induction txns as [| t txns IH] using rev_ind; intro H.
  - rewrite !sum_Q_zero; [reflexivity | |]; intros; reflexivity.
  - rewrite !exact_sums_step, IH.
    + rewrite (H t) by (apply in_app_iff; right; left; reflexivity). reflexivity.
    + intros t' Ht'. apply H, in_app_iff. left. exact Ht'.
Qed.

Lemma cents_of_error (A : Type) (g : A -> Q) (l : list A) :
  Qabs (inject_Z (cents_of g l) - sum_Q g l * 100)
  <= (1 # 2) * inject_Z (Z.of_nat (List.length l)).
Proof.
  induction l as [| e l IH].
  - vm_compute. discriminate.
  - cbn [cents_of sum_Q fold_right List.length].
    fold (cents_of g l). fold (sum_Q g l).
    rewrite Nat2Z.inj_succ, <- Z.add_1_r, !inject_Z_plus.
    assert (R := round_half_even_error (g e * 100)). fold (hundredths (g e)) in R.
    apply Qabs_Qle_condition in R. apply Qabs_Qle_condition in IH.
    apply Qabs_Qle_condition.
    change (inject_Z 1) with 1.
    set (r := inject_Z (hundredths (g e))) in *.
    set (c := inject_Z (cents_of g l)) in *. set (n := inject_Z (Z.of_nat (List.length l))) in *.
    set (x := g e) in *. set (s := sum_Q g l) in *.
    clearbody r c n x s. split; lra.
Qed.

Lemma sum_round2_cents (A : Type) (g : A -> Q) (l : list A) :
  sum_Q (fun e => round2 (g e)) l == inject_Z (cents_of g l) * (1 # 100).
Proof.
  induction l as [| e l IH]; simpl.
  - reflexivity.
  - rewrite IH, round2_spec, inject_Z_plus. unfold hundredths. ring.
Qed.

(** The totals of two families that share the transactions equally, each
    total rounded to hundredths: the sums over the families differ by at
    most half a hundredth per total. *)
Lemma rounded_families_close (eps eta : Q) (ks ks' : list (Transaction -> bool))
    (txns : list Transaction) :
  error_bounded fl eps eta ->
  (forall t, In t txns -> hits ks t = hits ks' t /\ (hits ks t <= 1)%nat) ->
  400 * drift eps eta (map amount_of txns) < 1 ->
  (2 * Z.abs (cents_of (fun k => float_sum fl k txns) ks
              - cents_of (fun k => float_sum fl k txns) ks')
   <= Z.of_nat (List.length ks + List.length ks'))%Z.
Proof.
  intros Hb H Hd.
  assert (D1 : sum_Q (fun k => rounding_error fl k txns) ks
               <= drift eps eta (map amount_of txns)).
  { apply partition_drift; [exact Hb |]. intros t Ht. apply H, Ht. }
  assert (D2 : sum_Q (fun k => rounding_error fl k txns) ks'
               <= drift eps eta (map amount_of txns)).
  { apply partition_drift; [exact Hb |]. intros t Ht.
    destruct (H t Ht) as [E L]. rewrite <- E. exact L. }
  assert (X : sum_Q (fun k => exact_sum k txns) ks
              == sum_Q (fun k => exact_sum k txns) ks').
  { apply exact_partition. intros t Ht. apply H, Ht. }
  assert (A1 := sum_Q_abs_diff (fun k => float_sum fl k txns) (fun k => exact_sum k txns) ks).
  assert (A2 := sum_Q_abs_diff (fun k => float_sum fl k txns) (fun k => exact_sum k txns) ks').
  assert (C1 := cents_of_error (fun k => float_sum fl k txns) ks).
  assert (C2 := cents_of_error (fun k => float_sum fl k txns) ks').
  unfold rounding_error in D1, D2.
  set (za := cents_of (fun k => float_sum fl k txns) ks) in *.
  set (zb := cents_of (fun k => float_sum fl k txns) ks') in *.
  set (n := Z.of_nat (List.length ks)) in *. set (m := Z.of_nat (List.length ks')) in *.
  assert (B : (- (n + m + 1) < 2 * (za - zb) < n + m + 1)%Z).
  { apply Qabs_Qle_condition in A1, A2, C1, C2.
    rewrite !Zlt_Qlt, !inject_Z_opp, !inject_Z_mult.
    unfold Z.sub. rewrite !inject_Z_plus, !inject_Z_opp.
    change (inject_Z 2) with 2. change (inject_Z 1) with 1.
    set (qa := inject_Z za) in *. set (qb := inject_Z zb) in *.
    set (qn := inject_Z n) in *. set (qm := inject_Z m) in *.
    set (d := drift eps eta (map amount_of txns)) in *.
    set (F1 := sum_Q (fun k => float_sum fl k txns) ks) in *.
    set (F2 := sum_Q (fun k => float_sum fl k txns) ks') in *.
    set (X1 := sum_Q (fun k => exact_sum k txns) ks) in *.
    set (X2 := sum_Q (fun k => exact_sum k txns) ks') in *.
    set (E1 := sum_Q _ ks) in *. set (E2 := sum_Q _ ks') in *.
    clearbody qa qb qn qm d F1 F2 X1 X2 E1 E2. split; lra. }
  rewrite Nat2Z.inj_add. fold n m. lia.
Qed.

End AccumulationFacts.

(** ** The aggregation *)

Section AggregationFacts.

Local Open Scope Q_scope.

Variable month_key : string -> option string.
Variable fl : Q -> Q.

Lemma rollup_snoc (txns : list Transaction) (t : Transaction) :
  rollup month_key fl (txns ++ [t]) = process month_key fl (rollup month_key fl txns) t.
Proof. unfold rollup. rewrite fold_left_app. reflexivity. Qed.

(** The two grand totals are the running totals of the debits and of the
    rest. *)
Lemma rollup_totals (txns : list Transaction) :
  total_debit (rollup month_key fl txns) = float_sum fl is_debit txns /\
  total_credit (rollup month_key fl txns) = float_sum fl is_credit txns.
Proof.
  induction txns as [| t txns IH] using rev_ind; [split; reflexivity |].
  destruct IH as [D C].
  rewrite rollup_snoc, !float_sum_snoc. unfold process.
  cbn [total_debit total_credit]. rewrite D, C.
  unfold is_credit, is_debit, float_add, amount_of.
  destruct (String.eqb (get (type t) "debit"%string) "debit"); split; reflexivity.
Qed.

Lemma category_total_unseen (c : string) (txns : list Transaction) :
  ~ In c (map category_of txns) -> category_total fl c txns = 0%Q.
Proof.
  intro H. apply float_sum_unhit. intros t Ht. unfold in_category.
  destruct (String.eqb (category_of t) c) eqn:E; [| reflexivity].
  apply String.eqb_eq in E. exfalso. apply H. rewrite <- E. apply in_map, Ht.
Qed.

(** The category rollup: one entry per category, in order of first
    occurrence in the input, holding the running total of the category. *)
Lemma category_totals_rollup (txns : list Transaction) :
  category_totals (rollup month_key fl txns)
  = map (fun c => (c, category_total fl c txns)) (first_seen (map category_of txns)).
Proof.
  induction txns as [| t txns IH] using rev_ind; [reflexivity |].
  rewrite rollup_snoc. unfold category_totals, process. cbn [category_stats].
  rewrite (map_update CategoryStats.total CategoryStats.empty _
             (fun T => float_add fl T (get (amount t) 0))) by reflexivity.
  unfold category_totals in IH. rewrite IH.
  change (CategoryStats.total CategoryStats.empty) with 0%Q.
  rewrite update_keyed_with.
  - rewrite map_app. cbn [map]. rewrite first_seen_snoc.
    change (get (category t) "Unknown"%string) with (category_of t).
    apply map_ext. intro c. unfold category_total. rewrite float_sum_snoc.
    unfold in_category. rewrite (String.eqb_sym c). reflexivity.
  - apply first_seen_NoDup.
  - intro H. apply category_total_unseen. rewrite first_seen_In in H. exact H.
Qed.


Lemma category_stats_nonempty (txns : list Transaction) :
  txns <> [] -> category_stats (rollup month_key fl txns) <> [].
Proof.
  destruct txns as [| t txns] using rev_ind; [congruence | intros _].
  rewrite rollup_snoc. unfold process. cbn [category_stats]. apply update_not_nil.
Qed.

(** Every category of the rollup has counted a transaction. *)
Lemma category_counts_positive (txns : list Transaction) :
  Forall (fun cs => (1 <= CategoryStats.count (snd cs))%nat)
    (category_stats (rollup month_key fl txns)).
Proof.
  induction txns as [| t txns IH] using rev_ind; [constructor |].
  rewrite rollup_snoc. unfold process. cbn [category_stats].
  apply (@update_Forall _ (fun s => (1 <= CategoryStats.count s)%nat)); [| exact IH].
  intro v. cbn [CategoryStats.count]. lia.
Qed.

Lemma float_div_ok (x y : Q) : ~ y == 0 -> float_div fl x y = Ok (fl (x / y)).
Proof.
  intro H. unfold float_div. destruct (Qeq_bool y 0) eqn:E; [| reflexivity].
  apply Qeq_bool_eq in E. contradiction.
Qed.

Lemma float_div_zero (x y : Q) :
  y == 0 -> float_div fl x y = Raise (ZeroDivisionError "float division by zero").
Proof.
  intro H. unfold float_div. apply Qeq_eq_bool in H. rewrite H. reflexivity.
Qed.

(** A count that is not zero divides. *)
Lemma float_div_count (x : Q) (n : nat) :
  (1 <= n)%nat ->
  float_div fl x (inject_Z (Z.of_nat n)) = Ok (fl (x / inject_Z (Z.of_nat n))).
Proof.
  intro H. apply float_div_ok. unfold Qeq. simpl. lia.
Qed.

Lemma category_summaries_ok (stats : list (string * CategoryStats.t)) :
  Forall (fun cs => (1 <= CategoryStats.count (snd cs))%nat) stats ->
  category_summaries fl stats = Ok (map (summary_of fl) stats).
Proof.
  intro H. induction H as [| [cat s] stats Hs H IH]; [reflexivity |].
  cbn [category_summaries]. rewrite float_div_count by exact Hs.
  cbn [bind]. rewrite IH. reflexivity.
Qed.

(** The guard [total_credit > 0] keeps the divisor away from zero. *)
Lemma compute_savings_rate_ok (credit debit : Q) :
  compute_savings_rate fl credit debit = Ok (savings_rate_of fl credit debit).
Proof.
  unfold compute_savings_rate, savings_rate_of, savings_ratio.
  destruct (Qlt_bool 0 credit) eqn:E; [| reflexivity].
  apply Qlt_bool_true in E. rewrite float_div_ok by lra. reflexivity.
Qed.

(** The report of a non-empty collection, field by field: no division of
    the report divides by zero. *)
Lemma summarize_nonempty (txns : list Transaction) :
  txns <> [] ->
  let st := rollup month_key fl txns in
  summarize_transactions month_key fl txns
  = Ok {| message := None;
          overview := Some
            {| Overview.total_transactions := List.length txns;
               Overview.total_debit := float_round2 fl (total_debit st);
               Overview.total_credit := float_round2 fl (total_credit st);
               Overview.net_balance :=
                 float_round2 fl (float_sub fl (total_credit st) (total_debit st));
               Overview.average_transaction :=
                 float_round2 fl
                   (fl (float_add fl (total_debit st) (total_credit st)
                        / inject_Z (Z.of_nat (List.length txns)))) |};
          by_category := Some (map (summary_of fl) (category_stats st));
          top_categories := Some
            (map (top_entry_of fl) (firstn 5 (sorted_by_total (category_stats st))));
          by_user := Some (map (user_summary_of fl) (user_stats st));
          by_payment_method := Some (payment_method_stats st);
          insights := Some
            {| Insights.top_spending_category :=
                 fst (max_by_total (spending_candidates (category_stats st))
                        ("None"%string, 0%Q));
               Insights.top_spending_amount :=
                 float_round2 fl
                   (snd (max_by_total (spending_candidates (category_stats st))
                           ("None"%string, 0%Q)));
               Insights.savings_rate :=
                 savings_rate_of fl (total_credit st) (total_debit st) |} |}.
Proof.
  intro Hne. destruct txns as [| t0 txns0] eqn:Et; [congruence |].
  rewrite <- Et. cbn zeta. rewrite Et at 1. unfold summarize_transactions.
  rewrite <- Et.
  rewrite float_div_count by (rewrite Et; simpl; lia). cbn [bind].
  rewrite category_summaries_ok by apply category_counts_positive. cbn [bind].
  rewrite compute_savings_rate_ok. reflexivity.
Qed.

Lemma hits_in_category (cats : list string) (t : Transaction) :
  NoDup cats ->
  hits (map in_category cats) t = if seen (category_of t) cats then 1%nat else 0%nat.
Proof.
  intro H. induction H as [| c cats Hc H IH]; [reflexivity |].
  cbn [map]. rewrite hits_cons, IH. unfold seen. cbn [existsb].
  unfold in_category at 1.
  destruct (String.eqb (category_of t) c) eqn:E; cbn [orb]; [| reflexivity].
  apply String.eqb_eq in E. subst c.
  destruct (existsb (String.eqb (category_of t)) cats) eqn:S; [| reflexivity].
  exfalso. apply Hc. apply seen_In. exact S.
Qed.

(** Every transaction is added to the total of one category, and to one of
    the two grand totals. *)
Lemma categories_share (txns : list Transaction) (t : Transaction) :
  In t txns ->
  hits (map in_category (first_seen (map category_of txns))) t = 1%nat /\
  hits [is_debit; is_credit] t = 1%nat.
Proof.
  intro Ht. split.
  - rewrite hits_in_category by apply first_seen_NoDup.
    assert (S : seen (category_of t) (first_seen (map category_of txns)) = true).
    { apply seen_In, first_seen_In, in_map, Ht. }
    rewrite S. reflexivity.
  - unfold hits, is_credit. cbn [filter]. destruct (is_debit t); reflexivity.
Qed.

Lemma binary64_error_bounded : error_bounded binary64 (pow2 (-53)) (pow2 (-1075)).
Proof.
  split; [apply Qlt_le_weak, pow2_pos |]. split; [apply Qlt_le_weak, pow2_pos |].
  apply binary64_error.
Qed.

Lemma binary64_is_monotone : monotone binary64.
Proof. intros x y H. apply binary64_monotone, H. Qed.


End AggregationFacts.

Section AggregationTheorems.

Local Open Scope Q_scope.

(** The worked scenario in binary64: debits of 100 and 200 in Food and a
    credit of 1000 in Income give the totals 300 and 1000, the balance 700,
    the average 433.33, Food with 300 as top spending category and a
    savings rate of 70. *)
Example summary_of_three_txns :
  exists summary ov ins,
    summarize_transactions toy_month binary64 three_txns = Ok summary /\
    overview summary = Some ov /\ insights summary = Some ins /\
    Overview.total_transactions ov = 3%nat /\
    Overview.total_debit ov == 300 /\
    Overview.total_credit ov == 1000 /\
    Overview.net_balance ov == 700 /\
    Overview.average_transaction ov == binary64 (43333 # 100) /\
    Insights.top_spending_category ins = "Food"%string /\
    Insights.top_spending_amount ins == 300 /\
    Insights.savings_rate ins == 70.
Proof.
  do 3 eexists. split; [vm_compute; reflexivity |].
  split; [reflexivity |]. split; [reflexivity |].
  repeat split; vm_compute; reflexivity.
Qed.

(** A debit of [2^53] and two debits of 1 in another category: each
    addition of 1 to the grand total is rounded away, so [total_debit] is
    [2^53] while the category totals add up to [2^53 + 2]. *)
Lemma category_totals_beyond_tolerance :
  exists summary bc ov,
    summarize_transactions toy_month binary64 large_then_small = Ok summary /\
    by_category summary = Some bc /\ overview summary = Some ov /\
    sum_total_amount bc - (Overview.total_debit ov + Overview.total_credit ov) == 2 /\
    ~ Qabs (sum_total_amount bc - (Overview.total_debit ov + Overview.total_credit ov))
      <= (1 # 100) * inject_Z (Z.of_nat (List.length bc)).
Proof.
  do 3 eexists. split; [vm_compute; reflexivity |].
  split; [reflexivity |]. split; [reflexivity |].
  split; [vm_compute; reflexivity |].
  intro H. vm_compute in H. apply H. reflexivity.
Qed.

(** C3.  For a non-empty collection whose amounts are small enough for
    binary64 -- the bound [drift] on the rounding error of the running
    totals stays below 1/400 -- the report's [total_amount] of every
    category and the overview's [total_debit] and [total_credit] are the
    floats nearest to two-decimal values, and these values agree within
    0.01 per category: the category values add up to the sum of the two
    overview values.  Every amount is added unrounded to two decimals to
    one category total and to one of the two grand totals, which are
    rounded to two decimals only when the report is built. *)
Theorem category_totals_match_overview (month_key : string -> option string)
    (fl : Q -> Q) (eps eta : Q) (txns : list Transaction) :
  error_bounded fl eps eta ->
  txns <> [] ->
  400 * drift eps eta (map amount_of txns) < 1 ->
  exists summary bc ov,
    summarize_transactions month_key fl txns = Ok summary /\
    by_category summary = Some bc /\
    overview summary = Some ov /\
    let st := rollup month_key fl txns in
    let decimal := fun cs : string * CategoryStats.t => round2 (CategoryStats.total (snd cs)) in
    map (fun e => CategorySummary.total_amount (snd e)) bc
    = map (fun cs => fl (decimal cs)) (category_stats st) /\
    Overview.total_debit ov = fl (round2 (total_debit st)) /\
    Overview.total_credit ov = fl (round2 (total_credit st)) /\
    Qabs (sum_Q decimal (category_stats st)
          - (round2 (total_debit st) + round2 (total_credit st)))
    <= (1 # 100) * inject_Z (Z.of_nat (List.length bc)).
Proof.
  intros Hb Hne Hd.
  assert (S := @summarize_nonempty month_key fl txns Hne). cbn zeta in S.
  do 3 eexists. split; [exact S |]. cbn [by_category overview].
  split; [reflexivity |]. split; [reflexivity |]. cbn zeta.
  split; [rewrite map_map; reflexivity |].
  split; [reflexivity |]. split; [reflexivity |].
  cbn [Overview.total_debit Overview.total_credit]. rewrite length_map.
  set (cats := first_seen (map category_of txns)).
  set (ks := map in_category cats).
  set (F := fun k : Transaction -> bool => float_sum fl k txns).
  assert (T : map (fun cs => CategoryStats.total (snd cs))
                (category_stats (rollup month_key fl txns))
              = map F ks).
  { assert (R := @category_totals_rollup month_key fl txns).
    apply (f_equal (map snd)) in R. unfold category_totals in R.
    rewrite !map_map in R. cbn [snd] in R. rewrite R.
    unfold ks. rewrite map_map. reflexivity. }
  assert (L : List.length (category_stats (rollup month_key fl txns)) = List.length ks).
  { apply (f_equal (@List.length Q)) in T. rewrite !length_map in T. exact T. }
  assert (N : category_stats (rollup month_key fl txns) <> [])
    by (apply category_stats_nonempty, Hne).
  destruct (rollup_totals month_key fl txns) as [D C]. rewrite D, C.
  rewrite <- (sum_Q_map (fun cs => CategoryStats.total (snd cs)) round2), T, sum_Q_map.
  rewrite L. fold (F is_debit). fold (F is_credit).
  assert (B := @rounded_families_close fl eps eta ks [is_debit; is_credit] txns Hb).
  specialize (B ltac:(intros t Ht; destruct (categories_share txns t Ht) as [H1 H2];
                      fold cats in H1; fold ks in H1; rewrite H1, H2; split; lia) Hd).
  fold F in B. cbn [cents_of fold_right List.length] in B.
  rewrite sum_round2_cents, !round2_spec.
  fold (hundredths (F is_debit)). fold (hundredths (F is_credit)).
  set (za := cents_of F ks) in *.
  set (zd := hundredths (F is_debit)) in *. set (zc := hundredths (F is_credit)) in *.
  assert (K : (1 <= Z.of_nat (List.length ks))%Z).
  { rewrite <- L. destruct (category_stats (rollup month_key fl txns));
      [congruence | simpl; lia]. }
  set (n := Z.of_nat (List.length ks)) in *.
  assert (B' : (- n <= za + - zd + - zc <= n)%Z) by lia.
  rewrite !Zle_Qle, !inject_Z_plus, !inject_Z_opp in B'.
  apply Qabs_Qle_condition.
  set (qa := inject_Z za) in *. set (qd := inject_Z zd) in *.
  set (qc := inject_Z zc) in *. set (qn := inject_Z n) in *.
  clearbody qa qd qc qn. split; lra.
Qed.

Lemma category_totals_match_overview_witness :
  exists summary bc ov,
    summarize_transactions toy_month binary64 [lunch; flight; salary] = Ok summary /\
    by_category summary = Some bc /\
    overview summary = Some ov /\
    Qabs (sum_Q (fun cs => round2 (CategoryStats.total (snd cs)))
            (category_stats (rollup toy_month binary64 [lunch; flight; salary]))
          - (round2 (total_debit (rollup toy_month binary64 [lunch; flight; salary]))
             + round2 (total_credit (rollup toy_month binary64 [lunch; flight; salary]))))%Q
    <= (1 # 100) * inject_Z (Z.of_nat (List.length bc)).
Proof.
  destruct (@category_totals_match_overview toy_month binary64 (pow2 (-53)) (pow2 (-1075))
              [lunch; flight; salary] binary64_error_bounded ltac:(discriminate)
              ltac:(vm_compute; reflexivity))
    as [summary [bc [ov [S [B [O [_ [_ [_ H]]]]]]]]].
  exists summary, bc, ov. repeat split; assumption.
Defined.




(** The floats 0.6 in Travel, then 0.5 and 0.1 in Food: the running total of
    Food is rounded to the float 0.6, the two categories tie and Travel,
    seen first, is reported -- although the amounts of Food add up to more
    than the amount of Travel. *)
Example tie_of_running_totals :
  exists summary ins,
    summarize_transactions toy_month binary64 tied_categories = Ok summary /\
    insights summary = Some ins /\
    Insights.top_spending_category ins = "Travel"%string /\
    category_total binary64 "Food" tied_categories
    == category_total binary64 "Travel" tied_categories /\
    exact_sum (in_category "Travel") tied_categories
    < exact_sum (in_category "Food") tied_categories.
Proof.
  do 2 eexists. split; [vm_compute; reflexivity |]. split; [reflexivity |].
  repeat split; vm_compute; reflexivity.
Qed.



(** C6.  [summarize_transactions] of the empty collection returns the dict
    whose only key is ['message'] (no ['overview'], ['by_category'] or
    ['insights']), and [generate_text_summary] of the empty collection
    returns that message, raising nothing. *)
Theorem empty_collection_sentinel (month_key : string -> option string) (fl : Q -> Q)
    (fmt_money : Q -> string) (str_int : nat -> string) (str_number : Q -> string) :
  exists summary,
    summarize_transactions month_key fl [] = Ok summary /\
    message summary = Some "No transactions to summarize"%string /\
    (forall key, has_key summary key = true -> key = "message"%string) /\
    has_key summary "overview" = false /\
    has_key summary "by_category" = false /\
    has_key summary "insights" = false /\
    generate_text_summary month_key fl fmt_money str_int str_number []
    = Ok "No transactions to summarize"%string.
Proof.
  eexists. split; [reflexivity |]. repeat split.
  intros key H. unfold has_key in H. simpl in H.
  destruct (String.eqb key "message") eqn:E; [apply String.eqb_eq, E |].
  repeat match type of H with
         | (if ?b then _ else _) = true => destruct b
         end; discriminate.
Qed.

End AggregationTheorems.


(* ===================================================================== *)
(** * Properties of the remaining operations *)
(* ===================================================================== *)

(** ** Sorting and slicing *)

(** ** Sorting and slicing *)

Section SortFacts.

Variable A : Type.
Variable before : A -> A -> bool.

Lemma insert_with_perm (a : A) (l : list A) : Permutation (insert_with before a l) (a :: l).
Proof.
  induction l as [| b l IH]; simpl; [apply Permutation_refl |].
  destruct (before b a); [| apply Permutation_refl].
  eapply Permutation_trans; [apply perm_skip, IH | apply perm_swap].
Qed.

Lemma sort_with_perm (l : list A) : Permutation (sort_with before l) l.
Proof.
  unfold sort_with.
  assert (G : forall acc,
             Permutation (fold_left (fun s a => insert_with before a s) l acc) (acc ++ l)).
  { induction l as [| a l IH]; intro acc; simpl.
    - rewrite app_nil_r. apply Permutation_refl.
    - eapply Permutation_trans; [apply IH |].
      eapply Permutation_trans; [apply Permutation_app_tail, insert_with_perm |].
      simpl. apply Permutation_middle. }
  apply (G []).
Qed.

Hypothesis before_total : forall a b, before a b = true \/ before b a = true.
Hypothesis before_trans :
  forall a b c, before a b = true -> before b c = true -> before a c = true.

Lemma insert_with_sorted (a : A) (l : list A) :
  StronglySorted (fun x y => before x y = true) l ->
  StronglySorted (fun x y => before x y = true) (insert_with before a l).
Proof.
  induction 1 as [| b l Hs IH Hb]; simpl.
  - constructor; constructor.
  - destruct (before b a) eqn:E.
    + constructor; [exact IH |].
      apply Forall_forall. intros x Hx.
      apply (Permutation_in _ (insert_with_perm a l)) in Hx.
      destruct Hx as [Hx | Hx]; [subst; exact E |].
      rewrite Forall_forall in Hb. apply Hb, Hx.
    + assert (Hab : before a b = true).
      { destruct (before_total a b) as [H | H]; [exact H | congruence]. }
      constructor; [constructor; assumption |].
      constructor; [exact Hab |].
      rewrite Forall_forall in *. intros x Hx. eapply before_trans; [exact Hab | apply Hb, Hx].
Qed.

Lemma sort_with_sorted (l : list A) :
  StronglySorted (fun x y => before x y = true) (sort_with before l).
Proof.
  unfold sort_with.
  assert (G : forall acc,
             StronglySorted (fun x y => before x y = true) acc ->
             StronglySorted (fun x y => before x y = true)
               (fold_left (fun s a => insert_with before a s) l acc)).
  { induction l as [| a l IH]; intros acc Hacc; simpl; [exact Hacc |].
    apply IH, insert_with_sorted, Hacc. }
  apply G. constructor.
Qed.

End SortFacts.

Lemma ascii_compare_trans (a b c : ascii) :
  Ascii.compare a b <> Gt -> Ascii.compare b c <> Gt -> Ascii.compare a c <> Gt.
Proof.
  unfold Ascii.compare. rewrite !N.compare_le_iff. lia.
Qed.

Lemma string_compare_trans (a b c : string) :
  String.compare a b <> Gt -> String.compare b c <> Gt -> String.compare a c <> Gt.
Proof.
  revert b c. induction a as [| x a IH]; intros [| y b] [| z c]; simpl;
    try congruence.
  intros H1 H2.
  destruct (Ascii.compare x y) eqn:Exy; try congruence;
    destruct (Ascii.compare y z) eqn:Eyz; try congruence.
  - apply Ascii.compare_eq_iff in Exy, Eyz. subst.
    assert (R : Ascii.compare z z = Eq) by (unfold Ascii.compare; apply N.compare_refl).
    rewrite R. eapply IH; eassumption.
  - apply Ascii.compare_eq_iff in Exy. subst. rewrite Eyz. congruence.
  - apply Ascii.compare_eq_iff in Eyz. subst. rewrite Exy. congruence.
  - assert (L : Ascii.compare x z = Lt).
    { unfold Ascii.compare in *. rewrite N.compare_lt_iff in *. lia. }
    rewrite L. congruence.
Qed.

Lemma string_leb_trans (a b c : string) :
  String.leb a b = true -> String.leb b c = true -> String.leb a c = true.
Proof.
  unfold String.leb. intros H1 H2.
  assert (K := @string_compare_trans a b c).
  destruct (String.compare a b), (String.compare b c), (String.compare a c);
    try reflexivity; try discriminate; exfalso; apply K; congruence.
Qed.

Lemma string_leb_refl (a : string) : String.leb a a = true.
Proof. destruct (String.leb_total a a); assumption. Qed.

Lemma slice_to_nonneg (A : Type) (l : list A) (limit : Z) :
  (0 <= limit)%Z -> slice l None (Some limit) = firstn (Z.to_nat limit) l.
Proof.
  intro H. unfold slice, clamp. destruct (Z.ltb_spec limit 0); [lia |].
  simpl. rewrite Z.sub_0_r.
  destruct (Z.le_ge_cases limit (Z.of_nat (List.length l))) as [L | G].
  - rewrite Z.min_l by lia. reflexivity.
  - rewrite Z.min_r by lia. rewrite Nat2Z.id.
    rewrite firstn_all. symmetry. apply firstn_all2. lia.
Qed.

Lemma slice_to_negative (A : Type) (l : list A) (limit : Z) :
  (limit < 0)%Z ->
  slice l None (Some limit) = firstn (List.length l - Z.to_nat (- limit)) l.
Proof.
  intro H. unfold slice, clamp. destruct (Z.ltb_spec limit 0); [| lia].
  simpl. rewrite Z.sub_0_r. f_equal. lia.
Qed.

(** ** Transactions of a user and of a category *)

(** ** Transactions of a user or a category *)

Lemma sorted_app_order (A : Type) (R : A -> A -> Prop) (l1 l2 : list A) :
  StronglySorted R (l1 ++ l2) ->
  StronglySorted R l1 /\ forall a b, In a l1 -> In b l2 -> R a b.
Proof.
  induction l1 as [| x l1 IH]; simpl; intro H.
  - split; [constructor | intros a b []].
  - inversion H as [| ? ? Hs Hx]; subst. destruct (IH Hs) as [S1 O].
    rewrite Forall_forall in Hx. split.
    + constructor; [exact S1 |]. apply Forall_forall. intros y Hy.
      apply Hx, in_app_iff. left. exact Hy.
    + intros a b [Ha | Ha] Hb; [subst; apply Hx, in_app_iff; right; exact Hb |].
      apply O; assumption.
Qed.

Lemma newest_first_sorted (txns : list Transaction) :
  StronglySorted (fun a b => String.leb (timestamp_key b) (timestamp_key a) = true)
    (newest_first txns).
Proof.
  unfold newest_first.
  apply (@sort_with_sorted Transaction
           (fun b a => String.leb (timestamp_key a) (timestamp_key b))).
  - intros a b. apply String.leb_total.
  - intros a b c H1 H2. eapply string_leb_trans; eassumption.
Qed.

(** The selection shared by [get_user_transactions] and
    [get_category_transactions]: the matching transactions, newest first,
    cut by [\[:limit\]]. *)
Lemma newest_slice_spec (keep : Transaction -> bool) (store : list Transaction)
    (limit : Z) :
  let matching := filter keep store in
  let res := slice (newest_first matching) None (Some limit) in
  exists rest,
    Permutation (res ++ rest) matching /\
    Forall (fun t => keep t = true /\ In t store) res /\
    StronglySorted (fun a b => String.leb (timestamp_key b) (timestamp_key a) = true) res /\
    (forall a b, In a res -> In b rest ->
       String.leb (timestamp_key b) (timestamp_key a) = true) /\
    ((0 <= limit)%Z -> List.length res = Nat.min (Z.to_nat limit) (List.length matching)) /\
    ((limit < 0)%Z -> List.length res = (List.length matching - Z.to_nat (- limit))%nat).
Proof.
  intros matching res.
  assert (P := sort_with_perm
                 (fun b a => String.leb (timestamp_key a) (timestamp_key b)) matching).
  fold (newest_first matching) in P.
  assert (S := newest_first_sorted matching).
  assert (L : List.length (newest_first matching) = List.length matching)
    by (apply Permutation_length, P).
  assert (E : exists n, res = firstn n (newest_first matching) /\
                        ((0 <= limit)%Z -> n = Z.to_nat limit) /\
                        ((limit < 0)%Z ->
                         n = (List.length matching - Z.to_nat (- limit))%nat)).
  { unfold res. destruct (Z.ltb_spec limit 0) as [N | N].
    - eexists. split; [apply slice_to_negative, N |]. split; [lia |].
      intros _. rewrite L. reflexivity.
    - eexists. split; [apply slice_to_nonneg, N |]. split; [reflexivity | lia]. }
  destruct E as [n [En [Epos Eneg]]].
  exists (skipn n (newest_first matching)).
  rewrite En. rewrite firstn_skipn.
  rewrite <- (firstn_skipn n (newest_first matching)) in S.
  destruct (@sorted_app_order _ _ _ _ S) as [S1 O].
  repeat split.
  - exact P.
  - apply Forall_forall. intros t Ht.
    assert (Hin : In t matching).
    { apply (Permutation_in _ P). rewrite <- (firstn_skipn n). apply in_app_iff. left. exact Ht. }
    apply filter_In in Hin. tauto.
  - exact S1.
  - exact O.
  - intro H. rewrite length_firstn, L, (Epos H). reflexivity.
  - intro H. rewrite length_firstn, L, (Eneg H). lia.
Qed.

Lemma user_matches (t : Transaction) (uid : string) :
  string_opt_eqb (user_id t) (Some uid) = true <-> user_id t = Some uid.
Proof.
  destruct (user_id t) as [u |]; simpl; [| split; discriminate].
  rewrite String.eqb_eq. split; congruence.
Qed.

Lemma category_matches (t : Transaction) (cat : string) :
  string_opt_eqb (category t) (Some cat) = true <-> category t = Some cat.
Proof.
  destruct (category t) as [c |]; simpl; [| split; discriminate].
  rewrite String.eqb_eq. split; congruence.
Qed.

(** X1.  On a ready service [get_user_transactions] raises nothing and returns
    transactions of the store whose [user_id] equals the argument, newest
    timestamp first (a missing timestamp counts as the empty string): the
    result together with the matching transactions left out is a permutation
    of all matching ones, nothing left out is newer than anything returned,
    and the result holds [min limit n] of the [n] matching transactions for
    [limit >= 0], and all but the [-limit] oldest for a negative [limit]. *)
Theorem get_user_transactions_newest (self : VectorSearchService) (uid : string)
    (limit : Z) :
  is_ready self = true ->
  let store := transactions (embedding_service self) in
  let matching := filter (fun t => string_opt_eqb (user_id t) (Some uid)) store in
  exists res rest,
    get_user_transactions self uid limit = Ok res /\
    Permutation (res ++ rest) matching /\
    Forall (fun t => user_id t = Some uid /\ In t store) res /\
    StronglySorted (fun a b => String.leb (timestamp_key b) (timestamp_key a) = true) res /\
    (forall a b, In a res -> In b rest ->
       String.leb (timestamp_key b) (timestamp_key a) = true) /\
    ((0 <= limit)%Z -> List.length res = Nat.min (Z.to_nat limit) (List.length matching)) /\
    ((limit < 0)%Z -> List.length res = (List.length matching - Z.to_nat (- limit))%nat).
Proof.
  intros Hready store matching.
  destruct (newest_slice_spec (fun t => string_opt_eqb (user_id t) (Some uid)) store limit)
    as [rest [P [F [S [O [Lp Ln]]]]]].
  eexists. exists rest. split.
  { unfold get_user_transactions. rewrite Hready. reflexivity. }
  repeat split; try assumption.
  eapply Forall_impl; [| exact F]. simpl. intros t [K I].
  split; [apply user_matches, K | exact I].
Qed.

Lemma get_user_transactions_newest_witness :
  exists res,
    get_user_transactions three_ready "USER001"%string 1 = Ok res /\
    List.length res = 1%nat /\
    Forall (fun t => user_id t = Some "USER001"%string) res.
Proof.
  pose proof (@get_user_transactions_newest three_ready "USER001"%string 1 eq_refl) as H.
  cbv zeta in H. destruct H as [res [rest [E [_ [F [_ [_ [L _]]]]]]]].
  exists res. split; [exact E |]. split.
  - rewrite L by lia. reflexivity.
  - eapply Forall_impl; [| exact F]. intros t Ht. apply Ht.
Defined.

(** X2.  On a ready service [get_category_transactions] raises nothing and
    returns transactions of the store whose [category] equals the argument,
    newest timestamp first: the result together with the matching
    transactions left out is a permutation of all matching ones, nothing left
    out is newer than anything returned, and the result holds [min limit n]
    of the [n] matching transactions for [limit >= 0], and all but the
    [-limit] oldest for a negative [limit]. *)
Theorem get_category_transactions_newest (self : VectorSearchService) (cat : string)
    (limit : Z) :
  is_ready self = true ->
  let store := transactions (embedding_service self) in
  let matching := filter (fun t => string_opt_eqb (category t) (Some cat)) store in
  exists res rest,
    get_category_transactions self cat limit = Ok res /\
    Permutation (res ++ rest) matching /\
    Forall (fun t => category t = Some cat /\ In t store) res /\
    StronglySorted (fun a b => String.leb (timestamp_key b) (timestamp_key a) = true) res /\
    (forall a b, In a res -> In b rest ->
       String.leb (timestamp_key b) (timestamp_key a) = true) /\
    ((0 <= limit)%Z -> List.length res = Nat.min (Z.to_nat limit) (List.length matching)) /\
    ((limit < 0)%Z -> List.length res = (List.length matching - Z.to_nat (- limit))%nat).
Proof.
  intros Hready store matching.
  destruct (newest_slice_spec (fun t => string_opt_eqb (category t) (Some cat)) store limit)
    as [rest [P [F [S [O [Lp Ln]]]]]].
  eexists. exists rest. split.
  { unfold get_category_transactions. rewrite Hready. reflexivity. }
  repeat split; try assumption.
  eapply Forall_impl; [| exact F]. simpl. intros t [K I].
  split; [apply category_matches, K | exact I].
Qed.

Lemma get_category_transactions_newest_witness :
  exists res,
    get_category_transactions three_ready "Travel"%string 5 = Ok res /\
    List.length res = 1%nat /\
    Forall (fun t => category t = Some "Travel"%string) res.
Proof.
  pose proof (@get_category_transactions_newest three_ready "Travel"%string 5 eq_refl) as H.
  cbv zeta in H. destruct H as [res [rest [E [_ [F [_ [_ [L _]]]]]]]].
  exists res. split; [exact E |]. split.
  - rewrite L by lia. reflexivity.
  - eapply Forall_impl; [| exact F]. intros t Ht. apply Ht.
Defined.

(** ** Statistics of the store *)

(** ** Statistics of the indexed transactions *)

Lemma user_ids_ok (txns : list Transaction) :
  (forall t, In t txns -> user_id t <> None) ->
  user_ids txns = Ok (map (fun t => get (user_id t) EmptyString) txns).
Proof.
  induction txns as [| t txns IH]; intro H; simpl; [reflexivity |].
  destruct (user_id t) as [u |] eqn:E.
  - rewrite IH by (intros; apply H; right; assumption). reflexivity.
  - exfalso. apply (H t); [left; reflexivity | exact E].
Qed.

Lemma user_ids_raise (txns : list Transaction) :
  (exists t, In t txns /\ user_id t = None) -> user_ids txns = Raise (KeyError "user_id").
Proof.
  induction txns as [| t txns IH]; intros [t' [Hin Hn]]; simpl; [destruct Hin |].
  destruct (user_id t) as [u |] eqn:E; [| reflexivity].
  rewrite IH; [reflexivity |].
  destruct Hin as [-> | Hin]; [congruence | exists t'; tauto].
Qed.

Lemma all_or_missing (txns : list Transaction) :
  (forall t, In t txns -> user_id t <> None) \/ (exists t, In t txns /\ user_id t = None).
Proof.
  induction txns as [| t txns [IH | [t' [Hin Hn]]]].
  - left. intros t [].
  - destruct (user_id t) eqn:E.
    + left. intros t' [<- | H]; [congruence | apply IH, H].
    + right. exists t. split; [left; reflexivity | exact E].
  - right. exists t'. split; [right; exact Hin | exact Hn].
Qed.

(** X3.  [get_transaction_stats] on a service that is not ready returns the
    dict with the single key ['error'] and raises nothing.  On a ready
    service it raises [KeyError('user_id')] exactly when some stored
    transaction has no [user_id] key, and returns the statistics exactly when
    every stored transaction has one. *)
Theorem get_transaction_stats_errors (fl : Q -> Q) (self : VectorSearchService) :
  (is_ready self = false ->
   get_transaction_stats fl self = Ok (StatsError "Service not initialized")) /\
  (is_ready self = true ->
   ((exists t, In t (transactions (embedding_service self)) /\ user_id t = None)
    <-> get_transaction_stats fl self = Raise (KeyError "user_id")) /\
   ((forall t, In t (transactions (embedding_service self)) -> user_id t <> None)
    <-> exists stats, get_transaction_stats fl self = Ok (StatsReport stats))).
Proof.
  unfold get_transaction_stats. split.
  - intros ->. reflexivity.
  - intros ->. cbn [negb].
    destruct (all_or_missing (transactions (embedding_service self))) as [A | M].
    + rewrite user_ids_ok by exact A. cbn [bind]. split; split.
      * intros [t [Hin Hn]]. exfalso. exact (A t Hin Hn).
      * discriminate.
      * intros _. eexists. reflexivity.
      * intros _. exact A.
    + rewrite user_ids_raise by exact M. cbn [bind]. split; split.
      * reflexivity.
      * intros _. exact M.
      * intros A. destruct M as [t [Hin Hn]]. exfalso. exact (A t Hin Hn).
      * intros [stats H]. discriminate.
Qed.

Lemma stats_loop_snoc (fl : Q -> Q) (txns : list Transaction) (t : Transaction) :
  fold_left (stats_step fl) (txns ++ [t]) stats_initial
  = stats_step fl (fold_left (stats_step fl) txns stats_initial) t.
Proof. rewrite fold_left_app. reflexivity. Qed.

Lemma category_count_snoc (c : string) (txns : list Transaction) (t : Transaction) :
  category_count c (txns ++ [t])
  = if String.eqb (category_of t) c then (category_count c txns + 1)%nat
    else category_count c txns.
Proof.
  unfold category_count. rewrite filter_app, length_app. simpl.
  destruct (String.eqb (category_of t) c); simpl; lia.
Qed.

Lemma category_count_unseen (c : string) (txns : list Transaction) :
  ~ In c (map category_of txns) -> category_count c txns = 0%nat.
Proof.
  unfold category_count. induction txns as [| t txns IH]; simpl; intro H; [reflexivity |].
  destruct (String.eqb (category_of t) c) eqn:E.
  - apply String.eqb_eq in E. tauto.
  - apply IH. tauto.
Qed.

Lemma stats_categories (fl : Q -> Q) (txns : list Transaction) :
  loop_categories (fold_left (stats_step fl) txns stats_initial)
  = map (fun c => (c, category_count c txns)) (first_seen (map category_of txns)).
Proof.
  induction txns as [| t txns IH] using rev_ind; [reflexivity |].
  rewrite stats_loop_snoc. unfold stats_step at 1. cbn [loop_categories].
  rewrite IH.
  rewrite update_keyed_with.
  - rewrite map_app. cbn [map]. rewrite first_seen_snoc.
    change (get (category t) "Unknown"%string) with (category_of t).
    apply map_ext. intro c. rewrite category_count_snoc, (String.eqb_sym c). reflexivity.
  - apply first_seen_NoDup.
  - intro H. apply category_count_unseen. rewrite first_seen_In in H. exact H.
Qed.

Lemma stats_sum_counts (fl : Q -> Q) (txns : list Transaction) :
  sum_counts (loop_categories (fold_left (stats_step fl) txns stats_initial))
  = List.length txns.
Proof.
  assert (U : forall key d,
             sum_counts (update 0%nat (fun n => (n + 1)%nat) key d) = S (sum_counts d)).
  { intros key d. induction d as [| [k v] d IHd]; simpl; [reflexivity |].
    destruct (String.eqb k key); simpl; [lia | rewrite IHd; lia]. }
  induction txns as [| t txns IH] using rev_ind; [reflexivity |].
  rewrite stats_loop_snoc. unfold stats_step at 1. cbn [loop_categories].
  rewrite U, IH, length_app. simpl. lia.
Qed.

Lemma get_transaction_stats_report (fl : Q -> Q) (self : VectorSearchService) (stats : Stats.t) :
  get_transaction_stats fl self = Ok (StatsReport stats) ->
  let txns := transactions (embedding_service self) in
  let st := fold_left (stats_step fl) txns stats_initial in
  exists ids,
    user_ids txns = Ok ids /\
    stats =
    {| Stats.total_transactions := List.length txns;
       Stats.total_users := List.length (first_seen ids);
       Stats.users := sorted_strings (first_seen ids);
       Stats.categories := loop_categories st;
       Stats.total_amount := float_round2 fl (loop_total_amount st);
       Stats.total_debit := float_round2 fl (debit_amount st);
       Stats.total_credit := float_round2 fl (credit_amount st);
       Stats.net_balance :=
         float_round2 fl (float_sub fl (credit_amount st) (debit_amount st)) |}.
Proof.
  unfold get_transaction_stats. destruct (is_ready self); cbn [negb]; [| discriminate].
  destruct (user_ids (transactions (embedding_service self))) as [ids | e];
    cbn [bind]; [| discriminate].
  intro H. exists ids. split; [reflexivity |]. inversion H. reflexivity.
Qed.

(** X4.  In the statistics, [total_transactions] is the size of the store and
    [categories] lists every category of the store once, in order of first
    occurrence (['Unknown'] for a missing key), with the number of its
    transactions; these numbers add up to [total_transactions]. *)
Theorem get_transaction_stats_categories (fl : Q -> Q) (self : VectorSearchService) (stats : Stats.t) :
  get_transaction_stats fl self = Ok (StatsReport stats) ->
  let txns := transactions (embedding_service self) in
  Stats.total_transactions stats = List.length txns /\
  Stats.categories stats
  = map (fun c => (c, category_count c txns)) (first_seen (map category_of txns)) /\
  sum_counts (Stats.categories stats) = Stats.total_transactions stats.
Proof.
  intros H txns. destruct (@get_transaction_stats_report fl self _ H) as [ids [_ ->]].
  cbn [Stats.total_transactions Stats.categories].
  fold txns. repeat split.
  - apply stats_categories.
  - apply stats_sum_counts.
Qed.

Lemma get_transaction_stats_categories_witness :
  exists stats,
    get_transaction_stats binary64 three_ready = Ok (StatsReport stats) /\
    Stats.total_transactions stats = 3%nat /\
    sum_counts (Stats.categories stats) = Stats.total_transactions stats.
Proof.
  eexists. split; [reflexivity |].
  pose proof (@get_transaction_stats_categories binary64 three_ready _ eq_refl) as H.
  cbv zeta in H. destruct H as [T [_ S]]. split; [exact T | exact S].
Defined.

Lemma user_ids_In (txns : list Transaction) (ids : list string) (u : string) :
  user_ids txns = Ok ids ->
  (In u ids <-> exists t, In t txns /\ user_id t = Some u).
Proof.
  revert ids. induction txns as [| t txns IH]; intros ids; simpl.
  - intro H. inversion H. simpl. split; [intros [] | intros [t [[] _]]].
  - destruct (user_id t) as [u0 |] eqn:E; [| discriminate].
    destruct (user_ids txns) as [us | e]; cbn [bind]; [| discriminate].
    intro H. inversion H; subst. simpl. rewrite (IH us eq_refl). split.
    + intros [-> | [t' [Hin Hu]]]; [exists t; tauto | exists t'; tauto].
    + intros [t' [[<- | Hin] Hu]]; [left; congruence | right; exists t'; tauto].
Qed.

(** X5.  In the statistics, [users] is strictly ascending, holds exactly the
    user ids that occur in the store, and [total_users] is its length. *)
Theorem get_transaction_stats_users (fl : Q -> Q) (self : VectorSearchService) (stats : Stats.t) :
  get_transaction_stats fl self = Ok (StatsReport stats) ->
  StronglySorted (fun a b => String.ltb a b = true) (Stats.users stats) /\
  (forall u, In u (Stats.users stats)
             <-> exists t, In t (transactions (embedding_service self)) /\
                           user_id t = Some u) /\
  Stats.total_users stats = List.length (Stats.users stats).
Proof.
  intro H. destruct (@get_transaction_stats_report fl self _ H) as [ids [Hids ->]].
  cbn [Stats.users Stats.total_users].
  assert (P := sort_with_perm String.leb (first_seen ids)).
  fold (sorted_strings (first_seen ids)) in P.
  assert (S : StronglySorted (fun a b => String.leb a b = true)
                (sorted_strings (first_seen ids))).
  { apply sort_with_sorted; [apply String.leb_total |].
    intros a b c. apply string_leb_trans. }
  assert (N : NoDup (sorted_strings (first_seen ids))).
  { eapply Permutation_NoDup; [apply Permutation_sym, P | apply first_seen_NoDup]. }
  repeat split.
  - clear - S N. induction S as [| a l Hs IH Ha]; [constructor |].
    inversion N as [| ? ? Hnotin Hnd]; subst.
    constructor; [apply IH, Hnd |].
    rewrite Forall_forall in *. intros b Hb. specialize (Ha b Hb).
    unfold String.ltb, String.leb in *.
    destruct (String.compare a b) eqn:E; try reflexivity; try discriminate.
    apply String.compare_eq_iff in E. subst. contradiction.
  - intro Hu. apply (Permutation_in _ P) in Hu. apply -> first_seen_In in Hu.
    apply (@user_ids_In _ _ u Hids). exact Hu.
  - intro Hu. apply (Permutation_in _ (Permutation_sym P)).
    apply <- first_seen_In. apply (@user_ids_In _ _ u Hids). exact Hu.
  - symmetry. apply Permutation_length, P.
Qed.

Lemma get_transaction_stats_users_witness :
  exists stats,
    get_transaction_stats binary64 three_ready = Ok (StatsReport stats) /\
    In "USER002"%string (Stats.users stats) /\
    Stats.total_users stats = List.length (Stats.users stats).
Proof.
  eexists. split; [reflexivity |].
  destruct (@get_transaction_stats_users binary64 three_ready _ eq_refl) as [_ [I L]].
  split; [| exact L]. apply I. exists february_salary. split; [| reflexivity].
  right. right. left. reflexivity.
Defined.

Section StatsAmounts.

Local Open Scope Q_scope.

Variable fl : Q -> Q.

Lemma type_tests (t : Transaction) :
  debit_or_credit t ->
  (string_opt_eqb (type t) (Some "debit"%string) = true /\
   String.eqb (get (type t) "debit"%string) "debit" = true) \/
  (string_opt_eqb (type t) (Some "debit"%string) = false /\
   string_opt_eqb (type t) (Some "credit"%string) = true /\
   String.eqb (get (type t) "debit"%string) "debit" = false).
Proof.
  intros [E | E]; rewrite E; [left | right]; repeat split.
Qed.

(** The three amounts of the statistics are running totals: of all
    transactions, of those of type ['debit'] and of those of type
    ['credit']. *)
Lemma stats_amounts_totals (txns : list Transaction) :
  let st := fold_left (stats_step fl) txns stats_initial in
  loop_total_amount st = float_sum fl every txns /\
  debit_amount st
  = float_sum fl (fun t => string_opt_eqb (type t) (Some "debit"%string)) txns /\
  credit_amount st
  = float_sum fl (fun t => negb (string_opt_eqb (type t) (Some "debit"%string))
                           && string_opt_eqb (type t) (Some "credit"%string)) txns.
Proof.
  induction txns as [| t txns IH] using rev_ind; cbn zeta; [repeat split |].
  rewrite stats_loop_snoc, !float_sum_snoc. cbn zeta in IH. destruct IH as [T [D C]].
  set (st := fold_left (stats_step fl) txns stats_initial) in *. clearbody st.
  unfold stats_step. cbn [loop_total_amount debit_amount credit_amount].
  rewrite T, D, C. unfold every, float_add, amount_of.
  destruct (string_opt_eqb (type t) (Some "debit"%string));
    destruct (string_opt_eqb (type t) (Some "credit"%string)); repeat split.
Qed.

End StatsAmounts.

(** X6.  When every stored transaction is of type ['debit'] or ['credit'] and
    the amounts are small enough for binary64 -- the bound [drift] on the
    rounding error of the running totals stays below 1/400 --, the
    [total_amount], [total_debit] and [total_credit] of the statistics are
    the floats nearest to two-decimal values, and the value of
    [total_amount] differs from the sum of the values of [total_debit] and
    [total_credit] by at most one hundredth. *)
Theorem get_transaction_stats_amounts (fl : Q -> Q) (eps eta : Q)
    (self : VectorSearchService) (stats : Stats.t) :
  error_bounded fl eps eta ->
  get_transaction_stats fl self = Ok (StatsReport stats) ->
  (forall t, In t (transactions (embedding_service self)) -> debit_or_credit t) ->
  (400 * drift eps eta (map amount_of (transactions (embedding_service self))) < 1)%Q ->
  let st := fold_left (stats_step fl) (transactions (embedding_service self)) stats_initial in
  Stats.total_amount stats = fl (round2 (loop_total_amount st)) /\
  Stats.total_debit stats = fl (round2 (debit_amount st)) /\
  Stats.total_credit stats = fl (round2 (credit_amount st)) /\
  (Qabs (round2 (loop_total_amount st)
         - (round2 (debit_amount st) + round2 (credit_amount st))) <= 1 # 100)%Q.
Proof.
  intros Hb H Hty Hd. destruct (@get_transaction_stats_report fl self _ H) as [ids [_ ->]].
  cbn zeta. cbn [Stats.total_amount Stats.total_debit Stats.total_credit].
  split; [reflexivity |]. split; [reflexivity |]. split; [reflexivity |].
  set (txns := transactions (embedding_service self)) in *.
  destruct (stats_amounts_totals fl txns) as [T [D C]]. cbn zeta in T, D, C.
  rewrite T, D, C.
  set (deb := fun t : Transaction => string_opt_eqb (type t) (Some "debit"%string)).
  set (cre := fun t : Transaction =>
                negb (string_opt_eqb (type t) (Some "debit"%string))
                && string_opt_eqb (type t) (Some "credit"%string)).
  assert (B := @rounded_families_close fl eps eta [every] [deb; cre] txns Hb).
  assert (Hh : forall t, In t txns ->
                 hits [every] t = hits [deb; cre] t /\ (hits [every] t <= 1)%nat).
  { intros t Ht. unfold hits, deb, cre, every. cbn [filter].
    destruct (type_tests (Hty t Ht)) as [[E1 _] | [E1 [E2 _]]];
      rewrite ?E1, ?E2; cbn; split; lia. }
  specialize (B Hh Hd). cbn [cents_of fold_right List.length] in B.
  rewrite !round2_spec.
  fold (hundredths (float_sum fl every txns)). fold (hundredths (float_sum fl deb txns)).
  fold (hundredths (float_sum fl cre txns)).
  set (zt := hundredths (float_sum fl every txns)) in *.
  set (zd := hundredths (float_sum fl deb txns)) in *.
  set (zc := hundredths (float_sum fl cre txns)) in *.
  assert (B' : (- (1) <= zt + - zd + - zc <= 1)%Z) by lia.
  rewrite !Zle_Qle, !inject_Z_plus, !inject_Z_opp in B'.
  change (inject_Z 1) with 1%Q in B'.
  apply Qabs_Qle_condition.
  set (qt := inject_Z zt) in *. set (qd := inject_Z zd) in *.
  set (qc := inject_Z zc) in *. clearbody qt qd qc. split; lra.
Qed.

Lemma get_transaction_stats_amounts_witness :
  exists stats,
    get_transaction_stats binary64 three_ready = Ok (StatsReport stats) /\
    Stats.total_amount stats
    = binary64 (round2 (loop_total_amount
                          (fold_left (stats_step binary64) three_store stats_initial))) /\
    (Qabs (round2 (loop_total_amount
                     (fold_left (stats_step binary64) three_store stats_initial))
           - (round2 (debit_amount
                        (fold_left (stats_step binary64) three_store stats_initial))
              + round2 (credit_amount
                          (fold_left (stats_step binary64) three_store stats_initial))))
     <= 1 # 100)%Q.
Proof.
  eexists. split; [reflexivity |].
  pose proof (@get_transaction_stats_amounts binary64 (pow2 (-53)) (pow2 (-1075))
                three_ready _ binary64_error_bounded eq_refl) as H.
  cbv zeta in H. destruct H as [T [_ [_ B]]].
  - intros t [<- | [<- | [<- | []]]]; [left | left | right]; reflexivity.
  - vm_compute. reflexivity.
  - split; [exact T | exact B].
Defined.

Lemma stats_match_rollup (month_key : string -> option string) (fl : Q -> Q)
    (txns : list Transaction) :
  (forall t, In t txns -> debit_or_credit t) ->
  debit_amount (fold_left (stats_step fl) txns stats_initial)
  = total_debit (rollup month_key fl txns) /\
  credit_amount (fold_left (stats_step fl) txns stats_initial)
  = total_credit (rollup month_key fl txns).
Proof.
  induction txns as [| t txns IH] using rev_ind; intro H.
  - split; reflexivity.
  - rewrite stats_loop_snoc, rollup_snoc.
    assert (Ht : debit_or_credit t) by (apply H, in_app_iff; right; left; reflexivity).
    destruct IH as [D C]; [intros; apply H, in_app_iff; left; assumption |].
    remember (fold_left (stats_step fl) txns stats_initial) as st eqn:Est. clear Est.
    remember (rollup month_key fl txns) as ro eqn:Ero. clear Ero.
    unfold stats_step, process. cbn [debit_amount credit_amount total_debit total_credit].
    rewrite D, C.
    destruct (type_tests Ht) as [[E1 E2] | [E1 [E2 E3]]]; rewrite ?E1, ?E2, ?E3;
      split; reflexivity.
Qed.

(** X7.  For a non-empty store whose transactions are all of type ['debit'] or
    ['credit'], the summarizer returns a report on the stored transactions,
    and the statistics and the overview of that report carry the same
    [total_transactions], [total_debit], [total_credit] and
    [net_balance]: both loops add the same amounts in the same order. *)
Theorem stats_agree_with_summary (month_key : string -> option string) (fl : Q -> Q)
    (self : VectorSearchService) (stats : Stats.t) :
  get_transaction_stats fl self = Ok (StatsReport stats) ->
  transactions (embedding_service self) <> [] ->
  (forall t, In t (transactions (embedding_service self)) -> debit_or_credit t) ->
  exists summary ov,
    summarize_transactions month_key fl (transactions (embedding_service self))
    = Ok summary /\
    overview summary = Some ov /\
    Overview.total_transactions ov = Stats.total_transactions stats /\
    Overview.total_debit ov = Stats.total_debit stats /\
    Overview.total_credit ov = Stats.total_credit stats /\
    Overview.net_balance ov = Stats.net_balance stats.
Proof.
  intros H Hne Hty. destruct (@get_transaction_stats_report fl self _ H) as [ids [_ ->]].
  destruct (stats_match_rollup month_key fl _ Hty) as [D C].
  assert (S := @summarize_nonempty month_key fl _ Hne). cbn zeta in S.
  do 2 eexists. split; [exact S |]. cbn [overview]. split; [reflexivity |].
  cbn [Overview.total_transactions Overview.total_debit Overview.total_credit
       Overview.net_balance Stats.total_transactions Stats.total_debit
       Stats.total_credit Stats.net_balance].
  rewrite D, C. repeat split.
Qed.

Lemma stats_agree_with_summary_witness :
  exists stats summary ov,
    get_transaction_stats binary64 three_ready = Ok (StatsReport stats) /\
    summarize_transactions toy_month binary64 three_store = Ok summary /\
    overview summary = Some ov /\
    Overview.total_debit ov = Stats.total_debit stats /\
    Overview.total_credit ov = Stats.total_credit stats.
Proof.
  eexists.
  destruct (@stats_agree_with_summary toy_month binary64 three_ready _ eq_refl)
    as [summary [ov [S [E [_ [D [C _]]]]]]].
  - discriminate.
  - intros t [<- | [<- | [<- | []]]]; [left | left | right]; reflexivity.
  - exists summary, ov. split; [reflexivity |]. split; [exact S |].
    split; [exact E |]. split; [exact D | exact C].
Defined.

(** ** Failed initialization *)

(** X10.  When [initialize] returns [False] the service is not ready and keeps
    its former transactions, while its index is the one of the index file
    when that file could be read; [search] then raises [RuntimeError] and
    [get_transaction_stats] returns the ['error'] dict. *)
Theorem initialize_failure (encode : string -> Vector) (fl : Q -> Q)
    (self : VectorSearchService) (index_file : option IndexFlatL2)
    (transactions_file : option (list Transaction)) :
  snd (initialize self index_file transactions_file) = false ->
  let self' := fst (initialize self index_file transactions_file) in
  is_ready self' = false /\
  transactions (embedding_service self') = transactions (embedding_service self) /\
  index (embedding_service self')
  = match index_file with
    | Some idx => Some idx
    | None => index (embedding_service self)
    end /\
  (forall query top_k uid cat min_amount max_amount,
     exists msg, search encode fl self' query top_k uid cat min_amount max_amount
                 = Raise (RuntimeError msg)) /\
  get_transaction_stats fl self' = Ok (StatsError "Service not initialized").
Proof.
  unfold initialize, load_index.
  destruct index_file as [idx |]; [destruct transactions_file as [txns |] |];
    cbn [fst snd]; intro H; try discriminate;
    (repeat split; [intros; unfold search; cbn [is_ready negb]; eexists; reflexivity]).
Qed.

Lemma initialize_failure_witness :
  get_transaction_stats binary64 (fst (initialize two_ready None (Some [salary])))
  = Ok (StatsError "Service not initialized"%string) /\
  transactions (embedding_service (fst (initialize two_ready None (Some [salary]))))
  = [lunch; flight].
Proof.
  pose proof (@initialize_failure toy_encode binary64 two_ready None (Some [salary])
                eq_refl) as H.
  cbv zeta in H. destruct H as [_ [T [_ [_ S]]]]. split; [exact S | exact T].
Defined.

(** ** The report of the summarizer *)

(** ** The rollups of the report *)

Section RollupFacts.

Variable month_key : string -> option string.
Variable fl : Q -> Q.

Lemma update_sum_nat (V : Type) (g : V -> nat) (d0 : V) (f : V -> V) (key : string)
    (d : list (string * V)) :
  g d0 = 0%nat -> (forall v, g (f v) = S (g v)) ->
  sum_nat (fun e => g (snd e)) (update d0 f key d) = S (sum_nat (fun e => g (snd e)) d).
Proof.
  intros H0 Hf. induction d as [| [k v] d IH]; simpl.
  - rewrite Hf, H0. reflexivity.
  - destruct (String.eqb k key); simpl; [rewrite Hf | rewrite IH]; lia.
Qed.

Lemma rollup_counts (txns : list Transaction) :
  let st := rollup month_key fl txns in
  sum_nat (fun e => CategoryStats.count (snd e)) (category_stats st) = List.length txns /\
  sum_nat (fun e => UserStats.count (snd e)) (user_stats st) = List.length txns /\
  sum_nat (fun e => snd e) (payment_method_stats st) = List.length txns.
Proof.
  induction txns as [| t txns IH] using rev_ind; cbn zeta; [repeat split |].
  rewrite rollup_snoc, length_app. cbn [List.length].
  cbn zeta in IH. destruct IH as [C [U P]].
  remember (rollup month_key fl txns) as st eqn:Est. clear Est.
  unfold process. cbn [category_stats user_stats payment_method_stats].
  repeat split.
  - rewrite (@update_sum_nat _ CategoryStats.count); [lia | reflexivity |].
    intro v. cbn [CategoryStats.count]. lia.
  - rewrite (@update_sum_nat _ UserStats.count); [lia | reflexivity |].
    intro v. destruct (String.eqb _ _); cbn [UserStats.count]; lia.
  - rewrite (@update_sum_nat _ (fun n : nat => n)); [lia | reflexivity |].
    intro v. lia.
Qed.

Lemma user_stats_nonempty (txns : list Transaction) :
  txns <> [] -> user_stats (rollup month_key fl txns) <> [].
Proof.
  destruct txns as [| t txns] using rev_ind; [congruence | intros _].
  rewrite rollup_snoc. unfold process. cbn [user_stats]. apply update_not_nil.
Qed.

End RollupFacts.

(** X11.  The summarizer returns a report on every non-empty collection; in
    it [total_transactions], the counts of [by_category], the
    [transaction_count]s of [by_user] and the counts of [by_payment_method]
    each add up to the number of transactions. *)
Theorem report_counts (month_key : string -> option string) (fl : Q -> Q)
    (txns : list Transaction) :
  txns <> [] ->
  exists summary ov bc bu bp,
    summarize_transactions month_key fl txns = Ok summary /\
    overview summary = Some ov /\
    by_category summary = Some bc /\
    by_user summary = Some bu /\
    by_payment_method summary = Some bp /\
    Overview.total_transactions ov = List.length txns /\
    sum_nat (fun e => CategorySummary.count (snd e)) bc = List.length txns /\
    sum_nat (fun e => UserSummary.transaction_count (snd e)) bu = List.length txns /\
    sum_nat (fun e => snd e) bp = List.length txns.
Proof.
  intro Hne. assert (S := @summarize_nonempty month_key fl txns Hne). cbn zeta in S.
  do 5 eexists. split; [exact S |].
  cbn [overview by_category by_user by_payment_method].
  do 4 (split; [reflexivity |]).
  destruct (rollup_counts month_key fl txns) as [C [U P]].
  cbn [Overview.total_transactions]. repeat split.
  - rewrite <- C. clear. induction (category_stats (rollup month_key fl txns)) as [| e l IH];
      simpl; [reflexivity | rewrite IH; reflexivity].
  - rewrite <- U. clear. induction (user_stats (rollup month_key fl txns)) as [| e l IH];
      simpl; [reflexivity | rewrite IH; reflexivity].
  - exact P.
Qed.

Lemma report_counts_witness :
  exists summary bc bu,
    summarize_transactions toy_month binary64 three_store = Ok summary /\
    by_category summary = Some bc /\
    by_user summary = Some bu /\
    sum_nat (fun e => CategorySummary.count (snd e)) bc = 3%nat /\
    sum_nat (fun e => UserSummary.transaction_count (snd e)) bu = 3%nat.
Proof.
  destruct (@report_counts toy_month binary64 three_store ltac:(discriminate))
    as [summary [ov [bc [bu [bp [S [_ [Ec [Eu [_ [_ [C [U _]]]]]]]]]]]]].
  exists summary, bc, bu. repeat split; assumption.
Defined.

Lemma StronglySorted_map (A B : Type) (R : B -> B -> Prop) (f : A -> B) (l : list A) :
  StronglySorted (fun a b => R (f a) (f b)) l -> StronglySorted R (map f l).
Proof.
  induction 1 as [| a l Hs IH Ha]; simpl; constructor; [exact IH |].
  apply Forall_map. exact Ha.
Qed.

Lemma sorted_by_total_sort_with (l : list (string * CategoryStats.t)) :
  sorted_by_total l = sort_with larger_total l.
Proof.
  unfold sorted_by_total, sort_with.
  assert (I : forall a s, insert_by_total a s = insert_with larger_total a s).
  { intros a s. induction s as [| b s IH]; simpl; [reflexivity |].
    rewrite IH. reflexivity. }
  generalize (@nil (string * CategoryStats.t)).
  induction l as [| a l IH]; intro acc; simpl; [reflexivity |].
  rewrite I. apply IH.
Qed.

(** X12.  In the report on a non-empty collection, [top_categories] holds
    [min 5 n] of the [n] categories of [by_category], each with the total
    and the count of its [by_category] entry; as rounding to a float is
    monotone, they are in descending total and no category left out has a
    larger total than one that is listed. *)
Theorem top_categories_largest (month_key : string -> option string) (fl : Q -> Q)
    (txns : list Transaction) :
  txns <> [] ->
  exists summary top bc rest,
    summarize_transactions month_key fl txns = Ok summary /\
    top_categories summary = Some top /\
    by_category summary = Some bc /\
    List.length top = Nat.min 5 (List.length bc) /\
    Permutation (top ++ rest) (map top_entry_of_summary bc) /\
    (monotone fl ->
     StronglySorted
       (fun a b => (TopCategory.total_amount b <= TopCategory.total_amount a)%Q) top /\
     (forall a b, In a top -> In b rest ->
        (TopCategory.total_amount b <= TopCategory.total_amount a)%Q)).
Proof.
  intro Hne. assert (Sm := @summarize_nonempty month_key fl txns Hne). cbn zeta in Sm.
  set (stats := category_stats (rollup month_key fl txns)) in *.
  assert (P := sort_with_perm larger_total stats).
  assert (S : StronglySorted (fun a b => larger_total a b = true)
                (sort_with larger_total stats)).
  { apply sort_with_sorted.
    - intros a b. unfold larger_total. rewrite !Qle_bool_iff.
      destruct (Qlt_le_dec (CategoryStats.total (snd a)) (CategoryStats.total (snd b)));
        [right; apply Qlt_le_weak; assumption | left; assumption].
    - intros a b c. unfold larger_total. rewrite !Qle_bool_iff.
      intros H1 H2. eapply Qle_trans; eassumption. }
  rewrite sorted_by_total_sort_with in Sm.
  set (sorted := sort_with larger_total stats) in *.
  eexists. exists (map (top_entry_of fl) (firstn 5 sorted)), (map (summary_of fl) stats),
         (map (top_entry_of fl) (skipn 5 sorted)).
  split; [exact Sm |]. cbn [top_categories by_category].
  do 2 (split; [reflexivity |]).
  rewrite <- (firstn_skipn 5 sorted) in S.
  destruct (@sorted_app_order _ _ _ _ S) as [S1 O].
  split; [| split].
  - rewrite !length_map, length_firstn, (Permutation_length P). reflexivity.
  - rewrite <- map_app, firstn_skipn, map_map.
    change (fun x => top_entry_of_summary (summary_of fl x)) with (top_entry_of fl).
    apply Permutation_map, P.
  - intro Hm.
    assert (Hle : forall a b, larger_total a b = true ->
              (TopCategory.total_amount (top_entry_of fl b)
               <= TopCategory.total_amount (top_entry_of fl a))%Q).
    { intros a b H. unfold larger_total in H. apply Qle_bool_iff in H.
      cbn [top_entry_of TopCategory.total_amount]. unfold float_round2.
      apply Hm, round2_le, H. }
    split.
    + apply StronglySorted_map.
      eapply StronglySorted_ind with (P := fun l => StronglySorted _ l);
        [constructor | | exact S1].
      intros a l Hs IH Ha. constructor; [exact IH |].
      eapply Forall_impl; [| exact Ha]. intros b. apply Hle.
    + intros a b Ha Hb. apply in_map_iff in Ha, Hb.
      destruct Ha as [a' [<- Ha]]. destruct Hb as [b' [<- Hb]].
      apply Hle, O; assumption.
Qed.

Lemma top_categories_largest_witness :
  exists summary top bc,
    summarize_transactions toy_month binary64 three_store = Ok summary /\
    top_categories summary = Some top /\
    by_category summary = Some bc /\
    List.length top = Nat.min 5 (List.length bc) /\
    StronglySorted
      (fun a b => (TopCategory.total_amount b <= TopCategory.total_amount a)%Q) top.
Proof.
  destruct (@top_categories_largest toy_month binary64 three_store ltac:(discriminate))
    as [summary [top [bc [rest [S [Et [Ec [L [_ M]]]]]]]]].
  exists summary, top, bc. repeat split; try assumption.
  apply M. exact binary64_is_monotone.
Defined.

Lemma rollup_ignores_months (mk1 mk2 : string -> option string) (fl : Q -> Q)
    (txns : list Transaction) :
  category_stats (rollup mk1 fl txns) = category_stats (rollup mk2 fl txns) /\
  user_stats (rollup mk1 fl txns) = user_stats (rollup mk2 fl txns) /\
  payment_method_stats (rollup mk1 fl txns) = payment_method_stats (rollup mk2 fl txns) /\
  total_debit (rollup mk1 fl txns) = total_debit (rollup mk2 fl txns) /\
  total_credit (rollup mk1 fl txns) = total_credit (rollup mk2 fl txns).
Proof.
  induction txns as [| t txns IH] using rev_ind; [repeat split |].
  rewrite !rollup_snoc. destruct IH as [C [U [P [D K]]]].
  unfold process.
  cbn [category_stats user_stats payment_method_stats total_debit total_credit].
  rewrite C, U, P, D, K. repeat split.
Qed.

(** X13.  The report and the text summary do not depend on how the timestamps
    parse into months: the monthly rollup, and with it a timestamp that
    cannot be parsed, never reaches the output. *)
Theorem summary_ignores_month_parsing (mk1 mk2 : string -> option string)
    (fl : Q -> Q) (fmt_money : Q -> string) (str_int : nat -> string) (str_number : Q -> string)
    (txns : list Transaction) :
  summarize_transactions mk1 fl txns = summarize_transactions mk2 fl txns /\
  generate_text_summary mk1 fl fmt_money str_int str_number txns
  = generate_text_summary mk2 fl fmt_money str_int str_number txns.
Proof.
  assert (E : summarize_transactions mk1 fl txns = summarize_transactions mk2 fl txns).
  { destruct txns as [| t0 txns0] eqn:Et; [reflexivity |].
    rewrite <- Et.
    assert (Hne : txns <> []) by (rewrite Et; discriminate).
    rewrite (@summarize_nonempty mk1 fl txns Hne), (@summarize_nonempty mk2 fl txns Hne).
    destruct (rollup_ignores_months mk1 mk2 fl txns) as [C [U [P [D K]]]].
    rewrite C, U, P, D, K. reflexivity. }
  split; [exact E |]. unfold generate_text_summary. rewrite E. reflexivity.
Qed.

(** X14.  [summarize_transactions] and [generate_text_summary] always return
    and raise nothing; the text is the [message] of the report exactly when
    the collection is empty. *)
Theorem generate_text_summary_returns (month_key : string -> option string)
    (fl : Q -> Q) (fmt_money : Q -> string) (str_int : nat -> string)
    (str_number : Q -> string) (txns : list Transaction) :
  exists summary text,
    summarize_transactions month_key fl txns = Ok summary /\
    generate_text_summary month_key fl fmt_money str_int str_number txns = Ok text /\
    (txns = [] <-> message summary = Some text).
Proof.
  destruct txns as [| t0 txns0] eqn:Et.
  - do 2 eexists. split; [reflexivity |]. split; [reflexivity |]. split; reflexivity.
  - rewrite <- Et. assert (Hne : txns <> []) by (rewrite Et; discriminate).
    unfold generate_text_summary. rewrite (@summarize_nonempty month_key fl txns Hne).
    cbn [has_key message overview insights top_categories is_some item bind String.eqb].
    do 2 eexists. split; [reflexivity |]. split; [reflexivity |].
    cbn [message]. split; [congruence | discriminate].
Qed.

Section UserSums.

Local Open Scope Q_scope.

Variable month_key : string -> option string.
Variable fl : Q -> Q.

Lemma of_user_unseen (sel : Transaction -> bool) (u : string) (txns : list Transaction) :
  ~ In u (map user_of txns) ->
  float_sum fl (fun t => of_user u t && sel t) txns = 0.
Proof.
  intro H. apply float_sum_unhit. intros t Ht. unfold of_user.
  destruct (String.eqb (user_of t) u) eqn:E; [| reflexivity].
  apply String.eqb_eq in E. exfalso. apply H. rewrite <- E. apply in_map, Ht.
Qed.

(** The user rollup: one entry per user, in order of first occurrence,
    holding the running totals of the user's debits and of the rest. *)
Lemma user_debits_rollup (txns : list Transaction) :
  map (fun us => (fst us, UserStats.debit (snd us))) (user_stats (rollup month_key fl txns))
  = map (fun u => (u, float_sum fl (fun t => of_user u t && is_debit t) txns))
      (first_seen (map user_of txns)).
Proof.
  induction txns as [| t txns IH] using rev_ind; [reflexivity |].
  rewrite rollup_snoc. unfold process. cbn [user_stats].
  rewrite (map_update UserStats.debit UserStats.empty _
             (fun T => if String.eqb (get (type t) "debit"%string) "debit"
                       then float_add fl T (get (amount t) 0) else T))
    by (intro v; destruct (String.eqb (get (type t) "debit"%string) "debit"); reflexivity).
  rewrite IH. change (UserStats.debit UserStats.empty) with 0%Q.
  rewrite update_keyed_with.
  - rewrite map_app. cbn [map]. rewrite first_seen_snoc.
    change (get (user_id t) "Unknown"%string) with (user_of t).
    apply map_ext. intro u. rewrite float_sum_snoc.
    change (of_user u t) with (String.eqb (user_of t) u).
    change (is_debit t) with (String.eqb (get (type t) "debit"%string) "debit").
    rewrite (String.eqb_sym u).
    destruct (String.eqb (user_of t) u);
      destruct (String.eqb (get (type t) "debit"%string) "debit"); reflexivity.
  - apply first_seen_NoDup.
  - intro H. apply of_user_unseen. rewrite first_seen_In in H. exact H.
Qed.

Lemma user_credits_rollup (txns : list Transaction) :
  map (fun us => (fst us, UserStats.credit (snd us))) (user_stats (rollup month_key fl txns))
  = map (fun u => (u, float_sum fl (fun t => of_user u t && is_credit t) txns))
      (first_seen (map user_of txns)).
Proof.
  induction txns as [| t txns IH] using rev_ind; [reflexivity |].
  rewrite rollup_snoc. unfold process. cbn [user_stats].
  rewrite (map_update UserStats.credit UserStats.empty _
             (fun T => if String.eqb (get (type t) "debit"%string) "debit"
                       then T else float_add fl T (get (amount t) 0)))
    by (intro v; destruct (String.eqb (get (type t) "debit"%string) "debit"); reflexivity).
  rewrite IH. change (UserStats.credit UserStats.empty) with 0%Q.
  rewrite update_keyed_with.
  - rewrite map_app. cbn [map]. rewrite first_seen_snoc.
    change (get (user_id t) "Unknown"%string) with (user_of t).
    apply map_ext. intro u. rewrite float_sum_snoc.
    change (of_user u t) with (String.eqb (user_of t) u).
    change (is_credit t) with (negb (String.eqb (get (type t) "debit"%string) "debit")).
    rewrite (String.eqb_sym u).
    destruct (String.eqb (user_of t) u);
      destruct (String.eqb (get (type t) "debit"%string) "debit"); reflexivity.
  - apply first_seen_NoDup.
  - intro H. apply of_user_unseen. rewrite first_seen_In in H. exact H.
Qed.

Lemma hits_of_user (sel : Transaction -> bool) (users : list string) (t : Transaction) :
  NoDup users ->
  hits (map (fun u t' => of_user u t' && sel t') users) t
  = if seen (user_of t) users && sel t then 1%nat else 0%nat.
Proof.
  intro H. induction H as [| u users Hu H IH]; [reflexivity |].
  cbn [map]. rewrite hits_cons, IH. unfold seen. cbn [existsb].
  unfold of_user at 1.
  destruct (String.eqb (user_of t) u) eqn:E; cbn [orb andb].
  - apply String.eqb_eq in E. subst u.
    destruct (existsb (String.eqb (user_of t)) users) eqn:S.
    + exfalso. apply Hu. apply seen_In. exact S.
    + destruct (sel t); reflexivity.
  - reflexivity.
Qed.

(** The totals of the users for one side, each rounded to hundredths,
    against the rounded grand total of that side. *)
Lemma user_side_close (eps eta : Q) (sel : Transaction -> bool) (txns : list Transaction) :
  error_bounded fl eps eta -> txns <> [] ->
  400 * drift eps eta (map amount_of txns) < 1 ->
  let users := first_seen (map user_of txns) in
  Qabs (sum_Q (fun u => round2 (float_sum fl (fun t => of_user u t && sel t) txns)) users
        - round2 (float_sum fl sel txns))
  <= (1 # 100) * inject_Z (Z.of_nat (List.length users)).
Proof.
  intros Hb Hne Hd users.
  set (ks := map (fun u t => of_user u t && sel t) users).
  set (F := fun k : Transaction -> bool => float_sum fl k txns).
  assert (B := @rounded_families_close fl eps eta ks [sel] txns Hb).
  assert (Hh : forall t, In t txns -> hits ks t = hits [sel] t /\ (hits ks t <= 1)%nat).
  { intros t Ht. unfold ks. rewrite hits_of_user by apply first_seen_NoDup.
    assert (S : seen (user_of t) users = true).
    { apply seen_In, first_seen_In, in_map, Ht. }
    rewrite S. unfold hits. cbn [andb filter]. destruct (sel t); cbn; split; lia. }
  specialize (B Hh Hd). fold F in B. cbn [cents_of fold_right List.length] in B.
  assert (E : sum_Q (fun u => round2 (float_sum fl (fun t => of_user u t && sel t) txns)) users
              = sum_Q (fun k => round2 (F k)) ks).
  { unfold ks. rewrite sum_Q_map. reflexivity. }
  rewrite E, sum_round2_cents, round2_spec. fold (F sel). fold (hundredths (F sel)).
  assert (L : List.length ks = List.length users) by (unfold ks; apply length_map).
  rewrite L in B.
  assert (K : (1 <= Z.of_nat (List.length users))%Z).
  { assert (N : users <> []).
    { unfold users. destruct txns as [| t0 tl]; [congruence |].
      intro A. assert (I : In (user_of t0) (first_seen (map user_of (t0 :: tl)))).
      { apply first_seen_In. left. reflexivity. }
      rewrite A in I. destruct I. }
    destruct users; [congruence | simpl; lia]. }
  set (za := cents_of F ks) in *. set (zb := hundredths (F sel)) in *.
  set (n := Z.of_nat (List.length users)) in *.
  assert (B' : (- n <= za + - zb <= n)%Z) by lia.
  rewrite !Zle_Qle, !inject_Z_plus, !inject_Z_opp in B'.
  apply Qabs_Qle_condition.
  set (qa := inject_Z za) in *. set (qb := inject_Z zb) in *.
  set (qn := inject_Z n) in *. clearbody qa qb qn. split; lra.
Qed.

End UserSums.

(** X15.  In the report on a non-empty collection whose amounts are small
    enough for binary64 -- the bound [drift] on the rounding error of the
    running totals stays below 1/400 --, the [total_debit]s and
    [total_credit]s of [by_user] and of the overview are the floats nearest
    to two-decimal values; the values of the users' [total_debit]s add up
    to the value of the overview's [total_debit], and those of the
    [total_credit]s to that of its [total_credit], within one hundredth per
    user. *)
Theorem by_user_totals_match_overview (month_key : string -> option string)
    (fl : Q -> Q) (eps eta : Q) (txns : list Transaction) :
  error_bounded fl eps eta ->
  txns <> [] ->
  (400 * drift eps eta (map amount_of txns) < 1)%Q ->
  exists summary bu ov,
    summarize_transactions month_key fl txns = Ok summary /\
    by_user summary = Some bu /\
    overview summary = Some ov /\
    let st := rollup month_key fl txns in
    let debit := fun us : string * UserStats.t => round2 (UserStats.debit (snd us)) in
    let credit := fun us : string * UserStats.t => round2 (UserStats.credit (snd us)) in
    map (fun e => UserSummary.total_debit (snd e)) bu
    = map (fun us => fl (debit us)) (user_stats st) /\
    map (fun e => UserSummary.total_credit (snd e)) bu
    = map (fun us => fl (credit us)) (user_stats st) /\
    Overview.total_debit ov = fl (round2 (total_debit st)) /\
    Overview.total_credit ov = fl (round2 (total_credit st)) /\
    (Qabs (sum_Q debit (user_stats st) - round2 (total_debit st))
     <= (1 # 100) * inject_Z (Z.of_nat (List.length bu)))%Q /\
    (Qabs (sum_Q credit (user_stats st) - round2 (total_credit st))
     <= (1 # 100) * inject_Z (Z.of_nat (List.length bu)))%Q.
Proof.
  intros Hb Hne Hd.
  assert (S := @summarize_nonempty month_key fl txns Hne). cbn zeta in S.
  do 3 eexists. split; [exact S |]. cbn [by_user overview].
  split; [reflexivity |]. split; [reflexivity |]. cbn zeta.
  split; [rewrite map_map; reflexivity |]. split; [rewrite map_map; reflexivity |].
  split; [reflexivity |]. split; [reflexivity |].
  rewrite length_map.
  destruct (rollup_totals month_key fl txns) as [D C]. rewrite D, C.
  assert (UD := user_debits_rollup month_key fl txns).
  assert (UC := user_credits_rollup month_key fl txns).
  apply (f_equal (map snd)) in UD, UC. rewrite !map_map in UD, UC. cbn [snd] in UD, UC.
  assert (L : List.length (user_stats (rollup month_key fl txns))
              = List.length (first_seen (map user_of txns))).
  { apply (f_equal (@List.length Q)) in UD. rewrite !length_map in UD. exact UD. }
  rewrite L. split.
  - rewrite <- (sum_Q_map (fun us => UserStats.debit (snd us)) round2), UD, sum_Q_map.
    apply (@user_side_close fl eps eta is_debit txns Hb Hne Hd).
  - rewrite <- (sum_Q_map (fun us => UserStats.credit (snd us)) round2), UC, sum_Q_map.
    apply (@user_side_close fl eps eta is_credit txns Hb Hne Hd).
Qed.

Lemma by_user_totals_match_overview_witness :
  exists summary bu ov,
    summarize_transactions toy_month binary64 three_store = Ok summary /\
    by_user summary = Some bu /\
    overview summary = Some ov /\
    (Qabs (sum_Q (fun us => round2 (UserStats.debit (snd us)))
             (user_stats (rollup toy_month binary64 three_store))
           - round2 (total_debit (rollup toy_month binary64 three_store)))
     <= (1 # 100) * inject_Z (Z.of_nat (List.length bu)))%Q.
Proof.
  destruct (@by_user_totals_match_overview toy_month binary64 (pow2 (-53)) (pow2 (-1075))
              three_store binary64_error_bounded ltac:(discriminate)
              ltac:(vm_compute; reflexivity))
    as [summary [bu [ov [S [Eu [Eo [_ [_ [_ [_ [D _]]]]]]]]]]].
  exists summary, bu, ov. repeat split; assumption.
Defined.

(** ** The routes *)

Lemma slice_window (A : Type) (l : list A) (offset limit : Z) :
  (0 <= offset)%Z -> (0 <= limit)%Z ->
  slice l (Some offset) (Some (offset + limit)%Z)
  = firstn (Z.to_nat limit) (skipn (Z.to_nat offset) l).
Proof.
  intros Ho Hl. unfold slice, clamp.
  destruct (Z.ltb_spec offset 0); [lia |].
  destruct (Z.ltb_spec (offset + limit) 0); [lia |].
  set (n := List.length l).
  destruct (Z.le_gt_cases offset (Z.of_nat n)) as [In | Out].
  - rewrite (Z.min_l offset) by lia.
    destruct (Z.le_gt_cases (offset + limit) (Z.of_nat n)) as [In' | Out'].
    + rewrite Z.min_l by lia. f_equal. lia.
    + rewrite Z.min_r by lia.
      rewrite !firstn_all2; [reflexivity | |]; rewrite length_skipn; fold n; lia.
  - rewrite !Z.min_r by lia. rewrite Z.sub_diag. simpl.
    rewrite (skipn_all2 l) by (fold n; lia). rewrite firstn_nil. reflexivity.
Qed.

Lemma skipn_nil_iff (A : Type) (l : list A) (k : nat) :
  skipn k l = [] <-> (List.length l <= k)%nat.
Proof.
  split; intro H.
  - assert (L := length_skipn k l). rewrite H in L. simpl in L. lia.
  - apply skipn_all2, H.
Qed.

Lemma slice_In (A : Type) (l : list A) (start stop : option Z) (x : A) :
  In x (slice l start stop) -> In x l.
Proof.
  unfold slice. intro H. apply In_firstn in H.
  rewrite <- (firstn_skipn (Z.to_nat match start with
                                      | Some i => clamp (Z.of_nat (List.length l)) i
                                      | None => 0%Z
                                      end) l).
  apply in_app_iff. right. exact H.
Qed.

Lemma newest_first_In (txns : list Transaction) (t : Transaction) :
  In t (newest_first txns) <-> In t txns.
Proof.
  assert (P := sort_with_perm
                 (fun b a => String.leb (timestamp_key a) (timestamp_key b)) txns).
  fold (newest_first txns) in P. split; intro H.
  - eapply Permutation_in; [exact P | exact H].
  - eapply Permutation_in; [apply Permutation_sym, P | exact H].
Qed.

(** The list a request of [get_transactions] pages through. *)
Lemma listing_of (svc : VectorSearchService) (uid cat : option string) :
  is_ready svc = true ->
  exists all,
    match uid with
    | Some (String _ _ as u) => get_user_transactions svc u 1000
    | _ =>
        match cat with
        | Some (String _ _ as c) => get_category_transactions svc c 1000
        | _ => Ok (transactions (embedding_service svc))
        end
    end = Ok all /\
    Forall (fun t => In t (transactions (embedding_service svc))) all.
Proof.
  intro R.
  assert (F : forall keep,
            Forall (fun t => In t (transactions (embedding_service svc)))
              (slice (newest_first (filter keep (transactions (embedding_service svc))))
                 None (Some 1000%Z))).
  { intro keep. apply Forall_forall. intros t Ht.
    apply slice_In, newest_first_In, filter_In in Ht. tauto. }
  unfold get_user_transactions, get_category_transactions. rewrite R. cbn [negb].
  destruct uid as [[| a u] |]; [| eexists; split; [reflexivity | apply F] |];
    (destruct cat as [[| b c] |];
     [| eexists; split; [reflexivity | apply F] |]);
    (eexists; split; [reflexivity |]); apply Forall_forall; intros t Ht; exact Ht.
Qed.

(** X16.  On a ready service every request of [get_transactions] with given
    filters pages through one list of stored transactions: for
    [limit >= 1] and [offset >= 0] the route answers with [total] the length
    of that list, [transactions] its window of [limit] items from [offset],
    [count] the size of the window, and [has_more] true exactly when items
    remain behind the window; the window followed by the remaining items is
    the list from [offset] on. *)
Theorem get_transactions_pages (svc : VectorSearchService)
    (uid cat : option string) :
  is_ready svc = true ->
  exists all,
    Forall (fun t => In t (transactions (embedding_service svc))) all /\
    forall limit offset, (1 <= limit)%Z -> (0 <= offset)%Z ->
      exists body,
        get_transactions (Some svc) uid cat limit offset = Success body /\
        TransactionsBody.total body = List.length all /\
        TransactionsBody.transactions body
        = firstn (Z.to_nat limit) (skipn (Z.to_nat offset) all) /\
        TransactionsBody.count body
        = Nat.min (Z.to_nat limit) (List.length all - Z.to_nat offset) /\
        (TransactionsBody.has_more body = true
         <-> skipn (Z.to_nat (offset + limit)) all <> []) /\
        TransactionsBody.transactions body ++ skipn (Z.to_nat (offset + limit)) all
        = skipn (Z.to_nat offset) all.
Proof.
  intro R. destruct (listing_of svc uid cat R) as [all [E F]].
  exists all. split; [exact F |]. intros limit offset Hl Ho.
  unfold get_transactions. rewrite R. cbn [negb]. rewrite E. cbn [bind or_500].
  eexists. split; [reflexivity |].
  cbn [TransactionsBody.total TransactionsBody.transactions TransactionsBody.count
       TransactionsBody.has_more].
  rewrite slice_window by lia. repeat split.
  - rewrite length_firstn, length_skipn. reflexivity.
  - intros H K. apply Z.ltb_lt in H. apply skipn_nil_iff in K. lia.
  - intro H. apply Z.ltb_lt.
    destruct (Z.lt_ge_cases (offset + limit) (Z.of_nat (List.length all))) as [L | G];
      [exact L |].
    exfalso. apply H, skipn_nil_iff. lia.
  - replace (Z.to_nat (offset + limit)) with (Z.to_nat limit + Z.to_nat offset)%nat by lia.
    rewrite <- skipn_skipn. apply firstn_skipn.
Qed.

Lemma get_transactions_pages_witness :
  exists all body,
    get_transactions (Some three_ready) None None 2 0 = Success body /\
    TransactionsBody.total body = List.length all /\
    TransactionsBody.transactions body = firstn 2 all /\
    TransactionsBody.transactions body ++ skipn 2 all = all.
Proof.
  destruct (@get_transactions_pages three_ready None None eq_refl) as [all [_ P]].
  destruct (P 2%Z 0%Z ltac:(lia) ltac:(lia)) as [body [E [T [Tr [_ [_ A]]]]]].
  exists all, body. repeat split; assumption.
Defined.

(** X17.  With a non-empty [user_id], [get_transactions] on a ready service
    ignores [category]; every listed transaction belongs to the user,
    [total] is the number of the user's transactions capped at 1000, and
    [has_more] is false once [offset + limit] reaches 1000. *)
Theorem get_transactions_user_first (svc : VectorSearchService) (u : string)
    (cat : option string) (limit offset : Z) :
  is_ready svc = true -> u <> EmptyString -> (1 <= limit)%Z -> (0 <= offset)%Z ->
  let matching :=
    filter (fun t => string_opt_eqb (user_id t) (Some u))
      (transactions (embedding_service svc)) in
  get_transactions (Some svc) (Some u) cat limit offset
  = get_transactions (Some svc) (Some u) None limit offset /\
  exists body,
    get_transactions (Some svc) (Some u) cat limit offset = Success body /\
    TransactionsBody.total body = Nat.min 1000 (List.length matching) /\
    Forall (fun t => user_id t = Some u) (TransactionsBody.transactions body) /\
    ((1000 <= offset + limit)%Z -> TransactionsBody.has_more body = false).
Proof.
  intros R Hu Hl Ho matching.
  destruct u as [| a u]; [congruence |].
  split; [reflexivity |].
  unfold get_transactions, get_user_transactions. rewrite R. cbn [negb bind or_500].
  eexists. split; [reflexivity |].
  cbn [TransactionsBody.total TransactionsBody.transactions TransactionsBody.has_more].
  fold matching.
  destruct (newest_slice_spec (fun t => string_opt_eqb (user_id t) (Some (String a u)))
              (transactions (embedding_service svc)) 1000)
    as [rest [_ [F [_ [_ [L _]]]]]].
  fold matching in L, F. cbv zeta in L, F. specialize (L ltac:(lia)).
  repeat split.
  - rewrite L. reflexivity.
  - apply Forall_forall. intros t Ht. apply slice_In in Ht.
    rewrite Forall_forall in F. apply user_matches, F, Ht.
  - intro H. apply Z.ltb_ge. rewrite L. lia.
Qed.

Lemma get_transactions_user_first_witness :
  get_transactions (Some three_ready) (Some "USER001"%string) (Some "Income"%string) 10 0
  = get_transactions (Some three_ready) (Some "USER001"%string) None 10 0 /\
  exists body,
    get_transactions (Some three_ready) (Some "USER001"%string) (Some "Income"%string) 10 0
    = Success body /\
    TransactionsBody.total body = 2%nat.
Proof.
  pose proof (@get_transactions_user_first three_ready "USER001"%string (Some "Income"%string)
                10 0 eq_refl ltac:(discriminate) ltac:(lia) ltac:(lia)) as H.
  cbv zeta in H. destruct H as [E [body [B [T _]]]].
  split; [exact E |]. exists body. split; [exact B | exact T].
Defined.

(** [sorted(set(xs))] on strings: strictly ascending, with the elements of
    [xs]. *)
Lemma sorted_set_spec (l : list string) :
  StronglySorted (fun a b => String.ltb a b = true) (sorted_strings (first_seen l)) /\
  forall c, In c (sorted_strings (first_seen l)) <-> In c l.
Proof.
  assert (P := sort_with_perm String.leb (first_seen l)).
  fold (sorted_strings (first_seen l)) in P.
  assert (S : StronglySorted (fun a b => String.leb a b = true)
                (sorted_strings (first_seen l))).
  { apply sort_with_sorted; [apply String.leb_total |].
    intros a b c. apply string_leb_trans. }
  assert (N : NoDup (sorted_strings (first_seen l))).
  { eapply Permutation_NoDup; [apply Permutation_sym, P | apply first_seen_NoDup]. }
  split.
  - clear - S N. induction S as [| a s Hs IH Ha]; [constructor |].
    inversion N as [| ? ? Hnotin Hnd]; subst.
    constructor; [apply IH, Hnd |].
    rewrite Forall_forall in *. intros b Hb. specialize (Ha b Hb).
    unfold String.ltb, String.leb in *.
    destruct (String.compare a b) eqn:E; try reflexivity; try discriminate.
    apply String.compare_eq_iff in E. subst. contradiction.
  - intro c. split; intro H.
    + apply -> first_seen_In. eapply Permutation_in; [exact P | exact H].
    + apply <- first_seen_In in H.
      eapply Permutation_in; [apply Permutation_sym, P | exact H].
Qed.

(** X18.  On a ready service [get_categories] and [get_users] answer with a
    strictly ascending list that holds exactly the categories, respectively
    the user ids, of the stored transactions, ['Unknown'] standing for a
    missing key. *)
Theorem listing_routes_sorted (svc : VectorSearchService) :
  is_ready svc = true ->
  let store := transactions (embedding_service svc) in
  exists categories users,
    get_categories (Some svc) = Success categories /\
    get_users (Some svc) = Success users /\
    StronglySorted (fun a b => String.ltb a b = true) categories /\
    StronglySorted (fun a b => String.ltb a b = true) users /\
    (forall c, In c categories
               <-> exists t, In t store /\ get (category t) "Unknown"%string = c) /\
    (forall u, In u users
               <-> exists t, In t store /\ get (user_id t) "Unknown"%string = u).
Proof.
  intros R store. unfold get_categories, get_users. rewrite R. cbn [negb or_500].
  fold store. do 2 eexists. do 2 (split; [reflexivity |]).
  destruct (sorted_set_spec (map (fun t => get (category t) "Unknown"%string) store))
    as [Sc Ic].
  destruct (sorted_set_spec (map (fun t => get (user_id t) "Unknown"%string) store))
    as [Su Iu].
  repeat split; try assumption.
  - intro H. apply Ic, in_map_iff in H. destruct H as [t [E H]]. exists t. tauto.
  - intros [t [H E]]. apply Ic, in_map_iff. exists t. tauto.
  - intro H. apply Iu, in_map_iff in H. destruct H as [t [E H]]. exists t. tauto.
  - intros [t [H E]]. apply Iu, in_map_iff. exists t. tauto.
Qed.

Lemma listing_routes_sorted_witness :
  exists categories users,
    get_categories (Some three_ready) = Success categories /\
    get_users (Some three_ready) = Success users /\
    In "Travel"%string categories /\
    StronglySorted (fun a b => String.ltb a b = true) users.
Proof.
  pose proof (@listing_routes_sorted three_ready eq_refl) as H. cbv zeta in H.
  destruct H as [categories [users [Ec [Eu [_ [Su [Ic _]]]]]]].
  exists categories, users. repeat split; try assumption.
  apply Ic. exists march_flight. split; [right; left |]; reflexivity.
Defined.

(** X19.  When a stored transaction has no [user_id] key, [get_statistics]
    answers with status 500 and the detail of the [KeyError], while
    [get_users] still answers and lists ['Unknown']. *)
Theorem get_statistics_missing_user (fl64 : Q -> Q) (svc : VectorSearchService)
    (t : Transaction) :
  is_ready svc = true ->
  In t (transactions (embedding_service svc)) -> user_id t = None ->
  get_statistics fl64 (Some svc) = HTTPException 500 "'user_id'" /\
  exists users, get_users (Some svc) = Success users /\ In "Unknown"%string users.
Proof.
  intros R Hin Hn. split.
  - unfold get_statistics, get_transaction_stats. rewrite R. cbn [negb].
    rewrite user_ids_raise by (exists t; tauto). reflexivity.
  - unfold get_users. rewrite R. cbn [negb or_500]. eexists. split; [reflexivity |].
    apply sorted_set_spec, in_map_iff. exists t. rewrite Hn. tauto.
Qed.

Lemma get_statistics_missing_user_witness :
  get_statistics binary64 (Some anonymous_ready) = HTTPException 500 "'user_id'"%string /\
  exists users, get_users (Some anonymous_ready) = Success users /\
                In "Unknown"%string users.
Proof.
  apply (@get_statistics_missing_user binary64 anonymous_ready anonymous eq_refl);
    [right; left |]; reflexivity.
Defined.

Section EmptyStore.

Variable encode : string -> Vector.
Variable fl : Q -> Q.

Lemma collect_empty_store (found : list (Z * Q)) (acc : list Hit) :
  collect fl [] found acc
  = if forallb (fun p => (0 <=? fst p)%Z) found then Ok acc else Raise IndexError.
Proof.
  revert acc. induction found as [| [idx d] rest IH]; intro acc; [reflexivity |].
  cbn [collect forallb fst List.length]. 
  change (Z.of_nat 0) with 0%Z.
  destruct (Z.ltb_spec idx 0) as [Neg | Pos].
  - destruct (Z.leb_spec 0 idx); [lia |]. cbn [andb].
    unfold getitem. cbn [List.length]. change (Z.of_nat 0) with 0%Z.
    destruct (Z.ltb_spec idx 0); [| lia].
    destruct (Z.ltb_spec (0 + idx) 0); [reflexivity | lia].
  - destruct (Z.leb_spec 0 idx); [| lia]. cbn [andb]. apply IH.
Qed.

Lemma index_search_padded (idx : IndexFlatL2) (x : Vector) (k : Z) :
  (0 < k)%Z -> (Z.of_nat (ntotal idx) < k)%Z ->
  exists found, index_search idx x k = Ok found /\
                forallb (fun p => (0 <=? fst p)%Z) found = false.
Proof.
  intros Hk Hn. unfold index_search. destruct (Z.leb_spec k 0); [lia |].
  eexists. split; [reflexivity |].
  rewrite forallb_app.
  set (best := firstn _ _).
  assert (L : (List.length best <= ntotal idx)%nat).
  { unfold best. rewrite length_firstn.
    destruct (sort_by_distance_facts (fun _ => True) (labelled x (vectors idx) 0))
      as [Ls _].
    destruct (labelled_facts x (vectors idx) 0) as [Ll _].
    rewrite Ls, Ll. unfold ntotal. lia. }
  destruct (Z.to_nat k - List.length best)%nat as [| m] eqn:E; [lia |].
  cbn [repeat forallb fst]. cbn. apply andb_false_r.
Qed.

End EmptyStore.

(** X20.  On a ready service that holds no transactions, with an index of
    fewer than [2 * top_k] vectors, [search_transactions] answers with
    status 500 ([list index out of range]) for every query, while
    [get_transactions] answers with an empty page and [get_summary] with the
    report and text of the empty collection. *)
Theorem empty_store_routes (encode : string -> Vector) (fl fl64 : Q -> Q)
    (month_key : string -> option string) (fmt_money : Q -> string)
    (str_int : nat -> string) (str_number : Q -> string)
    (idx : IndexFlatL2) (query : string) (top_k limit offset : Z)
    (uid cat : option string) (lo hi : option Q) :
  (1 <= top_k)%Z -> (1 <= limit)%Z -> (0 <= offset)%Z ->
  (Z.of_nat (ntotal idx) < top_k * 2)%Z ->
  let svc := {| embedding_service := {| index := Some idx; transactions := [] |};
                is_ready := true |} in
  search_transactions encode fl (Some svc) query top_k uid cat lo hi
  = HTTPException 500 "list index out of range" /\
  get_transactions (Some svc) uid cat limit offset
  = Success {| TransactionsBody.total := 0; TransactionsBody.count := 0;
               TransactionsBody.offset := offset; TransactionsBody.limit := limit;
               TransactionsBody.has_more := false;
               TransactionsBody.transactions := [] |} /\
  exists summary,
    summarize_transactions month_key fl64 [] = Ok summary /\
    get_summary fl64 month_key fmt_money str_int str_number (Some svc)
      (Some mkTransactionSummarizer) limit uid cat
    = Success {| SummaryBody.summary := summary;
                 SummaryBody.text_summary := "No transactions to summarize";
                 SummaryBody.transaction_count := 0 |}.
Proof.
  intros Hk Hl Ho Hn svc. split; [| split].
  - unfold search_transactions, search, embedding_search.
    cbn [svc is_ready negb embedding_service index transactions].
    destruct (@index_search_padded idx (encode query) (top_k * 2)%Z) as [found [E P]];
      [lia | exact Hn |].
    rewrite E. cbn [bind]. rewrite collect_empty_store, P. reflexivity.
  - unfold get_transactions, get_user_transactions, get_category_transactions.
    cbn [svc is_ready negb embedding_service transactions filter].
    assert (S : forall a b, @slice Transaction [] a b = []).
    { intros a b. unfold slice. cbn [skipn List.length].
      rewrite skipn_nil, firstn_nil. reflexivity. }
    assert (H : (offset + limit <? Z.of_nat 0)%Z = false) by (apply Z.ltb_ge; lia).
    destruct uid as [[| a u] |]; destruct cat as [[| b c] |];
      cbn [newest_first sort_with fold_left bind or_500]; rewrite ?S;
      cbn [bind or_500 List.length]; rewrite ?S; cbn [List.length]; rewrite H;
      reflexivity.
  - eexists. split; [reflexivity |].
    unfold get_summary, requested, get_user_transactions, get_category_transactions.
    cbn [svc is_ready negb embedding_service transactions filter].
    assert (S : forall a b, @slice Transaction [] a b = []).
    { intros a b. unfold slice. cbn [skipn List.length].
      rewrite skipn_nil, firstn_nil. reflexivity. }
    destruct uid as [[| a u] |]; destruct cat as [[| b c] |];
      cbn [newest_first sort_with fold_left]; rewrite ?S; reflexivity.
Qed.

Lemma empty_store_routes_witness :
  search_transactions toy_encode binary32 (Some empty_ready) "q"%string 1 None None None None
  = HTTPException 500 "list index out of range"%string /\
  exists body,
    get_transactions (Some empty_ready) None None 10 0 = Success body /\
    TransactionsBody.total body = 0%nat.
Proof.
  pose proof (@empty_store_routes toy_encode binary32 binary64 toy_month toy_str toy_int
                toy_str (mkIndex []) "q"%string 1 10 0 None None None None
                ltac:(lia) ltac:(lia) ltac:(lia) ltac:(simpl; lia)) as H.
  cbv zeta in H. destruct H as [S [G _]].
  split; [exact S |]. eexists. split; [exact G | reflexivity].
Defined.

Lemma requested_ok (svc : VectorSearchService) (uid cat : option string) (limit : Z) :
  is_ready svc = true -> (0 <= limit)%Z ->
  exists sel,
    requested svc uid cat limit = Ok sel /\
    (List.length sel <= Z.to_nat limit)%nat /\
    Forall (fun t => In t (transactions (embedding_service svc))) sel.
Proof.
  intros R Hl.
  assert (F : forall l,
            (forall t, In t l -> In t (transactions (embedding_service svc))) ->
            (List.length (slice l None (Some limit)) <= Z.to_nat limit)%nat /\
            Forall (fun t => In t (transactions (embedding_service svc)))
              (slice l None (Some limit))).
  { intros l Hin. split.
    - rewrite slice_to_nonneg by exact Hl. rewrite length_firstn. lia.
    - apply Forall_forall. intros t Ht. apply Hin. eapply slice_In, Ht. }
  assert (G : forall keep t,
            In t (newest_first (filter keep (transactions (embedding_service svc)))) ->
            In t (transactions (embedding_service svc))).
  { intros keep t Ht. apply newest_first_In, filter_In in Ht. tauto. }
  unfold requested, get_user_transactions, get_category_transactions.
  rewrite R. cbn [negb].
  destruct uid as [[| a u] |];
    [| eexists; split; [reflexivity | apply F, G] |];
    (destruct cat as [[| b c] |];
     [| eexists; split; [reflexivity | apply F, G] |]);
    (eexists; split; [reflexivity | apply F; tauto]).
Qed.

Lemma generate_text_summary_ok (month_key : string -> option string) (fl : Q -> Q)
    (fmt_money : Q -> string) (str_int : nat -> string) (str_number : Q -> string)
    (txns : list Transaction) :
  exists summary text,
    summarize_transactions month_key fl txns = Ok summary /\
    generate_text_summary month_key fl fmt_money str_int str_number txns = Ok text /\
    (txns = [] ->
     message summary = Some "No transactions to summarize"%string /\
     text = "No transactions to summarize"%string) /\
    (txns <> [] ->
     message summary = None /\
     exists ov, overview summary = Some ov /\
                Overview.total_transactions ov = List.length txns).
Proof.
  destruct txns as [| t0 txns0] eqn:Et.
  - do 2 eexists. split; [reflexivity |]. split; [reflexivity |].
    split; [split; reflexivity | congruence].
  - rewrite <- Et. assert (Hne : txns <> []) by (rewrite Et; discriminate).
    unfold generate_text_summary. rewrite (@summarize_nonempty month_key fl txns Hne).
    cbn [has_key message overview insights top_categories is_some item bind String.eqb].
    do 2 eexists. split; [reflexivity |]. split; [reflexivity |].
    split; [congruence |]. intros _. split; [reflexivity |].
    eexists. split; reflexivity.
Qed.

(** X21.  On a ready service [get_summary] with [limit >= 1] answers and raises
    nothing; [transaction_count] is at most [limit]; when it is 0 the report
    and the text carry the message of the empty collection, otherwise the
    overview counts [transaction_count] transactions; without filters the
    report covers the first [limit] stored transactions. *)
Theorem get_summary_covers (month_key : string -> option string) (fl64 : Q -> Q)
    (fmt_money : Q -> string) (str_int : nat -> string) (str_number : Q -> string)
    (svc : VectorSearchService) (limit : Z) (uid cat : option string) :
  is_ready svc = true -> (1 <= limit)%Z ->
  exists body,
    get_summary fl64 month_key fmt_money str_int str_number (Some svc)
      (Some mkTransactionSummarizer) limit uid cat = Success body /\
    (SummaryBody.transaction_count body <= Z.to_nat limit)%nat /\
    (SummaryBody.transaction_count body = 0%nat ->
     message (SummaryBody.summary body) = Some "No transactions to summarize"%string /\
     SummaryBody.text_summary body = "No transactions to summarize"%string) /\
    ((0 < SummaryBody.transaction_count body)%nat ->
     message (SummaryBody.summary body) = None /\
     exists ov, overview (SummaryBody.summary body) = Some ov /\
                Overview.total_transactions ov = SummaryBody.transaction_count body) /\
    (truthy_opt uid = false -> truthy_opt cat = false ->
     summarize_transactions month_key fl64
       (firstn (Z.to_nat limit) (transactions (embedding_service svc)))
     = Ok (SummaryBody.summary body)).
Proof.
  intros R Hl.
  destruct (@requested_ok svc uid cat limit R ltac:(lia)) as [sel [E [L F]]].
  destruct (generate_text_summary_ok month_key fl64 fmt_money str_int str_number sel)
    as [summary [text [S [T [T0 T1]]]]].
  unfold get_summary. rewrite R. cbn [negb]. rewrite E, S. cbn [bind]. rewrite T.
  cbn [bind or_500].
  eexists. split; [reflexivity |].
  cbn [SummaryBody.summary SummaryBody.text_summary SummaryBody.transaction_count].
  split; [exact L |]. split; [| split].
  - intro H. apply T0. destruct sel; [reflexivity | discriminate].
  - intro H. apply T1. destruct sel; [simpl in H; lia | discriminate].
  - intros Hu Hc. rewrite <- S. f_equal. unfold requested in E.
    destruct uid as [[| a u] |]; try discriminate Hu;
      (destruct cat as [[| b c] |]; try discriminate Hc);
      rewrite slice_to_nonneg in E by lia; congruence.
Qed.

Lemma get_summary_covers_witness :
  exists body,
    get_summary binary64 toy_month toy_str toy_int toy_str (Some three_ready)
      (Some mkTransactionSummarizer) 2 None None = Success body /\
    (SummaryBody.transaction_count body <= 2)%nat /\
    summarize_transactions toy_month binary64 [january_lunch; march_flight]
    = Ok (SummaryBody.summary body).
Proof.
  destruct (@get_summary_covers toy_month binary64 toy_str toy_int toy_str three_ready 2
              None None eq_refl ltac:(lia)) as [body [E [L [_ [_ S]]]]].
  exists body. split; [exact E |]. split; [exact L |]. apply S; reflexivity.
Defined.

Section LLMFacts.

Variable str_number : Q -> string.
Variable str_int : nat -> string.
Variable generate_content : string -> Result string.

Lemma slice_firstn (A : Type) (l : list A) (k : Z) :
  (0 <= k)%Z ->
  slice (firstn (Z.to_nat k) l) None (Some k) = slice l None (Some k).
Proof.
  intro H. rewrite !slice_to_nonneg by exact H.
  rewrite firstn_firstn, Nat.min_id. reflexivity.
Qed.

Lemma summarize_transactions_prefix (self : LLMSummarizer.t)
    (txns : list Transaction) (max_transactions : Z) (focus : option string) :
  (1 <= max_transactions)%Z ->
  LLMSummarizer.summarize_transactions str_number str_int generate_content self
    txns max_transactions focus
  = LLMSummarizer.summarize_transactions str_number str_int generate_content self
      (firstn (Z.to_nat max_transactions) txns) max_transactions focus.
Proof.
  intro H. unfold LLMSummarizer.summarize_transactions.
  destruct txns as [| t txns]; [rewrite firstn_nil; reflexivity |].
  rewrite slice_firstn by lia.
  destruct (Z.to_nat max_transactions) as [| m] eqn:E; [lia |]. reflexivity.
Qed.

Lemma answer_question_prefix (self : LLMSummarizer.t) (txns : list Transaction)
    (question : string) :
  LLMSummarizer.answer_question str_number generate_content self txns question
  = LLMSummarizer.answer_question str_number generate_content self
      (firstn 30 txns) question.
Proof.
  unfold LLMSummarizer.answer_question, LLMSummarizer.question_prompt.
  destruct txns as [| t txns]; [reflexivity |].
  change 30%nat with (Z.to_nat 30). rewrite slice_firstn by lia. reflexivity.
Qed.

End LLMFacts.

(** X22.  When the collection holds at least [max_transactions] (at least 1)
    transactions, appending more does not change the answer of the LLM
    [summarize_transactions]; when it holds at least 30, appending more does
    not change the answer of [answer_question]. *)
Theorem llm_reads_prefix (str_number : Q -> string) (str_int : nat -> string)
    (generate_content : string -> Result string) (self : LLMSummarizer.t)
    (txns more : list Transaction) (max_transactions : Z) (focus : option string)
    (question : string) :
  ((1 <= max_transactions)%Z ->
   (Z.to_nat max_transactions <= List.length txns)%nat ->
   LLMSummarizer.summarize_transactions str_number str_int generate_content self
     (txns ++ more) max_transactions focus
   = LLMSummarizer.summarize_transactions str_number str_int generate_content self
       txns max_transactions focus) /\
  ((30 <= List.length txns)%nat ->
   LLMSummarizer.answer_question str_number generate_content self (txns ++ more) question
   = LLMSummarizer.answer_question str_number generate_content self txns question).
Proof.
  split.
  - intros H L.
    rewrite (summarize_transactions_prefix _ _ _ _ (txns ++ more)) by exact H.
    rewrite (summarize_transactions_prefix _ _ _ _ txns) by exact H.
    rewrite firstn_app. replace (Z.to_nat max_transactions - List.length txns)%nat
      with 0%nat by lia.
    rewrite firstn_O, app_nil_r. reflexivity.
  - intro L30.
    rewrite (answer_question_prefix _ _ _ (txns ++ more)).
    rewrite (answer_question_prefix _ _ _ txns).
    rewrite firstn_app. replace (30 - List.length txns)%nat with 0%nat by lia.
    rewrite firstn_O, app_nil_r. reflexivity.
Qed.

Lemma llm_reads_prefix_witness :
  LLMSummarizer.summarize_transactions toy_str toy_int toy_model toy_llm
    ([lunch; flight] ++ [salary]) 2 None
  = LLMSummarizer.summarize_transactions toy_str toy_int toy_model toy_llm
      [lunch; flight] 2 None /\
  LLMSummarizer.answer_question toy_str toy_model toy_llm (repeat lunch 30 ++ [flight])
    "How much did I spend?"%string
  = LLMSummarizer.answer_question toy_str toy_model toy_llm (repeat lunch 30)
      "How much did I spend?"%string.
Proof.
  split.
  - destruct (@llm_reads_prefix toy_str toy_int toy_model toy_llm [lunch; flight] [salary]
                2 None "How much did I spend?"%string) as [S _].
    apply S; [lia | simpl; lia].
  - destruct (@llm_reads_prefix toy_str toy_int toy_model toy_llm (repeat lunch 30)
                [flight] 2 None "How much did I spend?"%string) as [_ A].
    apply A. simpl. lia.
Defined.

(** X23.  On a ready service with an LLM summarizer, [ai_summarize] reports the
    number of selected transactions as [transaction_count] while the summary
    is computed from the first 50 of them, and [ask_question] reports
    [min context_limit n] of the [n] stored transactions as [context_size]
    while the answer is computed from the first [min 30 context_limit]. *)
Theorem ai_routes_report (str_int : nat -> string) (str_number : Q -> string)
    (generate_content : string -> Result string)
    (svc : VectorSearchService) (llm : LLMSummarizer.t)
    (limit context_limit : Z) (uid cat : option string) (question : string) :
  is_ready svc = true -> (1 <= limit)%Z -> (1 <= context_limit)%Z ->
  let store := transactions (embedding_service svc) in
  (exists sel,
     requested svc uid cat limit = Ok sel /\
     ai_summarize str_int str_number generate_content (Some svc) (Some llm)
       limit uid cat
     = Success
         {| AISummaryBody.summary :=
              LLMSummarizer.summarize_transactions str_number str_int
                generate_content llm (firstn 50 sel) 50 None;
            AISummaryBody.transaction_count := List.length sel;
            AISummaryBody.model := "models/gemini-1.5-flash" |}) /\
  ask_question str_number generate_content (Some svc) (Some llm) question
    context_limit
  = Success
      {| AnswerBody.question := question;
         AnswerBody.answer :=
           LLMSummarizer.answer_question str_number generate_content llm
             (firstn (Nat.min 30 (Z.to_nat context_limit)) store) question;
         AnswerBody.context_size :=
           Nat.min (Z.to_nat context_limit) (List.length store) |}.
Proof.
  intros R Hl Hc store. split.
  - destruct (@requested_ok svc uid cat limit R ltac:(lia)) as [sel [E _]].
    exists sel. split; [exact E |].
    unfold ai_summarize. rewrite R. cbn [negb]. rewrite E. cbn [bind or_500].
    rewrite (summarize_transactions_prefix _ _ _ _ sel) by lia. reflexivity.
  - unfold ask_question. rewrite R. cbn [negb or_500]. fold store.
    rewrite slice_to_nonneg by lia.
    rewrite answer_question_prefix, firstn_firstn, length_firstn. reflexivity.
Qed.

Lemma ai_routes_report_witness :
  ask_question toy_str toy_model (Some three_ready) (Some toy_llm)
    "How much did I spend?"%string 2
  = Success
      {| AnswerBody.question := "How much did I spend?"%string;
         AnswerBody.answer :=
           LLMSummarizer.answer_question toy_str toy_model toy_llm
             [january_lunch; march_flight] "How much did I spend?"%string;
         AnswerBody.context_size := 2 |}.
Proof.
  pose proof (@ai_routes_report toy_int toy_str toy_model three_ready toy_llm 5 2
                None None "How much did I spend?"%string eq_refl ltac:(lia) ltac:(lia)) as H.
  cbv zeta in H. destruct H as [_ A]. exact A.
Defined.

(** ** Startup *)

(** X25.  After [startup_event] the health endpoint reports [status] healthy in
    every case, [search] true exactly when both snapshot files could be
    read, and [llm] true exactly when the API key of the environment is
    non-empty.  When a snapshot file is missing the data routes all answer
    with status 503; when both are read, the first page of [get_transactions]
    without filters is the start of the transactions file. *)
Theorem startup_readiness (encode : string -> Vector) (fl fl64 : Q -> Q)
    (month_key : string -> option string) (fmt_money : Q -> string)
    (str_int : nat -> string) (str_number : Q -> string)
    (env_key : option string) (index_file : option IndexFlatL2)
    (transactions_file : option (list Transaction)) :
  let app := startup_event (new_app env_key) index_file transactions_file in
  let loaded := is_some index_file && is_some transactions_file in
  Health.status (root app) = "healthy"%string /\
  Health.search (root app) = loaded /\
  Health.llm (root app) = truthy_opt env_key /\
  (loaded = false ->
   forall limit offset uid cat query top_k lo hi,
     get_transactions (transactions_route app) uid cat limit offset
     = HTTPException 503 "Service not ready" /\
     get_categories (transactions_route app) = HTTPException 503 "Service not ready" /\
     get_users (transactions_route app) = HTTPException 503 "Service not ready" /\
     get_statistics fl64 (transactions_route app) = HTTPException 503 "Service not ready" /\
     search_transactions encode fl (search_route app) query top_k uid cat lo hi
     = HTTPException 503
         "Search service not ready. Please run setup.py to initialize the system." /\
     get_summary fl64 month_key fmt_money str_int str_number
       (fst (fst (summary_route app))) (snd (fst (summary_route app))) limit uid cat
     = HTTPException 503 "Service not ready") /\
  (forall txns, loaded = true -> transactions_file = Some txns ->
   forall limit, (1 <= limit)%Z ->
     get_transactions (transactions_route app) None None limit 0
     = Success {| TransactionsBody.total := List.length txns;
                  TransactionsBody.count := Nat.min (Z.to_nat limit) (List.length txns);
                  TransactionsBody.offset := 0;
                  TransactionsBody.limit := limit;
                  TransactionsBody.has_more := (limit <? Z.of_nat (List.length txns))%Z;
                  TransactionsBody.transactions := firstn (Z.to_nat limit) txns |}).
Proof.
  intros app loaded. unfold app, loaded, startup_event, new_app, initialize, load_index.
  cbn [app_search_service new_search_service embedding_service].
  destruct index_file as [idx |], transactions_file as [txns |];
    cbn [is_some andb root Health.status Health.search Health.llm app_search_service
         app_llm_summarizer is_ready transactions_route search_route summary_route
         app_rule_summarizer fst snd];
    (split; [reflexivity |]); (split; [reflexivity |]);
    (split; [destruct env_key as [[| a k] |]; reflexivity |]);
    (split; [try discriminate; intros _; intros; repeat split; reflexivity |]).
  - intros txns' _ E limit Hl. inversion E; subst txns'.
    unfold get_transactions. cbn [is_ready negb embedding_service transactions bind or_500].
    rewrite slice_window by lia. cbn [Z.to_nat skipn Z.add].
    rewrite length_firstn. reflexivity.
  - intros txns' H. discriminate H.
  - intros txns' H. discriminate H.
  - intros txns' H. discriminate H.
Qed.

(** ** The data generator *)

Lemma parse_zfill (width : nat) (n : N) : parse_decimal (zfill width (decimal n)) = Some n.
Proof.
  unfold zfill, parse_decimal, decimal.
  induction (width - String.length (NilEmpty.string_of_uint (N.to_uint n)))%nat
    as [| k IH].
  - simpl. rewrite NilEmpty.usu. simpl. rewrite DecimalN.Unsigned.of_to. reflexivity.
  - cbn [repeat_string]. cbn [String.append].
    change (("0" ++ ?x)%string) with (String "0" x).
    cbn [NilEmpty.uint_of_string String.append].
    destruct (NilEmpty.uint_of_string _) as [d |]; [| discriminate].
    simpl in *. exact IH.
Qed.

Lemma format_0d_injective (width : nat) (a b : Z) :
  (0 <= a)%Z -> (0 <= b)%Z -> format_0d width a = format_0d width b -> a = b.
Proof.
  intros Ha Hb. unfold format_0d.
  destruct (Z.ltb_spec a 0); [lia |]. destruct (Z.ltb_spec b 0); [lia |].
  intro E. apply (f_equal parse_decimal) in E. rewrite !parse_zfill in E.
  inversion E. lia.
Qed.

Section GeneratorFacts.

Import FinancialDataGenerator.

Variable World : Type.
Variable random : World -> Q * World.
Variable randbelow : Z -> World -> Z * World.
Variable company : World -> string * World.
Variable city : World -> string * World.
Variable sentence : World -> string * World.
Variable days_before_now : Z -> World -> (string * string) * World.
Variable empty_range : Z -> Z -> string.

(** [random._randbelow(n)] lies in [0 .. n - 1] and [random.random()] in
    [0, 1). *)
Hypothesis randbelow_range :
  forall n w, (0 < n)%Z -> (0 <= fst (randbelow n w) < n)%Z.
Hypothesis random_range : forall w, (0 <= fst (random w) < 1)%Q.

Lemma gbind_ok (A B : Type) (m : Gen World A) (k : A -> Gen World B) (w w' : World)
    (a : A) :
  m w = Ok (a, w') -> gbind m k w = k a w'.
Proof. unfold gbind. intros ->. reflexivity. Qed.

Lemma gbind_draw (A B : Type) (f : World -> A * World) (k : A -> Gen World B)
    (w : World) :
  gbind (draw f) k w = k (fst (f w)) (snd (f w)).
Proof. unfold gbind, draw. destruct (f w). reflexivity. Qed.

Lemma choice_ok (A : Type) (seq : list A) (w : World) :
  seq <> [] ->
  exists x w', choice randbelow seq w = Ok (x, w') /\ In x seq.
Proof.
  intro Hne. unfold choice. rewrite gbind_draw. unfold lift, getitem.
  assert (Hn : (0 < Z.of_nat (List.length seq))%Z).
  { destruct seq; [congruence | simpl; lia]. }
  assert (R := randbelow_range w Hn).
  set (i := fst (randbelow (Z.of_nat (List.length seq)) w)) in *.
  destruct (Z.ltb_spec i 0); [lia |]. destruct (Z.ltb_spec i 0); [lia |].
  destruct (nth_error seq (Z.to_nat i)) as [x |] eqn:E.
  - exists x. eexists. split; [reflexivity |]. eapply nth_error_In, E.
  - apply nth_error_None in E. lia.
Qed.

Lemma uniform_ok (a b : Q) (w : World) :
  (a <= b)%Q ->
  exists x w', uniform random a b w = Ok (x, w') /\ (a <= x <= b)%Q.
Proof.
  intro H. unfold uniform. rewrite gbind_draw. unfold ret.
  do 2 eexists. split; [reflexivity |].
  assert (R := random_range w). set (r := fst (random w)) in *. clearbody r.
  split; nra.
Qed.

Lemma randint_ok (a b : Z) (w : World) :
  (a <= b)%Z ->
  exists z w', randint randbelow empty_range a b w = Ok (z, w') /\ (a <= z <= b)%Z.
Proof.
  intro H. unfold randint. destruct (Z.ltb_spec 0 (b + 1 - a)); [| lia].
  rewrite gbind_draw. unfold ret. do 2 eexists. split; [reflexivity |].
  assert (R := @randbelow_range (b + 1 - a)%Z w ltac:(lia)). lia.
Qed.

Lemma randint_empty (a b : Z) (w : World) :
  (b < a)%Z -> randint randbelow empty_range a b w = Raise (ValueError (empty_range a b)).
Proof.
  intro H. unfold randint. destruct (Z.ltb_spec 0 (b + 1 - a)); [lia | reflexivity].
Qed.

Lemma lookup_categories (c : string) :
  In c (map fst categories) ->
  exists subs, lookup c categories = Ok subs /\ In (c, subs) categories /\ subs <> [].
Proof.
  intro H. cbn [map fst categories] in H.
  repeat (destruct H as [<- | H];
          [eexists; split; [reflexivity |]; split;
           [cbn; tauto | discriminate] |]).
  destruct H.
Qed.

Lemma round2_integer (z : Z) : (round2 (inject_Z z) == inject_Z z)%Q.
Proof.
  rewrite round2_spec.
  assert (E : (inject_Z z * 100 == inject_Z (z * 100))%Q).
  { rewrite inject_Z_mult. reflexivity. }
  rewrite (round_half_even_proper E), round_half_even_Z, inject_Z_mult.
  change (inject_Z 100) with 100%Q. field.
Qed.

Lemma round2_between (lo hi : Z) (x : Q) :
  (inject_Z lo <= x <= inject_Z hi)%Q ->
  (inject_Z lo <= round2 x <= inject_Z hi)%Q.
Proof.
  intros [L H]. split.
  - rewrite <- (round2_integer lo). apply round2_le, L.
  - rewrite <- (round2_integer hi). apply round2_le, H.
Qed.

Lemma generate_transaction_ok (self : FinancialDataGenerator.t) (uid : string) (id : Z)
    (w : World) :
  exists t w',
    generate_transaction random randbelow company city sentence days_before_now
      empty_range self uid id w = Ok (t, w') /\
    generated_for uid id t.
Proof.
  unfold generate_transaction.
  destruct (@choice_ok _ (map fst categories) w ltac:(discriminate)) as [c [w1 [Ec Hc]]].
  erewrite gbind_ok by exact Ec.
  destruct (lookup_categories Hc) as [subs [El [Hin Hne]]].
  unfold lift at 1. rewrite El. unfold gbind at 1.
  destruct (@choice_ok _ subs w1 Hne) as [sub [w2 [Es Hs]]].
  erewrite gbind_ok by exact Es.
  match goal with
  | |- exists t w', gbind ?m ?k ?w = _ /\ _ =>
      assert (P : exists p w3, m w = Ok (p, w3) /\
                  snd p = (if String.eqb c "Income" then "credit" else "debit")%string /\
                  (fst (price_range c) <= fst p <= snd (price_range c))%Q)
  end.
  { unfold price_range.
    destruct (String.eqb c "Income");
      [| destruct (String.eqb c "Bills & Utilities");
         [| destruct (String.eqb c "Travel");
            [| destruct (String.eqb c "Education")]]];
      match goal with
      | |- context [uniform random ?a ?b] =>
          destruct (@uniform_ok a b w2 ltac:(discriminate)) as [x [w3 [Eu Hx]]]
      end;
      erewrite gbind_ok by exact Eu; unfold ret; do 2 eexists;
      (split; [reflexivity |]); (split; [reflexivity |]); cbn [fst snd];
      [ apply (@round2_between 1000 50000) | apply (@round2_between 500 5000)
      | apply (@round2_between 2000 30000) | apply (@round2_between 1000 20000)
      | apply (@round2_between 50 5000) ]; exact Hx. }
  destruct P as [p [w3 [Ep [Ht Hr]]]]. erewrite gbind_ok by exact Ep. cbv zeta.
  destruct (@randint_ok 0 365 w3 ltac:(lia)) as [days [w4 [Ed _]]].
  erewrite gbind_ok by exact Ed. rewrite gbind_draw.
  match goal with
  | |- exists t w', gbind ?m ?k ?w = _ /\ _ =>
      assert (M : exists merchant w6, m w = Ok (merchant, w6))
  end.
  { destruct (String.eqb c "Income"); [| rewrite gbind_draw];
      unfold draw, ret; destruct (company _); do 2 eexists; reflexivity. }
  destruct M as [merchant [w6 Em]]. erewrite gbind_ok by exact Em.
  destruct (@choice_ok _ [ "Credit Card"; "Debit Card"; "UPI"; "Net Banking"; "Cash";
                           "Wallet" ]%string w6 ltac:(discriminate))
    as [pay [w7 [Epay _]]].
  erewrite gbind_ok by exact Epay.
  destruct (@choice_ok _ [ "completed"; "completed"; "completed"; "pending" ]%string
              w7 ltac:(discriminate)) as [st [w8 [Est _]]].
  erewrite gbind_ok by exact Est.
  rewrite !gbind_draw.
  match goal with
  | |- exists t w', gbind ?m ?k ?w = _ /\ _ =>
      assert (N : exists notes w9, m w = Ok (notes, w9))
  end.
  { destruct (Qlt_bool _ _); unfold draw, ret;
      [destruct (sentence _) |]; do 2 eexists; reflexivity. }
  destruct N as [notes [w9 En]]. erewrite gbind_ok by exact En.
  unfold ret. do 2 eexists. split; [reflexivity |].
  unfold generated_for.
  cbn [transaction_id user_id timestamp category subcategory amount type].
  split; [reflexivity |]. split; [reflexivity |]. split; [discriminate |].
  exists c, subs, sub, (fst p). rewrite Ht. repeat split; try assumption; apply Hr.
Qed.

Lemma generate_loop_ok (self : FinancialDataGenerator.t) (uid : string) (start : Z)
    (n : nat) :
  forall i acc w,
  exists new w',
    generate_loop random randbelow company city sentence days_before_now empty_range
      self uid start i n acc w = Ok (acc ++ new, w') /\
    Forall2 (generated_for uid) (ids_from (start + i) n) new.
Proof.
  induction n as [| n IH]; intros i acc w.
  - exists [], w. rewrite app_nil_r. split; [reflexivity | constructor].
  - cbn [generate_loop ids_from].
    destruct (generate_transaction_ok self uid (start + i) w) as [t [w1 [Et Ht]]].
    erewrite gbind_ok by exact Et.
    destruct (IH (i + 1)%Z (acc ++ [t]) w1) as [new [w' [El Hl]]].
    exists (t :: new), w'. rewrite El, <- app_assoc. split; [reflexivity |].
    constructor; [exact Ht |]. rewrite <- Z.add_assoc. exact Hl.
Qed.

Lemma generated_ids (uid : string) (ids : list Z) (txns : list Transaction) :
  Forall2 (generated_for uid) ids txns ->
  map transaction_id txns = map txn_id ids /\
  Forall (fun t => user_id t = Some uid) txns /\
  Forall (fun t => exists id, generated_for uid id t) txns /\
  exists tss, timestamps txns = Ok tss.
Proof.
  induction 1 as [| id t ids txns Ht Hrest [Em [Eu [Eg [tss Et]]]]].
  - repeat split; try constructor. exists []. reflexivity.
  - assert (G := Ht). destruct Ht as [Hid [Hu [Hts _]]]. repeat split.
    + cbn [map]. rewrite Em, Hid. reflexivity.
    + constructor; assumption.
    + constructor; [exists id; exact G | exact Eg].
    + cbn [timestamps]. destruct (timestamp t) as [ts |]; [| congruence].
      rewrite Et. eexists. reflexivity.
Qed.

Lemma generate_user_transactions_ok (self : FinancialDataGenerator.t) (uid : string)
    (num start : Z) (w : World) :
  exists generated w',
    generate_user_transactions random randbelow company city sentence days_before_now
      empty_range self uid num start w = Ok (newest_first generated, w') /\
    Forall2 (generated_for uid) (ids_from start (Z.to_nat num)) generated.
Proof.
  unfold generate_user_transactions.
  destruct (generate_loop_ok self uid start (Z.to_nat num) 0 [] w)
    as [generated [w' [El Hl]]].
  rewrite Z.add_0_r in Hl. cbn [app] in El.
  erewrite gbind_ok by exact El.
  destruct (generated_ids Hl) as [_ [_ [_ [tss Et]]]].
  unfold lift. rewrite Et. unfold gbind, ret.
  exists generated, w'. split; [reflexivity | exact Hl].
Qed.

Lemma newest_first_perm (txns : list Transaction) : Permutation (newest_first txns) txns.
Proof. apply sort_with_perm. Qed.

Lemma ids_from_length (k : Z) (n : nat) : List.length (ids_from k n) = n.
Proof. revert k. induction n as [| n IH]; intro k; simpl; [| rewrite IH]; reflexivity. Qed.

Lemma ids_from_app (k : Z) (n m : nat) :
  ids_from k (n + m) = ids_from k n ++ ids_from (k + Z.of_nat n) m.
Proof.
  revert k. induction n as [| n IH]; intro k.
  - simpl. rewrite Z.add_0_r. reflexivity.
  - cbn [Nat.add ids_from app]. rewrite IH. do 3 f_equal. lia.
Qed.

Lemma ids_from_range (k : Z) (n : nat) (x : Z) :
  In x (ids_from k n) <-> (k <= x < k + Z.of_nat n)%Z.
Proof.
  revert k. induction n as [| n IH]; intro k; cbn [ids_from In].
  - simpl. lia.
  - rewrite IH. lia.
Qed.

Lemma ids_from_NoDup (k : Z) (n : nat) : NoDup (ids_from k n).
Proof.
  revert k. induction n as [| n IH]; intro k; cbn [ids_from]; constructor.
  - rewrite ids_from_range. lia.
  - apply IH.
Qed.

Lemma txn_id_NoDup (l : list Z) :
  NoDup l -> (forall x, In x l -> (0 <= x)%Z) -> NoDup (map txn_id l).
Proof.
  induction 1 as [| x l Hx Hl IH]; intro Hpos; cbn [map]; constructor.
  - intro H. apply in_map_iff in H. destruct H as [y [E Hy]].
    unfold txn_id in E. injection E as E.
    apply format_0d_injective in E.
    + subst. contradiction.
    + apply Hpos. right. exact Hy.
    + apply Hpos. left. reflexivity.
  - apply IH. intros y Hy. apply Hpos. right. exact Hy.
Qed.

Lemma txn_ids_NoDup (k : Z) (n : nat) :
  (0 <= k)%Z -> NoDup (map txn_id (ids_from k n)).
Proof.
  intro Hk. apply txn_id_NoDup; [apply ids_from_NoDup |].
  intros x Hx. apply ids_from_range in Hx. lia.
Qed.

Lemma users_loop_ok (self : FinancialDataGenerator.t) (n : nat) :
  let lo := fst (transactions_per_user_range self) in
  let hi := snd (transactions_per_user_range self) in
  (lo <= hi)%Z ->
  forall u acc counter w,
  exists new w',
    users_loop random randbelow company city sentence days_before_now empty_range
      self u n acc counter w = Ok (acc ++ new, w') /\
    Forall (fun t => exists u' id,
              (u <= u' < u + Z.of_nat n)%Z /\
              generated_for ("USER" ++ format_0d 3 u') id t) new /\
    ((0 <= lo)%Z ->
     (Z.of_nat n * lo <= Z.of_nat (List.length new) <= Z.of_nat n * hi)%Z /\
     Permutation (map transaction_id new)
       (map txn_id (ids_from counter (List.length new)))).
Proof.
  intros lo hi Hr. induction n as [| n IH]; intros u acc counter w.
  - exists [], w. rewrite app_nil_r. split; [reflexivity |].
    split; [constructor |]. intros _. split; [simpl; lia | constructor].
  - cbn [users_loop]. fold lo hi.
    destruct (@randint_ok lo hi w Hr) as [num [w1 [En Hn]]].
    erewrite gbind_ok by exact En.
    destruct (generate_user_transactions_ok self ("USER" ++ format_0d 3 u) num counter w1)
      as [generated [w2 [Eg Hg]]].
    erewrite gbind_ok by exact Eg.
    destruct (IH (u + 1)%Z (acc ++ newest_first generated) (counter + num)%Z w2)
      as [new [w' [El [Hf Hp]]]].
    exists (newest_first generated ++ new), w'.
    rewrite El, <- app_assoc. split; [reflexivity |].
    destruct (generated_ids Hg) as [Eids [_ [Hgen _]]].
    assert (Lg : List.length (newest_first generated) = Z.to_nat num).
    { rewrite (Permutation_length (newest_first_perm generated)).
      rewrite <- (Forall2_length Hg). apply ids_from_length. }
    split.
    + apply Forall_app. split.
      * apply Forall_forall. intros t Ht. apply -> newest_first_In in Ht.
        rewrite Forall_forall in Hgen. destruct (Hgen t Ht) as [id G].
        exists u, id. split; [lia | exact G].
      * eapply Forall_impl; [| exact Hf]. intros t [u' [id [Hu G]]].
        exists u', id. split; [lia | exact G].
    + intro H0. destruct (Hp H0) as [Hb Hperm]. split.
      * rewrite length_app, Lg. nia.
      * rewrite map_app, length_app, ids_from_app, map_app.
        apply Permutation_app.
        -- rewrite Lg, <- Eids. apply Permutation_map, newest_first_perm.
        -- rewrite Lg, Z2Nat.id by lia. exact Hperm.
Qed.

(** X26.  Whatever is drawn, as long as [randbelow(n)] lies in [0 .. n - 1] and
    [random()] in [0, 1), [generate_user_transactions] raises nothing and
    returns [num_transactions] transactions (none for a negative number),
    all of the given user, newest timestamp first, whose ids are exactly
    [TXN] followed by the six-digit numbers [start_id], [start_id + 1], ...,
    each once. *)
Theorem generate_user_transactions_block (self : FinancialDataGenerator.t)
    (uid : string) (num start : Z) (w : World) :
  exists txns w',
    generate_user_transactions random randbelow company city sentence days_before_now
      empty_range self uid num start w = Ok (txns, w') /\
    List.length txns = Z.to_nat num /\
    Forall (fun t => user_id t = Some uid) txns /\
    StronglySorted
      (fun a b => String.leb (timestamp_key b) (timestamp_key a) = true) txns /\
    Permutation (map transaction_id txns) (map txn_id (ids_from start (Z.to_nat num))).
Proof.
  destruct (generate_user_transactions_ok self uid num start w)
    as [generated [w' [E Hg]]].
  exists (newest_first generated), w'. split; [exact E |].
  destruct (generated_ids Hg) as [Eids [Hu _]].
  assert (P := newest_first_perm generated). repeat split.
  - rewrite (Permutation_length P), <- (Forall2_length Hg). apply ids_from_length.
  - apply Forall_forall. intros t Ht. rewrite Forall_forall in Hu.
    apply Hu. eapply Permutation_in; [exact P | exact Ht].
  - apply newest_first_sorted.
  - rewrite <- Eids. apply Permutation_map, P.
Qed.

(** X27.  With a range [0 <= min <= max] of transactions per user,
    [generate_all_transactions] raises nothing and returns between
    [num_users * min] and [num_users * max] transactions whose ids are
    exactly [TXN000001], [TXN000002], ... up to their number, so that no two
    transactions share an id.  With [max < min] and at least one user it
    raises the [ValueError] of [random.randint]. *)
Theorem generate_all_transactions_ids (self : FinancialDataGenerator.t) (w : World) :
  let lo := fst (transactions_per_user_range self) in
  let hi := snd (transactions_per_user_range self) in
  ((0 <= lo <= hi)%Z ->
   exists all w',
     generate_all_transactions random randbelow company city sentence
       days_before_now empty_range self w = Ok (all, w') /\
     (Z.max 0 (num_users self) * lo <= Z.of_nat (List.length all)
      <= Z.max 0 (num_users self) * hi)%Z /\
     Permutation (map transaction_id all) (map txn_id (ids_from 1 (List.length all))) /\
     NoDup (map transaction_id all)) /\
  ((hi < lo)%Z -> (1 <= num_users self)%Z ->
   generate_all_transactions random randbelow company city sentence
     days_before_now empty_range self w = Raise (ValueError (empty_range lo hi))).
Proof.
  intros lo hi. split.
  - intros [H0 Hr]. unfold generate_all_transactions.
    destruct (@users_loop_ok self (Z.to_nat (num_users self)) Hr 1%Z [] 1%Z w)
      as [all [w' [E [_ Hp]]]].
    destruct (Hp H0) as [Hb Hperm]. cbn [app] in E.
    exists all, w'. split; [exact E |]. split; [| split].
    + replace (Z.max 0 (num_users self)) with (Z.of_nat (Z.to_nat (num_users self)))
        by lia. exact Hb.
    + exact Hperm.
    + eapply Permutation_NoDup; [apply Permutation_sym, Hperm |].
      apply txn_ids_NoDup. lia.
  - intros He Hu. unfold generate_all_transactions.
    destruct (Z.to_nat (num_users self)) as [| n] eqn:En; [lia |].
    cbn [users_loop]. fold lo hi. unfold gbind.
    rewrite randint_empty by exact He. reflexivity.
Qed.

(** X28.  With [min <= max] every transaction of the generated data set has
    type ['credit'] exactly when its category is ['Income'] and type
    ['debit'] otherwise, one of the nine categories, an amount within the
    bounds drawn for its category (between 50 and 50000 in every case), the
    id [USER] and three digits of a user between 1 and [num_users], and a
    timestamp. *)
Theorem generated_transactions_wellformed (self : FinancialDataGenerator.t)
    (w : World) :
  (fst (transactions_per_user_range self) <= snd (transactions_per_user_range self))%Z ->
  exists all w',
    generate_all_transactions random randbelow company city sentence
      days_before_now empty_range self w = Ok (all, w') /\
    Forall
      (fun t =>
         debit_or_credit t /\
         (type t = Some "credit"%string <-> category t = Some "Income"%string) /\
         (exists c subs, category t = Some c /\ In (c, subs) categories) /\
         (exists a, amount t = Some a /\
                    (fst (price_range (category_of t)) <= a
                     <= snd (price_range (category_of t)))%Q /\
                    (50 <= a <= 50000)%Q) /\
         (exists u, (1 <= u <= num_users self)%Z /\
                    user_id t = Some ("USER" ++ format_0d 3 u)%string) /\
         timestamp t <> None) all.
Proof.
  intro Hr. unfold generate_all_transactions.
  destruct (@users_loop_ok self (Z.to_nat (num_users self)) Hr 1%Z [] 1%Z w)
    as [all [w' [E [Hf _]]]].
  cbn [app] in E. exists all, w'. split; [exact E |].
  eapply Forall_impl; [| exact Hf].
  intros t [u [id [Hu G]]].
  destruct G as [_ [Huid [Hts [c [subs [sub [a [Ec [Hin [_ [_ [Ea [Et Ha]]]]]]]]]]]]].
  assert (Hc : category_of t = c) by (unfold category_of; rewrite Ec; reflexivity).
  repeat split.
  - unfold debit_or_credit. rewrite Et.
    destruct (String.eqb c "Income"); [right | left]; reflexivity.
  - rewrite Et, Ec. destruct (String.eqb c "Income") eqn:Ei.
    + apply String.eqb_eq in Ei. subst c. reflexivity.
    + discriminate.
  - rewrite Et, Ec. intro H. injection H as ->. reflexivity.
  - exists c, subs. split; assumption.
  - exists a. rewrite Hc. split; [exact Ea |]. split; [exact Ha |].
    revert Ha. unfold price_range.
    destruct (String.eqb c "Income");
      [| destruct (String.eqb c "Bills & Utilities");
         [| destruct (String.eqb c "Travel");
            [| destruct (String.eqb c "Education")]]];
      cbn [fst snd]; intro Ha; lra.
  - exists u. split; [lia | exact Huid].
  - exact Hts.
Qed.

End GeneratorFacts.

Lemma generated_transactions_wellformed_witness :
  exists all w',
    FinancialDataGenerator.generate_all_transactions toy_random toy_randbelow
      toy_company toy_city toy_sentence toy_days_before_now toy_empty_range
      toy_generator 0%Z = Ok (all, w') /\
    Forall debit_or_credit all.
Proof.
  destruct (@generated_transactions_wellformed Z toy_random toy_randbelow toy_company
              toy_city toy_sentence toy_days_before_now toy_empty_range
              ltac:(intros n w H; apply Z.mod_pos_bound; exact H)
              ltac:(intro w; unfold toy_random; cbn [fst];
                    assert (B := Z.mod_pos_bound w 4 ltac:(lia));
                    rewrite Zlt_Qlt, Zle_Qle in B;
                    change (inject_Z 0) with 0%Q in B;
                    change (inject_Z 4) with 4%Q in B; lra)
              toy_generator 0%Z ltac:(simpl; lia))
    as [all [w' [E F]]].
  exists all, w'. split; [exact E |].
  eapply Forall_impl; [| exact F]. intros t Ht. apply Ht.
Defined.

Lemma generate_all_transactions_ids_witness :
  exists all w',
    FinancialDataGenerator.generate_all_transactions toy_random toy_randbelow
      toy_company toy_city toy_sentence toy_days_before_now toy_empty_range
      toy_generator 0%Z = Ok (all, w') /\
    (4 <= Z.of_nat (List.length all) <= 6)%Z /\
    NoDup (map transaction_id all).
Proof.
  pose proof (@generate_all_transactions_ids Z toy_random toy_randbelow toy_company
                toy_city toy_sentence toy_days_before_now toy_empty_range
                ltac:(intros n w H; apply Z.mod_pos_bound; exact H)
                ltac:(intro w; unfold toy_random; cbn [fst];
                      assert (B := Z.mod_pos_bound w 4 ltac:(lia));
                      rewrite Zlt_Qlt, Zle_Qle in B;
                      change (inject_Z 0) with 0%Q in B;
                      change (inject_Z 4) with 4%Q in B; lra)
                toy_generator 0%Z) as H.
  cbv zeta in H. destruct H as [H _].
  destruct (H ltac:(simpl; lia)) as [all [w' [E [B [_ N]]]]].
  exists all, w'. split; [exact E |]. split; [exact B | exact N].
Defined.

Lemma generate_user_transactions_block_witness :
  exists txns w',
    FinancialDataGenerator.generate_user_transactions toy_random toy_randbelow
      toy_company toy_city toy_sentence toy_days_before_now toy_empty_range
      toy_generator "USER001"%string 3 1 0%Z = Ok (txns, w') /\
    List.length txns = 3%nat /\
    Forall (fun t => user_id t = Some "USER001"%string) txns.
Proof.
  destruct (@generate_user_transactions_block Z toy_random toy_randbelow toy_company
              toy_city toy_sentence toy_days_before_now toy_empty_range
              ltac:(intros n w H; apply Z.mod_pos_bound; exact H)
              ltac:(intro w; unfold toy_random; cbn [fst];
                    assert (B := Z.mod_pos_bound w 4 ltac:(lia));
                    rewrite Zlt_Qlt, Zle_Qle in B;
                    change (inject_Z 0) with 0%Q in B;
                    change (inject_Z 4) with 4%Q in B; lra)
              toy_generator "USER001"%string 3%Z 1%Z 0%Z)
    as [txns [w' [E [L [U _]]]]].
  exists txns, w'. split; [exact E |]. split; [exact L | exact U].
Defined.
